(** * pipoe: version comparison, license translation and package gathering

    A shallow embedding of [src/pipoe/pipoe.py] (and of the table of
    [src/pipoe/licenses.py]) together with the properties of the
    natural-language specification that concern them.

    Conventions of the embedding.
    - A Python [str] is a Rocq [string] read as ASCII text; [None] is the
      [None] of an [option].  [str.isdigit] is the test "non empty and all
      characters in '0'..'9'", which is what it is on ASCII text.
    - A Python [int] is a [Z].
    - A call that may raise returns a [res]: [Ok v] or [Raise e].  Only
      exceptions deriving from [Exception] are modelled (an interrupt is
      not).
    - [licenses.LICENSES], [PROCESSED_PACKAGES], the list object
      [packages[0]], standard input and standard output are fields of an
      explicit [state]. *)

From Stdlib Require Import ZArith Ascii Bool Lia.
From Stdlib Require String.
From stdpp Require Import base option list strings gmap.

Open Scope Z_scope.

(** ** Exceptions and results *)

Inductive exn : Type :=
| TypeError
| ValueError
| AttributeError
| KeyError
| IndexError
| StopIteration
| EOFError
| Exception (msg : string)
| URLError (msg : string).

Inductive res (A : Type) : Type :=
| Ok (a : A)
| Raise (e : exn).
Arguments Ok {A} a.
Arguments Raise {A} e.

#[global] Instance res_ret : MRet res := fun A a => Ok a.
#[global] Instance res_bind : MBind res :=
  fun A B f m => match m with Ok a => f a | Raise e => Raise e end.

(** ** String primitives of Python used by the program *)

Module Py.

(** [c in '0'..'9'] *)
Definition is_digit (c : ascii) : bool :=
  let n := N_of_ascii c in (48 <=? n)%N && (n <=? 57)%N.

Fixpoint all_digits (s : string) : bool :=
  match s with
  | EmptyString => true
  | String c s' => is_digit c && all_digits s'
  end.

(** [s.isdigit()] *)
Definition isdigit (s : string) : bool :=
  match s with
  | EmptyString => false
  | _ => all_digits s
  end.

Fixpoint int_acc (acc : Z) (s : string) : Z :=
  match s with
  | EmptyString => acc
  | String c s' => int_acc (10 * acc + (Z.of_N (N_of_ascii c) - 48)) s'
  end.

(** [int(s)] for a string [s] of decimal digits *)
Definition int (s : string) : Z := int_acc 0 s.

(** [s.replace(a, b)] for one-character [a] and [b] *)
Fixpoint replace (a b : ascii) (s : string) : string :=
  match s with
  | EmptyString => EmptyString
  | String c s' => String (if Ascii.eqb c a then b else c) (replace a b s')
  end.

(** [s.split(sep)] for a one-character separator: never the empty list *)
Fixpoint split (sep : ascii) (s : string) : list string :=
  match s with
  | EmptyString => [EmptyString]
  | String c s' =>
      if Ascii.eqb c sep then EmptyString :: split sep s'
      else match split sep s' with
           | [] => [String c EmptyString]
           | p :: ps => String c p :: ps
           end
  end.

Fixpoint lstrip (c : ascii) (s : string) : string :=
  match s with
  | EmptyString => EmptyString
  | String d s' => if Ascii.eqb d c then lstrip c s' else s
  end.

Fixpoint rstrip (c : ascii) (s : string) : string :=
  match s with
  | EmptyString => EmptyString
  | String d s' =>
      match rstrip c s' with
      | EmptyString => if Ascii.eqb d c then EmptyString else String d EmptyString
      | r => String d r
      end
  end.

(** [s.strip(c)] for a one-character set [c] *)
Definition strip (c : ascii) (s : string) : string := rstrip c (lstrip c s).

(** [s.startswith(p)] *)
Definition startswith (p s : string) : bool := String.prefix p s.

(** [c in s] for a character [c] *)
Fixpoint contains (c : ascii) (s : string) : bool :=
  match s with
  | EmptyString => false
  | String d s' => Ascii.eqb d c || contains c s'
  end.

Definition squote : ascii := "039"%char.
Definition dquote : ascii := "034"%char.

(** truth value of an optional string: [None] and [''] are false *)
Definition truthy (s : option string) : bool :=
  match s with
  | None | Some EmptyString => false
  | Some _ => true
  end.

End Py.

(** ** [compare_versions] *)

(** An element of the list built by [normalize]: an [int] or a [str]. *)
Inductive part : Type :=
| PInt (n : Z)
| PStr (s : string).

(** [int(part) if part.isdigit() else part] *)
Definition to_part (p : string) : part :=
  if Py.isdigit p then PInt (Py.int p) else PStr p.

(** The inner function [normalize] of [compare_versions]. *)
Definition normalize (version : string) : list part :=
  map to_part (Py.split "." (Py.replace "-" "." version)).

(** [v1 == v2]: an [int] never equals a [str]. *)
Definition part_eq (v1 v2 : part) : bool :=
  match v1, v2 with
  | PInt a, PInt b => (a =? b)%Z
  | PStr s, PStr t => String.eqb s t
  | _, _ => false
  end.

(** [v1 < v2]: ordering an [int] against a [str] raises [TypeError]. *)
Definition part_lt (v1 v2 : part) : res bool :=
  match v1, v2 with
  | PInt a, PInt b => Ok (a <? b)%Z
  | PStr s, PStr t => Ok (String.ltb s t)
  | _, _ => Raise TypeError
  end.

(** [v1 > v2] *)
Definition part_gt (v1 v2 : part) : res bool := part_lt v2 v1.

(** The loop [for v1, v2 in zip(v1_parts, v2_parts)] and the final
    [return 0]. *)
Fixpoint compare_parts (l : list (part * part)) : res Z :=
  match l with
  | [] => Ok 0
  | (v1, v2) :: l' =>
      if part_eq v1 v2 then compare_parts l'
      else
        lt ← part_lt v1 v2;
        if (lt : bool) then Ok (-1)
        else
          gt ← part_gt v1 v2;
          if (gt : bool) then Ok 1 else compare_parts l'
  end.

(** [compare_versions(version1, version2)].  [normalize(version1)] is
    evaluated before [normalize(version2)]; the latter raises
    [AttributeError] on [None] ([None] has no [replace]). *)
Definition compare_versions (version1 version2 : option string) : res Z :=
  if negb (Py.truthy version1) then Ok (-1)
  else
    let v1_parts := normalize (default "" version1) in
    v2_parts ← match version2 with
               | Some v => Ok (normalize v)
               | None => Raise AttributeError
               end;
    compare_parts (combine v1_parts v2_parts).

(** ** Data model *)

(** The namedtuple [Dependency]. *)
Module Dependency.
Record t : Type := mk {
  name : string;
  version : option string;
  extra : option string;
}.
End Dependency.

(** The namedtuple [Package].  [version] is [None] for a package that
    [parse_existing_packages] read from a line without ["=="]. *)
Module Package.
Record t : Type := mk {
  name : string;
  version : option string;
  summary : string;
  homepage : string;
  author : string;
  author_email : string;
  license : string;
  license_file : string;
  license_md5 : string;
  src_dir : string;
  src_uri : string;
  src_md5 : string;
  src_sha256 : string;
  dependencies : list Dependency.t;
  build_dependencies : list string;
}.
End Package.

(** What the program prints, one constructor per [print] call site (the
    arguments are the values formatted into the line). *)
Inductive line : Type :=
| LProgress (indent_str package extra_str version_str : string)
| LWarning (package_name : string) (needed found : option string)
| LError (indent_str : string) (package : string + Package.t) (cause : exn)
| LFuzzy (v : list string)
| LLicenseFailed (license : option string)
| LPrompt.

(** The mutable objects of a run. *)
Record state : Type := mkState {
  LICENSES : gmap (option string) string;   (* licenses.LICENSES *)
  PROCESSED_PACKAGES : list Package.t;      (* the module-level list *)
  packages0 : list Package.t;               (* the list object packages[0] *)
  stdin : list string;                      (* lines still to be read *)
  stdout : list line;                       (* lines printed so far *)
}.

(** ** Stateful computations that may raise *)

Inductive outcome (A : Type) : Type :=
| Return (a : A)
| Throw (e : exn)
| OutOfFuel.
Arguments Return {A} a.
Arguments Throw {A} e.
Arguments OutOfFuel {A}.

Definition M (A : Type) : Type := state → outcome A * state.

#[global] Instance M_ret : MRet M := fun A a st => (Return a, st).
#[global] Instance M_bind : MBind M :=
  fun A B f m st =>
    match m st with
    | (Return a, st') => f a st'
    | (Throw e, st') => (Throw e, st')
    | (OutOfFuel, st') => (OutOfFuel, st')
    end.

Definition get : M state := fun st => (Return st, st).

Definition raise {A} (e : exn) : M A := fun st => (Throw e, st).

Definition lift {A} (r : res A) : M A :=
  match r with
  | Ok a => mret a
  | Raise e => raise e
  end.

(** [try: body except Exception as e: handler(e)]; the state reached when
    the exception was raised is the one the handler starts from. *)
Definition try_except {A} (body : M A) (handler : exn → M A) : M A :=
  fun st =>
    match body st with
    | (Throw e, st') => handler e st'
    | r => r
    end.

(** [print(...)] *)
Definition print (l : line) : M unit :=
  fun st =>
    (Return tt,
     mkState (LICENSES st) (PROCESSED_PACKAGES st) (packages0 st) (stdin st)
             (stdout st ++ [l])).

(** [input(prompt)]: writes the prompt, reads one line, [EOFError] at end
    of input. *)
Definition input : M string :=
  fun st =>
    let out := stdout st ++ [LPrompt] in
    match stdin st with
    | [] =>
        (Throw EOFError,
         mkState (LICENSES st) (PROCESSED_PACKAGES st) (packages0 st) [] out)
    | answer :: rest =>
        (Return answer,
         mkState (LICENSES st) (PROCESSED_PACKAGES st) (packages0 st) rest out)
    end.

(** [licenses.LICENSES[key] = value] *)
Definition LICENSES_setitem (key : option string) (value : string) : M unit :=
  fun st =>
    (Return tt,
     mkState (<[key := value]> (LICENSES st)) (PROCESSED_PACKAGES st)
             (packages0 st) (stdin st) (stdout st)).

(** [for x in l: f(x)] *)
Fixpoint for_each {A B} (f : A → M B) (l : list A) : M unit :=
  match l with
  | [] => mret tt
  | x :: l' => _ ← f x; for_each f l'
  end.

(** ** [translate_license] *)

(** [LICENSES[key]] *)
Definition getitem (T : gmap (option string) string) (key : string) : res string :=
  match T !! Some key with
  | Some v => Ok v
  | None => Raise KeyError
  end.

(** The inner [try]: the declared license, quotes stripped, when it is
    neither [''] nor [None]; [Ok None] when the [if] is not taken. *)
Definition declared_lookup (T : gmap (option string) string)
    (license : option string) : res (option string) :=
  match license with
  | Some l =>
      if Py.truthy license
      then v ← getitem T (Py.strip Py.dquote (Py.strip Py.squote l)); Ok (Some v)
      else Ok None
  | None => Ok None
  end.

(** [for classifier in classifiers: ...] followed by
    [raise Exception("No license found")]. *)
Fixpoint classifier_lookup (T : gmap (option string) string)
    (classifiers : list string) : res string :=
  match classifiers with
  | [] => Raise (Exception "No license found")
  | classifier :: rest =>
      if Py.startswith "License" classifier then getitem T classifier
      else classifier_lookup T rest
  end.

(** The body of the outer [try]: the inner [try ... except: pass] lets a
    miss of the declared license fall through to the classifiers. *)
Definition table_lookup (T : gmap (option string) string)
    (license : option string) (classifiers : list string) : res string :=
  match declared_lookup T license with
  | Ok (Some v) => Ok v
  | Ok None | Raise _ => classifier_lookup T classifiers
  end.

Definition translate_license (license : option string)
    (classifiers : list string) (default_license : option string) : M string :=
  try_except
    (st ← get; lift (table_lookup (LICENSES st) license classifiers))
    (fun _ =>
       if Py.truthy default_license then mret (default "" default_license)
       else
         _ ← print (LLicenseFailed license);
         mapping ← input;
         _ ← LICENSES_setitem license mapping;
         mret mapping).

(** ** The built-in table of [licenses.py] *)

Definition LICENSES_items_1 : list (string * string) := [
  ("AAL", "AAL");
  ("AFL-1.2", "AFL-1.2");
  ("AFL-2.0", "AFL-2.0");
  ("AFL-2.1", "AFL-2.1");
  ("AFL-3.0", "AFL-3.0");
  ("AGPL-3.0", "AGPL-3.0");
  ("ANTLR-PD", "ANTLR-PD");
  ("APL-1.0", "APL-1.0");
  ("APL2", "Apache-2.0");
  ("APSL-1.0", "APSL-1.0");
  ("APSL-1.1", "APSL-1.1");
  ("APSL-1.2", "APSL-1.2");
  ("APSL-2.0", "APSL-2.0");
  ("ASL", "Apache-2.0");
  ("Adobe", "Adobe");
  ("Apache", "Apache-2.0");
  ("Apache 2.0", "Apache-2.0");
  ("Apache-2.0 license", "Apache-2.0");
  ("Apache License 2.0", "Apache-2.0");
  ("Apache License, Version 2.0", "Apache-2.0");
  ("Apache Software License, Version 2", "Apache-2.0");
  ("Apache Software License", "Apache-2.0");
  ("Apache-2.0 WITH LLVM-exception", "Apache-2.0-with-LLVM-exception");
  ("Apache-1.0", "Apache-1.0");
  ("Apache-1.1", "Apache-1.1");
  ("Apache-2.0", "Apache-2.0");
  ("Artistic-1.0", "Artistic-1.0");
  ("Artistic-2.0", "Artistic-2.0");
  ("BSD", "BSD");
  ("BSD - See ndg/httpsclient/LICENCE file for details", "BSD");
  ("BSD 3-Clause", "BSD-3-Clause");
  ("BSD 3-Clause License", "BSD-3-Clause");
  ("BSD License", "BSD");
  ("BSD or Apache License, Version 2.0", "BSD");
  ("BSD, Public Domain", "BSD");
  ("BSD-2-Clause", "BSD-2-Clause");
  ("BSD-3-Clause", "BSD-3-Clause");
  ("BSD-4-Clause", "BSD-4-Clause");
  ("BSD-derived (http://www.repoze.org/LICENSE.txt)", "BSD");
  ("BSD-like", "BSD");
  ("BSL-1.0", "BSL-1.0");
  ("BitstreamVera", "BitstreamVera");
  ("CATOSL-1.1", "CATOSL-1.1");
  ("CC-BY-1.0", "CC-BY-1.0");
  ("CC-BY-2.0", "CC-BY-2.0");
  ("CC-BY-2.5", "CC-BY-2.5");
  ("CC-BY-3.0", "CC-BY-3.0");
  ("CC-BY-NC-1.0", "CC-BY-NC-1.0");
  ("CC-BY-NC-2.0", "CC-BY-NC-2.0");
  ("CC-BY-NC-2.5", "CC-BY-NC-2.5");
  ("CC-BY-NC-3.0", "CC-BY-NC-3.0");
  ("CC-BY-NC-ND-1.0", "CC-BY-NC-ND-1.0");
  ("CC-BY-NC-ND-2.0", "CC-BY-NC-ND-2.0");
  ("CC-BY-NC-ND-2.5", "CC-BY-NC-ND-2.5");
  ("CC-BY-NC-ND-3.0", "CC-BY-NC-ND-3.0");
  ("CC-BY-NC-SA-1.0", "CC-BY-NC-SA-1.0");
  ("CC-BY-NC-SA-2.0", "CC-BY-NC-SA-2.0");
  ("CC-BY-NC-SA-2.5", "CC-BY-NC-SA-2.5");
  ("CC-BY-NC-SA-3.0", "CC-BY-NC-SA-3.0");
  ("CC-BY-ND-1.0", "CC-BY-ND-1.0");
  ("CC-BY-ND-2.0", "CC-BY-ND-2.0");
  ("CC-BY-ND-2.5", "CC-BY-ND-2.5");
  ("CC-BY-ND-3.0", "CC-BY-ND-3.0");
  ("CC-BY-SA-1.0", "CC-BY-SA-1.0");
  ("CC-BY-SA-2.0", "CC-BY-SA-2.0");
  ("CC-BY-SA-2.5", "CC-BY-SA-2.5");
  ("CC-BY-SA-3.0", "CC-BY-SA-3.0");
  ("CC0-1.0", "CC0-1.0");
  ("CDDL-1.0", "CDDL-1.0");
  ("CECILL-1.0", "CECILL-1.0");
  ("CECILL-2.0", "CECILL-2.0");
  ("CECILL-B", "CECILL-B");
  ("CECILL-C", "CECILL-C");
  ("CPAL-1.0", "CPAL-1.0");
  ("CPL-1.0", "CPL-1.0");
  ("CUA-OPL-1.0", "CUA-OPL-1.0");
  ("ClArtistic", "ClArtistic");
  ("DSSSL", "DSSSL");
  ("Dual License", "BSD");
  ("ECL-1.0", "ECL-1.0");
  ("ECL-2.0", "ECL-2.0");
  ("EDL-1.0", "EDL-1.0");
  ("EFL-1.0", "EFL-1.0");
  ("EFL-2.0", "EFL-2.0");
  ("EPL-1.0", "EPL-1.0");
  ("EPL-2.0", "EPL-2.0");
  ("EUDatagrid", "EUDatagrid");
  ("EUPL-1.0", "EUPL-1.0");
  ("EUPL-1.1", "EUPL-1.1");
  ("Elfutils-Exception", "Elfutils-Exception");
  ("Entessa", "Entessa");
  ("ErlPL-1.1", "ErlPL-1.1");
  ("Expat license", "MIT");
  ("Expat (MIT/X11)", "MIT");
  ("Fair", "Fair");
  ("Frameworx-1.0", "Frameworx-1.0");
  ("FreeType", "FreeType");
  ("GFDL-1.1", "GFDL-1.1");
  ("GFDL-1.2", "GFDL-1.2");
  ("GFDL-1.3", "GFDL-1.3");
  ("GNU GPLv3+", "GPL-3.0");
  ("GNU General Public License Version 3", "GPL-3.0");
  ("GNU LGPL", "LGPL-2.0");
  ("GPL", "GPL-1.0");
  ("GPL V2 or later", "GPL-2.0");
  ("GPL-1.0", "GPL-1.0");
  ("GPL-2-with-bison-exception", "GPL-2-with-bison-exception");
  ("GPL-2.0", "GPL-2.0");
  ("GPL-2.0-with-GCC-exception", "GPL-2.0-with-GCC-exception");
  ("GPL-2.0-with-autoconf-exception", "GPL-2.0-with-autoconf-exception");
  ("GPL-2.0-with-classpath-exception", "GPL-2.0-with-classpath-exception");
  ("GPL-2.0-with-font-exception", "GPL-2.0-with-font-exception");
  ("GPL-3.0", "GPL-3.0")
].

Definition LICENSES_items_2 : list (string * string) := [
  ("GPL-3.0-with-GCC-exception", "GPL-3.0-with-GCC-exception");
  ("GPL-3.0-with-autoconf-exception", "GPL-3.0-with-autoconf-exception");
  ("GPLv3+", "GPLv3");
  ("HPND", "HPND");
  ("IPA", "IPA");
  ("IPL-1.0", "IPL-1.0");
  ("ISC", "ISC");
  ("ISC license", "ISC");
  ("LGPL", "LGPL-2.0");
  ("LGPL-2.0", "LGPL-2.0");
  ("LGPL-2.1", "LGPL-2.1");
  ("LGPL-3.0", "LGPL-3.0");
  ("LGPLv2", "LGPL-2.0");
  ("LGPLv2+", "LGPL-2.0");
  ("LGPLv3", "LGPL-3.0");
  ("LPGL, see LICENSE file.", "LGPL-1.0");
  ("LPL-1.02", "LPL-1.02");
  ("LPPL-1.0", "LPPL-1.0");
  ("LPPL-1.1", "LPPL-1.1");
  ("LPPL-1.2", "LPPL-1.2");
  ("LPPL-1.3c", "LPPL-1.3c");
  ("Libpng", "Libpng");
  ("License :: OSI Approved :: Apache Software License", "Apache-2.0");
  ("License :: OSI Approved :: MIT License (http://opensource.org/licenses/MIT)", "MIT");
  ("License :: OSI Approved :: BSD License", "BSD");
  ("License :: OSI Approved :: MIT License", "MIT");
  ("License :: OSI Approved :: Python Software Foundation License", "Python-2.0");
  ("MIT", "MIT");
  ("MIT License", "MIT");
  ("MIT license", "MIT");
  ("MIT/X11", "MIT");
  ("MIT-CMU", "MIT-CMU");
  ("MPL v2", "MPL-2.0");
  ("MPL-1.0", "MPL-1.0");
  ("MPL-1.1", "MPL-1.1");
  ("MPL-2.0", "MPL-2.0");
  ("MPLv2.0, MIT Licences", "MIT");
  ("MS-PL", "MS-PL");
  ("MS-RL", "MS-RL");
  ("MirOS", "MirOS");
  ("Modified BSD License", "BSD");
  ("Motosoto", "Motosoto");
  ("Multics", "Multics");
  ("NASA-1.3", "NASA-1.3");
  ("NCSA", "NCSA");
  ("NGPL", "NGPL");
  ("NPOSL-3.0", "NPOSL-3.0");
  ("NTP", "NTP");
  ("Nauman", "Nauman");
  ("New BSD", "BSD");
  ("Nokia", "Nokia");
  ("OASIS", "OASIS");
  ("OCLC-2.0", "OCLC-2.0");
  ("ODbL-1.0", "ODbL-1.0");
  ("OFL-1.1", "OFL-1.1");
  ("OGTSL", "OGTSL");
  ("OLDAP-2.8", "OLDAP-2.8");
  ("OSL-1.0", "OSL-1.0");
  ("OSL-2.0", "OSL-2.0");
  ("OSL-3.0", "OSL-3.0");
  ("OpenSSL", "OpenSSL");
  ("PD", "PD");
  ("PHP-3.0", "PHP-3.0");
  ("PSF", "Python-2.0");
  ("PSF License", "Python-2.0");
  ("PSF license", "Python-2.0");
  ("PSFL", "Python-2.0");
  ("PostgreSQL", "PostgreSQL");
  ("Proprietary", "Proprietary");
  ("Public Domain", "PD");
  ("Public domain", "PD");
  ("Python Software Foundation License", "Python-2.0");
  ("Python style", "Python-2.0");
  ("Python-2.0", "Python-2.0");
  ("QPL-1.0", "QPL-1.0");
  ("RHeCos-1", "RHeCos-1");
  ("RHeCos-1.1", "RHeCos-1.1");
  ("RPL-1.5", "RPL-1.5");
  ("RPSL-1.0", "RPSL-1.0");
  ("RSCPL", "RSCPL");
  ("Ruby", "Ruby");
  ("SAX-PD", "SAX-PD");
  ("SGI-1", "SGI-1");
  ("SPL-1.0", "SPL-1.0");
  ("Simple-2.0", "Simple-2.0");
  ("Sleepycat", "Sleepycat");
  ("SugarCRM-1", "SugarCRM-1");
  ("SugarCRM-1.1.3", "SugarCRM-1.1.3");
  ("This software released into the public domain. Anyone is free to copy,", "PD");
  ("Two-clause BSD license", "BSD-2-Clause");
  ("UCB", "UCB");
  ("UNKNOWN", "CLOSED");
  ("VSL-1.0", "VSL-1.0");
  ("W3C", "W3C");
  ("WXwindows", "WXwindows");
  ("Watcom-1.0", "Watcom-1.0");
  ("XFree86-1.0", "XFree86-1.0");
  ("XFree86-1.1", "XFree86-1.1");
  ("XSL", "XSL");
  ("Xnet", "Xnet");
  ("YPL-1.1", "YPL-1.1");
  ("ZPL 2.1", "ZPL-2.0");
  ("ZPL-1.1", "ZPL-1.1");
  ("ZPL-2.0", "ZPL-2.0");
  ("ZPL-2.1", "ZPL-2.1");
  ("Zimbra-1.3", "Zimbra-1.3");
  ("Zlib", "Zlib");
  ("eCos-2.0", "eCos-2.0");
  ("gSOAP-1", "gSOAP-1");
  ("gSOAP-1.3b", "gSOAP-1.3b");
  ("http://creativecommons.org/publicdomain/zero/1.0/", "PD");
  ("http://opensource.org/licenses/MIT", "MIT");
  ("public domain, Python, 2-Clause BSD, GPL 3 (see COPYING.txt)", "PD")
].

(** The value of [licenses.LICENSES] when the module is loaded. *)
Definition LICENSES_builtin : gmap (option string) string :=
  list_to_map (map (fun kv => (Some (fst kv), snd kv))
                   (LICENSES_items_1 ++ LICENSES_items_2)).

(** ** The registry and the other external collaborators *)

(** An entry of [releases[version]] or of [urls]. *)
Record RFile : Type := mkRFile {
  url : string;
  packagetype : string;
  size : Z;
}.

(** The JSON document of the registry, with the fields the program reads.
    [releases] and [urls] may be absent and [info.url] too; [info.license]
    and [info.requires_dist] may be [null].  [releases] lists the items of
    the JSON object in document order (the iteration order of the
    dictionary), with distinct keys.  The other fields of [info] are those
    every document of the registry has, with a string for [summary]. *)
Record Info : Type := mkInfo {
  info_version : string;
  info_summary : string;
  info_home_page : string;
  info_author : string;
  info_author_email : string;
  info_license : option string;
  info_classifiers : list string;
  info_requires_dist : option (list string);
  info_url : option string;
  releases : option (list (string * list RFile));
  urls : option (list RFile);
}.

(** The tuple returned by [get_package_file_info]. *)
Record FileInfo : Type := mkFileInfo {
  fi_src_md5 : string;
  fi_src_sha256 : string;
  fi_src_dir : string;
  fi_license_file : string;
  fi_license_md5 : string;
  fi_build_deps : list string;
}.

(** What lies outside the program: the registry behind [urlopen] (fetch,
    decode and [json.loads] of the document at a URL), the download and
    unpacking done by [get_package_file_info] and by
    [fetch_requirements_from_remote_package], and the PEP 508 parser
    behind [parse_requires_dist].  Each of them may raise. *)
Record World : Type := mkWorld {
  urlopen_json : string → res Info;
  get_package_file_info : string → string → string → res FileInfo;
  fetch_requirements_from_remote_package : Info → string → res (list string);
  parse_requires_dist : string → res Dependency.t;
}.

(** ** Wildcard versions *)

(** The loop [for j in enumerate(v)]: the value of [found] after it.
    [tv[j]] raises [IndexError] past the end of [tv]. *)
Fixpoint fuzzy_found (j : nat) (v tv : list string) : res bool :=
  match v with
  | [] => Ok true
  | seg :: v' =>
      if String.eqb seg "*" then Ok true
      else match tv !! j with
           | None => Raise IndexError
           | Some t =>
               if negb (String.eqb seg t) then Ok false
               else fuzzy_found (S j) v' tv
           end
  end.

(** The loop [for i in info["releases"]], with [pv] as accumulator. *)
Fixpoint fuzzy_loop (v : list string) (keys : list string) (pv : list string)
  : res (list string) :=
  match keys with
  | [] => Ok pv
  | i :: keys' =>
      found ← fuzzy_found 0 v (Py.split "." i);
      fuzzy_loop v keys' (if (found : bool) then pv ++ [i] else pv)
  end.

(** [pv[-1]] *)
Definition last_item (pv : list string) : res string :=
  match last pv with
  | Some x => Ok x
  | None => Raise IndexError
  end.

(** The concrete version chosen for the pattern [version] among the keys
    of [info["releases"]]. *)
Definition fuzzy_version (version : string) (keys : list string) : res string :=
  pv ← fuzzy_loop (Py.split "." version) keys [];
  last_item pv.

(** ** Choice of the source archive *)

Definition is_sdist (f : RFile) : bool := String.eqb (packagetype f) "sdist".

(** [next(i for i in files if i["packagetype"] == "sdist")] *)
Definition next_sdist (files : list RFile) : res RFile :=
  match find is_sdist files with
  | Some f => Ok f
  | None => Raise StopIteration
  end.

(** [d[key]] for the dictionary whose items are [d] *)
Fixpoint assoc {A} (key : string) (d : list (string * A)) : option A :=
  match d with
  | [] => None
  | (k, v) :: d' => if String.eqb k key then Some v else assoc key d'
  end.

(** The [try] that selects [version_info], then [version_info["url"]]:
    any failure of the selection becomes
    [Exception("No sdist package can be found.")]; a document without
    [releases] for the version, without [info.url] and without [urls]
    raises [KeyError] at [version_info["url"]]. *)
Definition select_src_uri (info : Info) (version : string) : res string :=
  match releases info ≫= assoc version with
  | Some files =>
      match next_sdist files with
      | Ok f => Ok (url f)
      | Raise _ => Raise (Exception "No sdist package can be found.")
      end
  | None =>
      match info_url info with
      | Some u => Ok u
      | None =>
          match urls info with
          | Some files =>
              match next_sdist files with
              | Ok f => Ok (url f)
              | Raise _ => Raise (Exception "No sdist package can be found.")
              end
          | None => Raise KeyError
          end
      end
  end.

(** The document after the choice of the archive.  For a version that
    [releases] does not list and a document without [info.url], the
    code writes the URL of the archive chosen among [urls] into
    [info["info"]["url"]] (the assignment [version_info["url"] =
    url["url"]]); what runs after the choice reads the document so
    changed. *)
Definition with_src_uri (info : Info) (version src_uri : string) : Info :=
  match releases info ≫= assoc version, info_url info with
  | None, None =>
      mkInfo (info_version info) (info_summary info) (info_home_page info)
             (info_author info) (info_author_email info) (info_license info)
             (info_classifiers info) (info_requires_dist info) (Some src_uri)
             (releases info) (urls info)
  | _, _ => info
  end.

(** ** The resolution engine *)

Module Fmt.

Fixpoint repeat (n : nat) (s : string) : string :=
  match n with
  | O => ""
  | S n' => s +:+ repeat n' s
  end.

(** [n * s] for an [int] [n]: empty when [n <= 0] *)
Definition times (n : Z) (s : string) : string := repeat (Z.to_nat n) s.

(** [s.replace(a, b)] for a one-character [a] *)
Fixpoint replace_char (a : ascii) (b : string) (s : string) : string :=
  match s with
  | EmptyString => EmptyString
  | String c s' =>
      if Ascii.eqb c a then b +:+ replace_char a b s'
      else String c (replace_char a b s')
  end.

Definition newline : ascii := "010"%char.

(** ["https://pypi.org/pypi/{}/json".format(package_name)] *)
Definition url_package (package_name : string) : string :=
  "https://pypi.org/pypi/" +:+ package_name +:+ "/json".

(** ["https://pypi.org/pypi/{}/{}/json".format(package_name, version)] *)
Definition url_version (package_name version : string) : string :=
  "https://pypi.org/pypi/" +:+ package_name +:+ "/" +:+ version +:+ "/json".

(** [indent_str] *)
Definition indent_str (indent : Z) : string :=
  if (indent =? 0)%Z then "" else "|" +:+ times (indent - 2) "-" +:+ " ".

(** [extra_str] *)
Definition extra_str (extra : option string) : string :=
  if Py.truthy extra then "[" +:+ default "" extra +:+ "]" else "".

(** ["=={}".format(version) if version else ""] *)
Definition version_str (version : option string) : string :=
  if Py.truthy version then "==" +:+ default "" version else "".

End Fmt.

(** The argument [packages] of [get_package_info]: [None], or the
    one-element list whose element is the list object of the run, which
    the state holds in [packages0]. *)
Inductive packages_arg : Type :=
| PackagesNone
| PackagesShared.

Definition set_packages0 (l : list Package.t) : M unit :=
  fun st =>
    (Return tt,
     mkState (LICENSES st) (PROCESSED_PACKAGES st) l (stdin st) (stdout st)).

(** [packages[0].append(package)] then [PROCESSED_PACKAGES.append(package)] *)
Definition append_package (package : Package.t) : M unit :=
  fun st =>
    (Return tt,
     mkState (LICENSES st) (PROCESSED_PACKAGES st ++ [package])
             (packages0 st ++ [package]) (stdin st) (stdout st)).

(** The loop of [check_package_already_processed] over [all_packages]. *)
Fixpoint check_loop (package_name : string) (version : option string)
    (all_packages : list Package.t) : M bool :=
  match all_packages with
  | [] => mret false
  | package :: rest =>
      if String.eqb package_name (Package.name package) then
        result ← lift (compare_versions version (Package.version package));
        if negb (result =? 1)%Z then mret true
        else
          _ ← print (LWarning package_name version (Package.version package));
          check_loop package_name version rest
      else check_loop package_name version rest
  end.

Definition check_package_already_processed (package_name : string)
    (version : option string) (processed_packages packages0 : list Package.t)
  : M bool :=
  check_loop package_name version (processed_packages ++ packages0).

(** [package.split('[')[0]] *)
Definition package_name_of (package : string) : string :=
  hd "" (Py.split "[" package).

Section Engine.

Context (W : World) (follow_extras : bool) (default_license : option string).

(** [get_package_dependencies(requires_dist, follow_extras)] *)
Fixpoint get_package_dependencies (requires_dist : list string)
  : res (list Dependency.t) :=
  match requires_dist with
  | [] => Ok []
  | dep :: rest =>
      d ← parse_requires_dist W dep;
      deps ← get_package_dependencies rest;
      Ok (if Py.truthy (Dependency.extra d) && negb follow_extras
          then deps else d :: deps)
  end.

(** The [if version:] block that opens the [try]: the version to ask
    the registry for.  A version holding a ["*"] is a pattern, resolved
    against the keys of [releases] of the package document. *)
Definition concrete_version (package_name : string) (version : option string)
  : M (option string) :=
  match version with
  | Some v =>
      if Py.truthy version && Py.contains "*" v then  (* re.search('\*', version) *)
        info ← lift (urlopen_json W (Fmt.url_package package_name));
        _ ← print (LFuzzy (Py.split "." v));
        keys ← lift (match releases info with
                     | Some d => Ok (map fst d)
                     | None => Raise KeyError
                     end);
        chosen ← lift (fuzzy_version v keys);
        mret (Some chosen)
      else mret version
  | None => mret None
  end.

(** The body of the [try] up to the construction of the [Package]
    (lines 426 to 510 of the source).  The URL has the version when the
    version asked for is true, [version] falls back on [info.version]
    when the version to use is still false.  The requirements are
    fetched with the document as the choice of the archive left it. *)
Definition gather (package_name : string) (version : option string)
  : M Package.t :=
  asked ← concrete_version package_name version;
  let url :=
    if Py.truthy version
    then Fmt.url_version package_name (default "" asked)
    else Fmt.url_package package_name in
  info ← lift (urlopen_json W url);
  let name := package_name in
  let version := if Py.truthy asked then default "" asked
                 else info_version info in
  let summary := Fmt.replace_char Fmt.newline (" \" +:+ String Fmt.newline "")
                                  (info_summary info) in
  license ← translate_license (info_license info) (info_classifiers info)
                              default_license;
  src_uri ← lift (select_src_uri info version);
  fi ← lift (get_package_file_info W package_name version src_uri);
  requires_dist ← match info_requires_dist info with
                  | None =>
                      lift (fetch_requirements_from_remote_package W
                              (with_src_uri info version src_uri) version)
                  | Some l => mret l
                  end;
  dependencies ← lift (get_package_dependencies requires_dist);
  mret (Package.mk name (Some version) summary (info_home_page info)
          (info_author info) (info_author_email info) license
          (fi_license_file fi) (fi_license_md5 fi) (fi_src_dir fi) src_uri
          (fi_src_md5 fi) (fi_src_sha256 fi) dependencies (fi_build_deps fi)).

(** [get_package_info].  [fuel] bounds the depth of the recursion.  The
    source has one [try]; its handler prints the variable [package],
    which is the argument until the [Package] is built and the
    [Package] afterwards, hence the two handlers below.  What is
    returned is the list object [packages[0]]. *)
Fixpoint get_package_info (fuel : nat) (package : string)
    (version : option string) (packages : packages_arg) (indent : Z)
    (extra : option string) : M (list Package.t) :=
  match fuel with
  | O => fun st => (OutOfFuel, st)
  | S fuel' =>
      let package_name := package_name_of package in
      skip ← match packages with
             | PackagesNone => _ ← set_packages0 []; mret false
             | PackagesShared =>
                 st ← get;
                 check_package_already_processed package_name version
                   (PROCESSED_PACKAGES st) (packages0 st)
             end;
      if (skip : bool) then st ← get; mret (packages0 st)
      else
        let indent_str := Fmt.indent_str indent in
        _ ← print (LProgress indent_str package (Fmt.extra_str extra)
                             (Fmt.version_str version));
        _ ← try_except
              (p ← gather package_name version;
               try_except
                 (_ ← append_package p;
                  for_each
                    (fun dependency =>
                       get_package_info fuel' (Dependency.name dependency)
                         (Dependency.version dependency) PackagesShared
                         (indent + 2) (Dependency.extra dependency))
                    (Package.dependencies p))
                 (fun e => print (LError indent_str (inr p) e)))
              (fun e => print (LError indent_str (inl package) e));
        st ← get; mret (packages0 st)
  end.

End Engine.

(** ** [parse_existing_packages] *)

(** [s.split("==")] *)
Fixpoint split_eqeq (s : string) : list string :=
  match s with
  | EmptyString => [EmptyString]
  | String "=" (String "=" rest) => EmptyString :: split_eqeq rest
  | String c s' =>
      match split_eqeq s' with
      | [] => [String c EmptyString]
      | p :: ps => String c p :: ps
      end
  end.

(** The ASCII characters that [str.isspace] holds for, which are those
    that [s.strip()] removes: the space, the tab, the line feed, the
    vertical tab, the form feed, the carriage return and the four
    separators [\x1c] to [\x1f]. *)
Definition is_space (c : ascii) : bool :=
  Ascii.eqb c " " || Ascii.eqb c "009" || Ascii.eqb c "010"
  || Ascii.eqb c "011" || Ascii.eqb c "012" || Ascii.eqb c "013"
  || Ascii.eqb c "028" || Ascii.eqb c "029" || Ascii.eqb c "030"
  || Ascii.eqb c "031".

Fixpoint lstrip_set (P : ascii → bool) (s : string) : string :=
  match s with
  | EmptyString => EmptyString
  | String d s' => if P d then lstrip_set P s' else s
  end.

Fixpoint rstrip_set (P : ascii → bool) (s : string) : string :=
  match s with
  | EmptyString => EmptyString
  | String d s' =>
      match rstrip_set P s' with
      | EmptyString => if P d then EmptyString else String d EmptyString
      | r => String d r
      end
  end.

(** [s.strip()] *)
Definition strip_space (s : string) : string :=
  rstrip_set is_space (lstrip_set is_space s).

(** The [Package] built for one line of the file: only the name and the
    version are filled in, the other fields hold [''] (the two list
    fields are empty here). *)
Definition existing_package (line : string) : Package.t :=
  let line := strip_space line in
  let parts := split_eqeq line in
  let nope := "" in
  Package.mk
    (if (1 <? length parts)%nat then hd "" parts else line)
    (if (1 <? length parts)%nat then parts !! 1%nat else None)
    nope nope nope nope nope nope nope nope nope nope nope [] [].

(** The loop of [parse_existing_packages] over the lines of the file. *)
Definition parse_existing_packages (lines : list string) : M unit :=
  for_each
    (fun line st =>
       (Return tt,
        mkState (LICENSES st) (PROCESSED_PACKAGES st ++ [existing_package line])
                (packages0 st) (stdin st) (stdout st)))
    lines.

(** ** The comparator in the words of the specification *)

#[global] Instance part_eq_dec : EqDecision part.
Proof. solve_decision. Defined.

(** A separator of version parts: a dot or a hyphen. *)
Definition is_sep (c : ascii) : bool := Ascii.eqb c "." || Ascii.eqb c "-".

(** The dot- or hyphen-delimited parts of a version. *)
Fixpoint split_parts (s : string) : list string :=
  match s with
  | EmptyString => [EmptyString]
  | String c s' =>
      if is_sep c then EmptyString :: split_parts s'
      else match split_parts s' with
           | [] => [String c EmptyString]
           | p :: ps => String c p :: ps
           end
  end.

Definition sign (c : comparison) : Z :=
  match c with
  | Lt => -1
  | Eq => 0
  | Gt => 1
  end.

(** The order of two parts: by value for two integers, by the order of
    strings for two tokens, an error for an integer against a token. *)
Definition order_pair (x y : part) : res Z :=
  match x, y with
  | PInt a, PInt b => Ok (sign (a ?= b)%Z)
  | PStr s, PStr t => Ok (sign (String.compare s t))
  | _, _ => Raise TypeError
  end.

(** Pairwise comparison over the overlapping prefix, stopping at the first
    pair that differs. *)
Fixpoint overlap_compare (p q : list part) : res Z :=
  match p, q with
  | x :: p', y :: q' =>
      if decide (x = y) then overlap_compare p' q' else order_pair x y
  | _, _ => Ok 0
  end.

(** The opposite of a result: [-r] for a returned [r]. *)
Definition res_opp (r : res Z) : res Z :=
  match r with
  | Ok z => Ok (- z)
  | Raise e => Raise e
  end.

(** ** The license normalizer: auxiliary notions *)

(** The key under which the declared license is looked up, when it is. *)
Definition declared_key (license : option string) : option string :=
  match license with
  | Some l =>
      if Py.truthy license then Some (Py.strip Py.dquote (Py.strip Py.squote l))
      else None
  | None => None
  end.

(** The declared license is not looked up, or is not in the table. *)
Definition declared_miss (T : gmap (option string) string)
    (license : option string) : Prop :=
  ∀ k, declared_key license = Some k → T !! Some k = None.

(** Surrounding quotes and whitespace removed, as the specification words
    the lookup of the declared license. *)
Definition is_quote_or_space (c : ascii) : bool :=
  Ascii.eqb c Py.squote || Ascii.eqb c Py.dquote || Ascii.eqb c " "
  || Ascii.eqb c "009" || Ascii.eqb c "010" || Ascii.eqb c "011"
  || Ascii.eqb c "012" || Ascii.eqb c "013".

Definition strip_quotes_and_whitespace (s : string) : string :=
  rstrip_set is_quote_or_space (lstrip_set is_quote_or_space s).

(** The state of a run that starts from the built-in table, with nothing
    processed, and [answers] on standard input. *)
Definition initial_state (answers : list string) : state :=
  mkState LICENSES_builtin [] [] answers [].

(** The normalizer run on the empty declared license, without
    classifiers and without default, from the built-in table, the
    operator answering ["MIT"] and then ["CLOSED"]. *)
Definition asked_once : outcome string * state :=
  translate_license (Some "") [] None (initial_state ["MIT"; "CLOSED"]).

(** The same call again, from the state the first one left. *)
Definition asked_twice : outcome string * state :=
  translate_license (Some "") [] None (snd asked_once).

(** ** Wildcard versions: auxiliary notions *)

(** The segments of a pattern that come before its first ["*"]. *)
Fixpoint literal_prefix (v : list string) : list string :=
  match v with
  | [] => []
  | seg :: v' => if String.eqb seg "*" then [] else seg :: literal_prefix v'
  end.

(** The segments [tv] begin with the segments [pre], position by position. *)
Definition agrees (pre tv : list string) : bool :=
  bool_decide (take (length pre) tv = pre).

(** The keys whose segments begin with [pre], in the order of [keys]. *)
Definition matching_keys (pre : list string) (keys : list string) : list string :=
  List.filter (fun i => agrees pre (Py.split "." i)) keys.

(** Every segment of the pattern that is not a wildcard equals the segment
    of the candidate at the same position, as the specification words the
    filter. *)
Fixpoint positional_match (v tv : list string) : bool :=
  match v, tv with
  | [], _ => true
  | seg :: v', t :: tv' =>
      (String.eqb seg "*" || String.eqb seg t) && positional_match v' tv'
  | _ :: _, [] => false
  end.

(** ** The engine: auxiliary notions *)

(** The state with [ls] printed after what was printed. *)
Definition printed (ls : list line) (st : state) : state :=
  mkState (LICENSES st) (PROCESSED_PACKAGES st) (packages0 st) (stdin st)
          (stdout st ++ ls).

(** The entries of [l] that bear the name [package_name]. *)
Definition same_name (package_name : string) (l : list Package.t)
  : list Package.t :=
  List.filter (fun q => String.eqb package_name (Package.name q)) l.

(** The version-conflict warnings for the entries of [l]. *)
Definition conflict_warnings (package_name : string) (version : option string)
    (l : list Package.t) : list line :=
  map (fun q => LWarning package_name version (Package.version q))
      (same_name package_name l).

(** The walk of [get_package_info] over the dependencies of a package:
    the [for] loop that ends its [try]. *)
Definition walk (W : World) (follow_extras : bool)
    (default_license : option string) (fuel : nat) (indent : Z)
    (dependencies : list Dependency.t) : M unit :=
  for_each
    (fun dependency =>
       get_package_info W follow_extras default_license fuel
         (Dependency.name dependency) (Dependency.version dependency)
         PackagesShared (indent + 2) (Dependency.extra dependency))
    dependencies.

(** What [get_package_info] does once the request is not skipped: the
    progress line, the [try] and the final [return packages[0]]. *)
Definition request_body (W : World) (follow_extras : bool)
    (default_license : option string) (fuel : nat) (package : string)
    (version : option string) (indent : Z) (extra : option string)
  : M (list Package.t) :=
  _ ← print (LProgress (Fmt.indent_str indent) package (Fmt.extra_str extra)
                       (Fmt.version_str version));
  _ ← try_except
        (p ← gather W follow_extras default_license (package_name_of package)
                    version;
         try_except
           (_ ← append_package p;
            walk W follow_extras default_license fuel indent
                 (Package.dependencies p))
           (fun e => print (LError (Fmt.indent_str indent) (inr p) e)))
        (fun e => print (LError (Fmt.indent_str indent) (inl package) e));
  st ← get; mret (packages0 st).

(** The state in which [packages[0]] is a new empty list. *)
Definition fresh_list (st : state) : state :=
  mkState (LICENSES st) (PROCESSED_PACKAGES st) [] (stdin st) (stdout st).

(** The state after [package] was appended to both lists. *)
Definition appended (package : Package.t) (st : state) : state :=
  mkState (LICENSES st) (PROCESSED_PACKAGES st ++ [package])
          (packages0 st ++ [package]) (stdin st) (stdout st).


(** The progress line of a request. *)
Definition progress_line (package : string) (version : option string)
    (indent : Z) (extra : option string) : line :=
  LProgress (Fmt.indent_str indent) package (Fmt.extra_str extra)
            (Fmt.version_str version).

(** The request tree below a request has depth at most [n]: whatever
    package the request gathers, each of its dependencies has a tree of
    depth below [n]. *)
Inductive depth_bounded (W : World) (follow_extras : bool)
    (default_license : option string)
  : nat → string → option string → Prop :=
| depth_bounded_step (n : nat) (package_name : string) (version : option string) :
    (∀ st p st' d,
        gather W follow_extras default_license package_name version st
        = (Return p, st') →
        d ∈ Package.dependencies p →
        depth_bounded W follow_extras default_license n
          (package_name_of (Dependency.name d)) (Dependency.version d)) →
    depth_bounded W follow_extras default_license (S n) package_name version.

(** A computation keeps the relation [R] between the state it starts from
    and the state it ends in, whatever its outcome. *)
Definition preserves {A} (R : state → state → Prop) (m : M A) : Prop :=
  ∀ st r st', m st = (r, st') → R st st'.

(** A computation never runs out of fuel. *)
Definition fuel_free {A} (m : M A) : Prop :=
  ∀ st st', m st ≠ (OutOfFuel, st').

(** A computation never raises. *)
Definition throw_free {A} (m : M A) : Prop :=
  ∀ st e st', m st ≠ (Throw e, st').

(** The two lists of packages are the same in both states. *)
Definition same_lists (st st' : state) : Prop :=
  PROCESSED_PACKAGES st' = PROCESSED_PACKAGES st ∧ packages0 st' = packages0 st.

(** Both lists of packages have grown by the same packages. *)
Definition extended_by (new : list Package.t) (st st' : state) : Prop :=
  PROCESSED_PACKAGES st' = PROCESSED_PACKAGES st ++ new
  ∧ packages0 st' = packages0 st ++ new.

Definition extended (st st' : state) : Prop := ∃ new, extended_by new st st'.

(** The key [k] of the license table keeps the value [m]. *)
Definition kept (k : option string) (m : string) (st st' : state) : Prop :=
  LICENSES st !! k = Some m → LICENSES st' !! k = Some m.

(** A relation between states that printing and the license normalizer
    keep; then the gathering of a package and the skip check keep it. *)
Class Frame (R : state → state → Prop) : Prop := {
  frame_preorder :: PreOrder R;
  frame_print : ∀ l, preserves R (print l);
  frame_translate_license :
    ∀ license classifiers default_license,
      preserves R (translate_license license classifiers default_license);
}.

(** A frame that appending a package keeps; then requests that are not
    roots keep it. *)
Class Growth (R : state → state → Prop) : Prop := {
  growth_frame :: Frame R;
  growth_append : ∀ p, preserves R (append_package p);
}.

(** ** A small registry *)

Module Demo.

Definition sdist (u : string) : RFile := mkRFile u "sdist" 1000.
Definition wheel (u : string) : RFile := mkRFile u "bdist_wheel" 800.

Definition app : Info :=
  mkInfo "1.0" "An application" "https://app.example" "Ann" "ann@app.example"
    (Some "MIT") [] (Some ["lib==1.0"; "broken"; "lib==2.0"; "util"]) None
    (Some [("1.0", [wheel "https://files.example/app-1.0-py3-none-any.whl";
                    sdist "https://files.example/app-1.0.tar.gz"])])
    None.

Definition lib_index : Info :=
  mkInfo "2.0" "A library" "https://lib.example" "Bob" "bob@lib.example"
    (Some "BSD") [] (Some []) None
    (Some [("1.0", [sdist "https://files.example/lib-1.0.tar.gz"]);
           ("2.0", [sdist "https://files.example/lib-2.0.tar.gz"]);
           ("1.1", [sdist "https://files.example/lib-1.1.tar.gz"])])
    None.

Definition lib_1_0 : Info :=
  mkInfo "1.0" "A library" "https://lib.example" "Bob" "bob@lib.example"
    (Some "BSD") [] (Some []) None
    (Some [("1.0", [sdist "https://files.example/lib-1.0.tar.gz"])]) None.

Definition lib_2_0 : Info :=
  mkInfo "2.0" "A library" "https://lib.example" "Bob" "bob@lib.example"
    (Some "BSD") [] (Some ["util"]) None
    (Some [("2.0", [sdist "https://files.example/lib-2.0.tar.gz"])]) None.

Definition util : Info :=
  mkInfo "0.3" "Utilities" "https://util.example" "Cy" "cy@util.example"
    None ["Topic :: Utilities"; "License :: OSI Approved :: MIT License"]
    None (Some "https://files.example/util-0.3.tar.gz") None None.

Definition documents : list (string * Info) :=
  [("https://pypi.org/pypi/app/json", app);
   ("https://pypi.org/pypi/lib/json", lib_index);
   ("https://pypi.org/pypi/lib/1.0/json", lib_1_0);
   ("https://pypi.org/pypi/lib/2.0/json", lib_2_0);
   ("https://pypi.org/pypi/util/json", util)].

Definition specifiers : list (string * Dependency.t) :=
  [("lib==1.0", Dependency.mk "lib" (Some "1.0") None);
   ("lib==2.0", Dependency.mk "lib" (Some "2.0") None);
   ("broken", Dependency.mk "broken" None None);
   ("util", Dependency.mk "util" None None);
   ("pytest ; extra == 'dev'", Dependency.mk "pytest" None (Some "dev"))].

(** A registry with the five documents above (any other URL is not
    found), archives that all unpack, and a specifier parser that knows
    the five specifiers above. *)
Definition world : World :=
  mkWorld
    (fun u => match assoc u documents with
              | Some i => Ok i
              | None => Raise (URLError "HTTP Error 404: Not Found")
              end)
    (fun package version uri =>
       Ok (mkFileInfo "d41d8cd9" "e3b0c442" (package +:+ "-" +:+ version)
                      "LICENSE" "0cc175b9" []))
    (fun info version => Ok ["lib==1.0"; "pytest ; extra == 'dev'"])
    (fun s => match assoc s specifiers with
              | Some d => Ok d
              | None => Raise (Exception "parse error")
              end).

(** The state after [parse_existing_packages] has read [lines], from the
    built-in table. *)
Definition seeded (lines : list string) : state :=
  snd (parse_existing_packages lines (initial_state [])).

(** The run [get_package_info("app")] from the built-in table. *)
Definition run_app : outcome (list Package.t) * state :=
  get_package_info world false None 5 "app" None PackagesNone 0 None
    (initial_state []).

End Demo.

(** * Recipe names, archives and build dependencies *)

(** ** Further string primitives of Python *)

Module Str.

(** [c.lower()] on ASCII: ['A'..'Z'] to ['a'..'z'] *)
Definition lower_char (c : ascii) : ascii :=
  let n := N_of_ascii c in
  if (65 <=? n)%N && (n <=? 90)%N then ascii_of_N (n + 32) else c.

(** [s.lower()] *)
Fixpoint lower (s : string) : string :=
  match s with
  | EmptyString => EmptyString
  | String c s' => String (lower_char c) (lower s')
  end.

(** [s[n:]] *)
Fixpoint drop (n : nat) (s : string) : string :=
  match n, s with
  | O, _ => s
  | S n', String _ s' => drop n' s'
  | S _, EmptyString => EmptyString
  end.

(** [s.endswith(suffix)] *)
Definition endswith (suffix s : string) : bool :=
  (String.length suffix <=? String.length s)%nat
  && String.eqb (drop (String.length s - String.length suffix) s) suffix.

(** [c in s] for a character [c], as a proposition *)
Fixpoint has (c : ascii) (s : string) : Prop :=
  match s with
  | EmptyString => False
  | String d s' => d = c ∨ has c s'
  end.

End Str.

(** ** [package_to_bb_name] *)

Definition package_to_bb_name (package : string) : string :=
  Py.replace "." "-" (Py.replace "_" "-" (Str.lower package)).

(** ** [get_file_extension] *)

(** The list [extensions] of [get_file_extension]. *)
Definition extensions : list string := ["tar"; "tar.gz"; "tar.bz2"; "tar.xz"; "zip"].

(** The loop [for extension in extensions] and the [raise] after it. *)
Fixpoint first_extension (exts : list string) (uri : string) : res string :=
  match exts with
  | [] => Raise (Exception ("Extension not supported: " +:+ uri))
  | extension :: rest =>
      if Str.endswith extension uri then Ok extension
      else first_extension rest uri
  end.

Definition get_file_extension (uri : string) : res string :=
  first_extension extensions uri.

(** ** [pkg_size] *)

(** The loop of [pkg_size] over its list of tar extensions: whether one
    of them ends the URL. *)
Fixpoint ends_with_one_of (exts : list string) (u : string) : bool :=
  match exts with
  | [] => false
  | extension :: rest => Str.endswith extension u || ends_with_one_of rest u
  end.

Definition pkg_size (pkg : RFile) : Z :=
  if ends_with_one_of ["tar"; "tar.gz"; "tar.bz2"; "tar.xz"] (url pkg)
  then size pkg
  else if Str.endswith "zip" (url pkg) then size pkg * 10
  else size pkg * 10000.

(** ** [package_to_bb_build_depends] *)

(** [package_name.split('<')[0].split('>')[0].split('~')[0].split('=')[0].strip()] *)
Definition requirement_name (package_name : string) : string :=
  strip_space
    (hd "" (Py.split "="
       (hd "" (Py.split "~"
          (hd "" (Py.split ">"
             (hd "" (Py.split "<" package_name)))))))).

Definition package_to_bb_build_depends (package_name : string) : string :=
  "${PYTHON_PN}-" +:+ package_to_bb_name (requirement_name package_name)
  +:+ "-native".

(** A character that opens a version specifier for
    [package_to_bb_build_depends]. *)
Definition is_specifier (c : ascii) : bool :=
  Ascii.eqb c "<" || Ascii.eqb c ">" || Ascii.eqb c "~" || Ascii.eqb c "=".

(** No character of [s] satisfies [P]. *)
Fixpoint none_of (P : ascii → bool) (s : string) : bool :=
  match s with
  | EmptyString => true
  | String c s' => negb (P c) && none_of P s'
  end.

(** What [package_to_bb_name] makes of one character. *)
Definition bb_char (c : ascii) : ascii :=
  let l := Str.lower_char c in
  let u := if Ascii.eqb l "_" then "-"%char else l in
  if Ascii.eqb u "." then "-"%char else u.

(** The characters of [s] that come before the first one satisfying [P]. *)
Fixpoint before (P : ascii → bool) (s : string) : string :=
  match s with
  | EmptyString => EmptyString
  | String c s' => if P c then EmptyString else String c (before P s')
  end.

(** * Dependencies *)

(** ** [decide_version] *)

(** [decide_version(spec)], on [spec[2]]: the list of the pairs (relation,
    version) of the specifier, empty when the specifier has none. *)
Definition decide_version (versions : list (string * string)) : option string :=
  match versions with
  | (relation, version) :: _ =>
      if String.eqb relation "==" then Some version
      else if String.eqb relation ">=" then None
      else if String.eqb relation "<=" then Some version
      else None
  | [] => None
  end.

(** ** Auxiliary notions *)

(** Every specifier parsed, in order; the exception of the first one
    that does not parse. *)
Fixpoint parse_all (W : World) (requires_dist : list string)
  : res (list Dependency.t) :=
  match requires_dist with
  | [] => Ok []
  | dep :: rest =>
      d ← parse_requires_dist W dep;
      ds ← parse_all W rest;
      Ok (d :: ds)
  end.

(** The dependency is kept by [get_package_dependencies]: it has no
    extra, or extras are followed. *)
Definition followed (follow_extras : bool) (d : Dependency.t) : bool :=
  negb (Py.truthy (Dependency.extra d) && negb follow_extras).

(** * Runs *)

(** The package [p] is what some gathering returns. *)
Definition gathered (W : World) (follow_extras : bool)
    (default_license : option string) (p : Package.t) : Prop :=
  ∃ package_name version st st',
    gather W follow_extras default_license package_name version st
    = (Return p, st').

(** Both lists of packages have grown by the same packages, which all
    satisfy [P]. *)
Definition extended_with (P : Package.t → Prop) (st st' : state) : Prop :=
  ∃ new, extended_by new st st' ∧ Forall P new.

(** Standard input and the license table are the same in both states. *)
Definition untouched (st st' : state) : Prop :=
  stdin st' = stdin st ∧ LICENSES st' = LICENSES st.

(** A line that the license normalizer prints when it has to ask. *)
Definition asks (l : line) : bool :=
  match l with
  | LLicenseFailed _ | LPrompt => true
  | _ => false
  end.

(** Standard input and the license table are the same in both states,
    and what was printed in between holds no request to the operator. *)
Definition unattended (st st' : state) : Prop :=
  untouched st st'
  ∧ ∃ out, stdout st' = stdout st ++ out ∧ forallb (fun l => negb (asks l)) out = true.

(** * The archive fetched for its requirements *)

(** [sorted(l, key=key)]: the sort is stable, so the result is that of
    inserting each element, from the last to the first, before the first
    element of the sorted rest whose key is not smaller. *)
Fixpoint insert_by {A} (key : A → Z) (x : A) (l : list A) : list A :=
  match l with
  | [] => [x]
  | y :: l' => if (key x <=? key y)%Z then x :: y :: l' else y :: insert_by key x l'
  end.

Fixpoint sorted_by {A} (key : A → Z) (l : list A) : list A :=
  match l with
  | [] => []
  | x :: l' => insert_by key x (sorted_by key l')
  end.

(** The parsers of [pkginfo]. *)
Inductive pkginfo_parser : Type :=
| SDist
| Wheel
| BDist.

(** What [fetch_requirements_from_remote_package] settles before the
    download: the URL, the file name and the parser; or the exception
    raised by a lookup; or the [RuntimeError] for a file name that no
    parser takes. *)
Inductive remote_choice : Type :=
| Remote (pkg_url filename : string) (parse : pkginfo_parser)
| RemoteRaises (e : exn)
| RemoteUnsupported (filename : string).

(** [pkg_url.split("/")[-1]] *)
Definition url_filename (pkg_url : string) : string :=
  default "" (last (Py.split "/" pkg_url)).

(** The chain of [endswith] tests on the file name. *)
Definition parser_for (filename : string) : option pkginfo_parser :=
  if Str.endswith ".tar.gz" filename || Str.endswith ".zip" filename
     || Str.endswith ".tar.xz" filename || Str.endswith ".tar.bz2" filename
     || Str.endswith ".tar" filename
  then Some SDist
  else if Str.endswith ".whl" filename then Some Wheel
  else if Str.endswith ".egg" filename then Some BDist
  else None.

(** The part of [fetch_requirements_from_remote_package] that comes
    before the download. *)
Definition remote_package (info : Info) (version : string) : remote_choice :=
  match releases info with
  | Some d =>
      match assoc version d with
      | None => RemoteRaises KeyError
      | Some pkg_versions =>
          match sorted_by pkg_size pkg_versions with
          | [] => RemoteRaises IndexError
          | smallest :: _ =>
              let pkg_url := url smallest in
              let filename := url_filename pkg_url in
              match parser_for filename with
              | Some parse => Remote pkg_url filename parse
              | None => RemoteUnsupported filename
              end
          end
      end
  | None =>
      match info_url info with
      | None => RemoteRaises KeyError
      | Some pkg_url => Remote pkg_url (url_filename pkg_url) SDist
      end
  end.

(** * Recipe files and the list of existing packages *)

(** [s.split(sep)] for a separator of one or more characters: the
    occurrences are taken from the left and do not overlap; [skip]
    counts the characters of an occurrence that are still to be passed. *)
Fixpoint split_skip (sep : string) (skip : nat) (s : string) : list string :=
  match s with
  | EmptyString => [EmptyString]
  | String c s' =>
      match skip with
      | S k => split_skip sep k s'
      | O =>
          if String.prefix sep s
          then EmptyString :: split_skip sep (String.length sep - 1) s'
          else match split_skip sep 0 s' with
               | [] => [String c EmptyString]
               | p :: ps => String c p :: ps
               end
      end
  end.

Definition split_on (sep s : string) : list string := split_skip sep 0 s.

(** [sep in s] *)
Fixpoint occurs (sep s : string) : bool :=
  match s with
  | EmptyString => String.prefix sep EmptyString
  | String _ s' => String.prefix sep s || occurs sep s'
  end.

(** [str(version)], as [format] prints it *)
Definition str_of (version : option string) : string := default "None" version.

(** The [basename] of [generate_recipe]. *)
Definition recipe_basename (python : string) (package : Package.t) : string :=
  python +:+ "-" +:+ package_to_bb_name (Package.name package) +:+ "_"
  +:+ str_of (Package.version package) +:+ ".bb".

(** What [generate_oe_pypi_recipes] does with one file name: it writes a
    line, reports the file, or passes over it. *)
Inductive scanned : Type :=
| Listed (line : string)
| CouldNotParse
| NotARecipe.

(** The body of the loop of [generate_oe_pypi_recipes] over the files. *)
Definition scan_file (python_arg file : string) : res scanned :=
  let pkg_start := python_arg +:+ "-" in
  if Py.startswith pkg_start file && Str.endswith ".bb" file then
    if Py.contains "-" file && Py.contains "_" file then
      match split_on pkg_start (hd "" (Py.split "_" file)) !! 1%nat with
      | None => Raise IndexError
      | Some name =>
          match Py.split "_" file !! 1%nat with
          | None => Raise IndexError
          | Some rest =>
              let version := hd "" (split_on ".bb" rest) in
              if (1 <? length (Py.split "." version))%nat
              then Ok (Listed (name +:+ "==" +:+ version +:+ String Fmt.newline ""))
              else Ok CouldNotParse
          end
      end
    else Ok CouldNotParse
  else Ok NotARecipe.

(** A package whose name is not a recipe name. *)
Definition flask_login : Package.t :=
  Package.mk "Flask_Login" (Some "0.6.3") "" "" "" "" "" "" "" "" "" "" "" [] [].

(** * The recipes *)

(** [[dep for dep in package.dependencies if dep.extra]] *)
Definition extras_of (package : Package.t) : list Dependency.t :=
  List.filter (fun dep => Py.truthy (Dependency.extra dep))
              (Package.dependencies package).

(** The package that [generate_recipes] builds for the extra of [extra]:
    the two [_replace] calls. *)
Definition extra_package (package : Package.t) (extras : list Dependency.t)
    (extra : Dependency.t) : Package.t :=
  Package.mk
    (Package.name package +:+ "-" +:+ str_of (Dependency.extra extra))
    (Package.version package) (Package.summary package)
    (Package.homepage package) (Package.author package)
    (Package.author_email package) (Package.license package)
    (Package.license_file package) (Package.license_md5 package)
    (Package.src_dir package) (Package.src_uri package)
    (Package.src_md5 package) (Package.src_sha256 package)
    (Dependency.mk (Package.name package) (Package.version package) None
     :: map (fun e => Dependency.mk (Dependency.name e) (Dependency.version e) None)
            (List.filter
               (fun e => bool_decide (Dependency.extra e = Dependency.extra extra))
               extras))
    (Package.build_dependencies package).

(** The loop [for extra in extras] of [generate_recipes], from the list
    [processed]: the packages it hands to [generate_recipe]. *)
Fixpoint extras_loop (package : Package.t) (extras todo : list Dependency.t)
    (processed : list (option string)) : list Package.t :=
  match todo with
  | [] => []
  | extra :: rest =>
      if bool_decide (Dependency.extra extra ∈ processed)
      then extras_loop package extras rest processed
      else extra_package package extras extra
           :: extras_loop package extras rest (processed ++ [Dependency.extra extra])
  end.

(** The calls of [generate_recipe] that [generate_recipes] makes, in
    order: the package and [is_extra]. *)
Definition recipe_calls (packages : list Package.t) (follow_extras : bool)
  : list (Package.t * bool) :=
  flat_map
    (fun package =>
       (package, false)
       :: (if follow_extras
           then map (fun q => (q, true))
                    (extras_loop package (extras_of package) (extras_of package) [])
           else []))
    packages.

(** What [generate_recipe] writes, as far as the package decides it: the
    name of the file, the template chosen, the line for the extension of
    the archive, and the names whose join by a space is [dependencies]. *)
Record recipe : Type := mkRecipe {
  basename : string;
  is_extra : bool;
  pypi_package_ext : string;
  depends : list string;
}.

(** The names joined into [dependencies]. *)
Definition depends_names (python : string) (package : Package.t) : list string :=
  map (fun dep => python +:+ "-" +:+ package_to_bb_name (Dependency.name dep))
      (Package.dependencies package).

(** The argument [pypi_package_ext] of the template. *)
Definition package_ext (src_uri : string) : res string :=
  if negb (Str.endswith ".tar.gz" src_uri) then
    extension ← get_file_extension src_uri;
    Ok (String Fmt.newline "PYPI_PACKAGE_EXT = " +:+ String Py.dquote extension
        +:+ String Py.dquote "")
  else Ok "".

Definition generate_recipe (package : Package.t) (python : string)
    (is_extra : bool) : res recipe :=
  let basename := recipe_basename python package in
  if is_extra then Ok (mkRecipe basename true "" (depends_names python package))
  else
    ext ← package_ext (Package.src_uri package);
    Ok (mkRecipe basename false ext (depends_names python package)).

(** The recipes written by a sequence of calls, and the exception that
    ended it, if any. *)
Fixpoint write_all (python : string) (calls : list (Package.t * bool))
  : list recipe * option exn :=
  match calls with
  | [] => ([], None)
  | (package, is_extra) :: rest =>
      match generate_recipe package python is_extra with
      | Raise e => ([], Some e)
      | Ok r => (r :: fst (write_all python rest), snd (write_all python rest))
      end
  end.

Definition generate_recipes (packages : list Package.t) (python : string)
    (follow_extras : bool) : list recipe * option exn :=
  write_all python (recipe_calls packages follow_extras).

(** The recipe of an extra: [generate_recipe] with [is_extra]. *)
Definition extra_recipe (python : string) (q : Package.t) : recipe :=
  mkRecipe (recipe_basename python q) true "" (depends_names python q).

(** The files among which [get_package_info] looks for the source
    archive: those of the release when the document lists the version,
    else those of [urls] when the document has no [info.url]. *)
Definition candidate_files (info : Info) (version : string) (files : list RFile)
  : Prop :=
  releases info ≫= assoc version = Some files
  ∨ (releases info ≫= assoc version = None ∧ info_url info = None
     ∧ urls info = Some files).

(** * The requirements file *)

(** What [parse_requirements] does with one line of the file: a request
    to [get_package_info], a report, or nothing. *)
Inductive requirement : Type :=
| Requested (name : string) (version : option string)
| Unparsed (package : string)
| Skipping (package : string)
| Blank.

(** The body of the loop of [parse_requirements] over the lines. *)
Definition requirement_line (package : string) : requirement :=
  let package := strip_space package in
  if negb (String.eqb package "") then
    if negb (Py.startswith "-e" package || Py.startswith "." package) then
      match map strip_space (split_eqeq package) with
      | [name] => Requested name None
      | [name; version] => Requested name (Some version)
      | _ => Unparsed package
      end
    else Skipping package
  else Blank.

(** Every character of [s] is whitespace. *)
Definition all_space (s : string) : bool := none_of (fun c => negb (is_space c)) s.

(** * Properties *)

(** ** Version comparator *)

Example compare_versions_ex1 :
  compare_versions (Some "1.2.3") (Some "1.2.10") = Ok (-1).
Proof. reflexivity. Qed.

Example compare_versions_ex2 :
  compare_versions (Some "1.0rc1") (Some "1.0.0") = Raise TypeError.
Proof. reflexivity. Qed.

Example normalize_ex : normalize "1.0-rc1." = [PInt 1; PInt 0; PStr "rc1"; PStr ""].
Proof. reflexivity. Qed.


Lemma part_eq_true (x y : part) : part_eq x y = true ↔ x = y.
Proof.
  destruct x as [a|s], y as [b|t]; simpl; split; intros H;
    try discriminate; try congruence.
  - apply Z.eqb_eq in H. congruence.
  - inversion H. apply Z.eqb_refl.
  - apply String.eqb_eq in H. congruence.
  - inversion H. apply String.eqb_refl.
Qed.

Lemma split_replace (s : string) :
  Py.split "." (Py.replace "-" "." s) = split_parts s.
Proof.
  induction s as [|c s IH]; simpl; [reflexivity|].
  unfold is_sep. destruct (Ascii.eqb c "-") eqn:Hh; simpl.
  - rewrite IH, orb_true_r. reflexivity.
  - rewrite orb_false_r, IH. reflexivity.
Qed.

Lemma order_pair_code (x y : part) (k : res Z) :
  x ≠ y →
  (lt ← part_lt x y;
   if (lt : bool) then Ok (-1)
   else gt ← part_gt x y; if (gt : bool) then Ok 1 else k)
  = order_pair x y.
Proof.
  intros Hne. destruct x as [a|s], y as [b|t]; simpl; try reflexivity.
  - assert (a ≠ b) by congruence.
    destruct (Z.compare_spec a b) as [?|Hlt|Hgt]; [contradiction| |].
    + apply Z.ltb_lt in Hlt. rewrite Hlt. reflexivity.
    + assert ((a <? b)%Z = false) as -> by (apply Z.ltb_ge; lia).
      apply Z.ltb_lt in Hgt. rewrite Hgt. reflexivity.
  - assert (s ≠ t) by congruence.
    pose proof (String.compare_antisym t s) as Hanti.
    unfold String.ltb.
    destruct (String.compare s t) eqn:Hc; simpl in Hanti; rewrite ?Hanti; simpl.
    + apply String.compare_eq_iff in Hc. contradiction.
    + reflexivity.
    + reflexivity.
Qed.

Lemma compare_parts_overlap (p q : list part) :
  compare_parts (combine p q) = overlap_compare p q.
Proof.
  revert q. induction p as [|x p IH]; intros [|y q]; simpl; try reflexivity.
  destruct (part_eq x y) eqn:He.
  - apply part_eq_true in He. rewrite decide_True by exact He. apply IH.
  - assert (x ≠ y) as Hne.
    { intros E. apply part_eq_true in E. congruence. }
    rewrite decide_False by exact Hne. apply order_pair_code, Hne.
Qed.

Lemma order_pair_opp (x y : part) : order_pair x y = res_opp (order_pair y x).
Proof.
  destruct x as [a|s], y as [b|t]; simpl; try reflexivity.
  - rewrite (Z.compare_antisym b a). destruct (b ?= a)%Z; reflexivity.
  - rewrite (String.compare_antisym s t). destruct (String.compare t s); reflexivity.
Qed.

Lemma overlap_compare_opp (p q : list part) :
  overlap_compare p q = res_opp (overlap_compare q p).
Proof.
  revert q. induction p as [|x p IH]; intros [|y q]; simpl; try reflexivity.
  destruct (decide (x = y)) as [->|Hne].
  - rewrite decide_True by reflexivity. apply IH.
  - rewrite decide_False by congruence. apply order_pair_opp.
Qed.

Lemma overlap_compare_refl (p : list part) : overlap_compare p p = Ok 0.
Proof.
  induction p as [|x p IH]; simpl; [reflexivity|].
  rewrite decide_True by reflexivity. exact IH.
Qed.

Lemma truthy_Some (a : string) : a ≠ "" → Py.truthy (Some a) = true.
Proof. destruct a; [congruence|reflexivity]. Qed.

(** On a first operand that is not empty the source computes the
    comparison over the overlapping prefix of the normalized parts. *)
Lemma compare_versions_overlap (a b : string) :
  a ≠ "" →
  compare_versions (Some a) (Some b)
  = overlap_compare (map to_part (split_parts a)) (map to_part (split_parts b)).
Proof.
  intros Ha. unfold compare_versions. rewrite (truthy_Some a Ha). simpl.
  unfold normalize. rewrite !split_replace. apply compare_parts_overlap.
Qed.

Lemma overlap_compare_app_r (p e : list part) : overlap_compare p (p ++ e) = Ok 0.
Proof.
  induction p as [|x p IH]; simpl; [reflexivity|].
  rewrite decide_True by reflexivity. exact IH.
Qed.

Lemma overlap_compare_app_l (p e : list part) : overlap_compare (p ++ e) p = Ok 0.
Proof. rewrite overlap_compare_opp, overlap_compare_app_r. reflexivity. Qed.

Lemma compare_versions_opp (a b : string) :
  a ≠ "" → b ≠ "" →
  compare_versions (Some a) (Some b) = res_opp (compare_versions (Some b) (Some a)).
Proof.
  intros Ha Hb. rewrite !compare_versions_overlap by assumption.
  apply overlap_compare_opp.
Qed.

(** C3, as the specification states it, fails where the first operand is
    empty: [compare_versions("", "")] is [-1], which is not its own
    opposite. *)
Lemma antisymmetry_fails_on_empty_versions :
  compare_versions (Some "") (Some "")
  ≠ res_opp (compare_versions (Some "") (Some "")).
Proof. vm_compute. discriminate. Qed.

(** C3 (amended): for all version strings [a] and [b] that are not empty,
    when [compare_versions(a, b)] returns [r] then [compare_versions(b, a)]
    returns [-r]. *)
Theorem compare_versions_antisym (a b : string) (r : Z) :
  a ≠ "" → b ≠ "" →
  compare_versions (Some a) (Some b) = Ok r →
  compare_versions (Some b) (Some a) = Ok (- r).
Proof.
  intros Ha Hb H. rewrite (compare_versions_opp b a Hb Ha), H. reflexivity.
Qed.

Lemma compare_versions_antisym_witness :
  compare_versions (Some "1.10") (Some "1.2") = Ok (- -1).
Proof.
  apply (compare_versions_antisym "1.2" "1.10" (-1)).
  - discriminate.
  - discriminate.
  - reflexivity.
Defined.

(** What the comparator can do on two strings: return [-1], [0] or [1], or
    raise [TypeError] (on the first pair of parts that differ, when one is
    an integer and the other is not). *)
Lemma overlap_compare_outcomes (p q : list part) :
  overlap_compare p q = Ok (-1) ∨ overlap_compare p q = Ok 0
  ∨ overlap_compare p q = Ok 1 ∨ overlap_compare p q = Raise TypeError.
Proof.
  revert q. induction p as [|x p IH]; intros [|y q]; simpl; auto.
  destruct (decide (x = y)); [apply IH|].
  destruct x as [a|s], y as [b|t]; simpl; auto.
  - destruct (a ?= b)%Z; simpl; auto.
  - destruct (String.compare s t); simpl; auto.
Qed.

Lemma compare_versions_outcomes (a b : string) :
  compare_versions (Some a) (Some b) = Ok (-1)
  ∨ compare_versions (Some a) (Some b) = Ok 0
  ∨ compare_versions (Some a) (Some b) = Ok 1
  ∨ compare_versions (Some a) (Some b) = Raise TypeError.
Proof.
  destruct (decide (a = "")) as [->|Ha]; [left; reflexivity|].
  rewrite (compare_versions_overlap a b Ha). apply overlap_compare_outcomes.
Qed.

(** C4: the comparator is not total.  On the versions ["1.0rc1"] and
    ["1.0.0"] the second parts are the token ["0rc1"] and the integer [0];
    they are not equal and ordering them raises [TypeError], where the
    docstring promises [-1], [0] or [1]. *)
Theorem compare_versions_raises_on_mixed_parts :
  normalize "1.0rc1" = [PInt 1; PStr "0rc1"]
  ∧ normalize "1.0.0" = [PInt 1; PInt 0; PInt 0]
  ∧ compare_versions (Some "1.0rc1") (Some "1.0.0") = Raise TypeError.
Proof. repeat split; reflexivity. Qed.

(** C5: on a first operand that is not empty, [compare_versions] compares
    the dot- or hyphen-delimited parts, purely numeric parts as integers,
    pairwise over the overlapping prefix and up to the first pair that
    differs; extra trailing parts on either side are ignored;
    [compare(a, a)] is equal; the two examples of the specification hold;
    and an absent or empty first operand compares as less. *)
Theorem compare_versions_overlapping_prefix :
  (∀ a b : string, a ≠ "" →
     compare_versions (Some a) (Some b)
     = overlap_compare (map to_part (split_parts a))
                       (map to_part (split_parts b)))
  ∧ (∀ a b : string, a ≠ "" →
       normalize a `prefix_of` normalize b ∨ normalize b `prefix_of` normalize a →
       compare_versions (Some a) (Some b) = Ok 0)
  ∧ (∀ a : string, a ≠ "" → compare_versions (Some a) (Some a) = Ok 0)
  ∧ compare_versions (Some "1.2.3") (Some "1.2.10") = Ok (-1)
  ∧ compare_versions (Some "1.2") (Some "1.2.0") = Ok 0
  ∧ (∀ b : option string,
       compare_versions None b = Ok (-1) ∧ compare_versions (Some "") b = Ok (-1)).
Proof.
  split; [exact compare_versions_overlap|].
  split.
  { intros a b Ha H. rewrite (compare_versions_overlap a b Ha).
    unfold normalize in H. rewrite !split_replace in H.
    destruct H as [[e ->]|[e ->]].
    - apply overlap_compare_app_r.
    - apply overlap_compare_app_l. }
  split.
  { intros a Ha. rewrite (compare_versions_overlap a a Ha).
    apply overlap_compare_refl. }
  repeat split; reflexivity.
Qed.

Lemma compare_versions_overlapping_prefix_witness :
  compare_versions (Some "2.25.1") (Some "2.25.1") = Ok 0
  ∧ compare_versions (Some "1.2-rc1") (Some "1.2") = Ok 0.
Proof.
  split.
  - apply (proj1 (proj2 (proj2 compare_versions_overlapping_prefix))).
    discriminate.
  - apply (proj1 (proj2 compare_versions_overlapping_prefix)).
    + discriminate.
    + right. exists [PStr "rc1"]. reflexivity.
Defined.

(** ** License normalizer *)

Example LICENSES_builtin_MIT :
  LICENSES_builtin !! Some "MIT License" = Some "MIT".
Proof. vm_compute. reflexivity. Qed.

Lemma translate_license_hit (license : option string) (classifiers : list string)
    (default_license : option string) (st : state) (v : string) :
  table_lookup (LICENSES st) license classifiers = Ok v →
  translate_license license classifiers default_license st = (Return v, st).
Proof.
  intros H. unfold translate_license, try_except, mbind, M_bind, get, lift.
  rewrite H. reflexivity.
Qed.

Lemma translate_license_default (license : option string)
    (classifiers : list string) (d : string) (st : state) (e : exn) :
  table_lookup (LICENSES st) license classifiers = Raise e →
  d ≠ "" →
  translate_license license classifiers (Some d) st = (Return d, st).
Proof.
  intros H Hd. unfold translate_license, try_except, mbind, M_bind, get, lift.
  rewrite H. simpl. destruct d; [congruence|reflexivity].
Qed.

Lemma translate_license_prompts (license : option string)
    (classifiers : list string) (default_license : option string) (st : state)
    (e : exn) (m : string) (rest : list string) :
  table_lookup (LICENSES st) license classifiers = Raise e →
  Py.truthy default_license = false →
  stdin st = m :: rest →
  translate_license license classifiers default_license st
  = (Return m,
     mkState (<[license := m]> (LICENSES st)) (PROCESSED_PACKAGES st)
             (packages0 st) rest
             (stdout st ++ [LLicenseFailed license; LPrompt])).
Proof.
  intros H Hd Hin. unfold translate_license, try_except, mbind, M_bind, get, lift.
  rewrite H. simpl. rewrite Hd. unfold input, print, LICENSES_setitem. simpl.
  rewrite Hin. simpl. rewrite <- app_assoc. reflexivity.
Qed.

Lemma declared_lookup_hit (T : gmap (option string) string) (l v : string) :
  l ≠ "" →
  T !! Some (Py.strip Py.dquote (Py.strip Py.squote l)) = Some v →
  declared_lookup T (Some l) = Ok (Some v).
Proof.
  intros Hl H. unfold declared_lookup. rewrite (truthy_Some l Hl).
  unfold getitem. rewrite H. reflexivity.
Qed.

Lemma declared_lookup_miss (T : gmap (option string) string)
    (license : option string) :
  declared_miss T license →
  declared_lookup T license = Ok None ∨ declared_lookup T license = Raise KeyError.
Proof.
  intros H. unfold declared_miss, declared_key in H. unfold declared_lookup.
  destruct license as [l|]; [|left; reflexivity].
  destruct (Py.truthy (Some l)); [|left; reflexivity].
  right. unfold getitem. rewrite (H _ eq_refl). reflexivity.
Qed.

Lemma table_lookup_miss (T : gmap (option string) string)
    (license : option string) (classifiers : list string) :
  declared_miss T license →
  table_lookup T license classifiers = classifier_lookup T classifiers.
Proof.
  intros H. unfold table_lookup.
  destruct (declared_lookup_miss T license H) as [-> | ->]; reflexivity.
Qed.

Lemma classifier_lookup_find (T : gmap (option string) string)
    (classifiers : list string) :
  classifier_lookup T classifiers =
    match find (Py.startswith "License") classifiers with
    | Some c => getitem T c
    | None => Raise (Exception "No license found")
    end.
Proof.
  induction classifiers as [|c cs IH]; simpl; [reflexivity|].
  destruct (Py.startswith "License" c); [reflexivity|exact IH].
Qed.

Lemma translate_license_frame (l : option string) (classifiers : list string)
    (d : option string) (st st' : state) (r : outcome string)
    (k : option string) (m : string) :
  translate_license l classifiers d st = (r, st') →
  LICENSES st !! k = Some m →
  LICENSES st' !! k = Some m
  ∨ (l = k ∧ ∃ m', r = Return m' ∧ LICENSES st' !! k = Some m'
               ∧ head (stdin st) = Some m').
Proof.
  intros Hrun Hk. revert Hrun.
  unfold translate_license, try_except, mbind, M_bind, get, lift.
  destruct (table_lookup (LICENSES st) l classifiers) as [v|e]; simpl.
  { intros [= <- <-]. left. exact Hk. }
  destruct (Py.truthy d); simpl.
  { intros [= <- <-]. left. exact Hk. }
  unfold input, print, LICENSES_setitem. simpl.
  destruct (stdin st) as [|m' rest]; simpl.
  { intros [= <- <-]. left. exact Hk. }
  intros [= <- <-]. simpl.
  destruct (decide (l = k)) as [->|Hne].
  - right. split; [reflexivity|]. exists m'.
    rewrite lookup_insert_eq. auto.
  - left. rewrite lookup_insert_ne by exact Hne. exact Hk.
Qed.

(** C6, as the specification states it, fails on surrounding whitespace:
    the declared license [" MIT"] stripped of quotes and whitespace is a
    key of the built-in table, mapped to ["MIT"], yet the program looks the
    string up with its leading space, misses, and returns the default. *)
Lemma translate_license_keeps_whitespace :
  LICENSES (initial_state []) !! Some (strip_quotes_and_whitespace " MIT")
  = Some "MIT"
  ∧ translate_license (Some " MIT") [] (Some "CLOSED") (initial_state [])
    = (Return "CLOSED", initial_state [])
  ∧ fst (translate_license (Some " MIT") [] (Some "CLOSED") (initial_state []))
    ≠ Return "MIT".
Proof.
  assert (translate_license (Some " MIT") [] (Some "CLOSED") (initial_state [])
          = (Return "CLOSED", initial_state [])) as Hrun.
  { apply (translate_license_default _ _ _ _ (Exception "No license found")).
    - vm_compute. reflexivity.
    - discriminate. }
  split; [vm_compute; reflexivity|].
  split; [exact Hrun|].
  rewrite Hrun. discriminate.
Qed.

(** C6 (amended): the normalizer proceeds in this order.  A declared
    license that is not empty is stripped of surrounding single quotes,
    then of surrounding double quotes (whitespace is kept), and looked up
    in the table; the mapped identifier is returned on a hit.  Otherwise,
    or on a miss, the first classifier that begins with ["License"] is
    looked up as it is and its mapping returned on a hit.  On a total miss
    a configured default license is returned.  The state is unchanged in
    the three cases. *)
Theorem translate_license_order (license : option string)
    (classifiers : list string) (default_license : option string) (st : state) :
  (∀ l v, license = Some l → l ≠ "" →
     LICENSES st !! Some (Py.strip Py.dquote (Py.strip Py.squote l)) = Some v →
     translate_license license classifiers default_license st = (Return v, st))
  ∧ (∀ c v, declared_miss (LICENSES st) license →
       find (Py.startswith "License") classifiers = Some c →
       LICENSES st !! Some c = Some v →
       translate_license license classifiers default_license st = (Return v, st))
  ∧ (∀ d, declared_miss (LICENSES st) license →
       (∀ c, find (Py.startswith "License") classifiers = Some c →
             LICENSES st !! Some c = None) →
       default_license = Some d → d ≠ "" →
       translate_license license classifiers default_license st = (Return d, st)).
Proof.
  repeat split.
  - intros l v -> Hl Hv. apply translate_license_hit.
    unfold table_lookup. rewrite (declared_lookup_hit _ l v Hl Hv). reflexivity.
  - intros c v Hmiss Hc Hv. apply translate_license_hit.
    rewrite (table_lookup_miss _ _ _ Hmiss), classifier_lookup_find, Hc.
    unfold getitem. rewrite Hv. reflexivity.
  - intros d Hmiss Hcls -> Hd.
    assert (∃ e, table_lookup (LICENSES st) license classifiers = Raise e)
      as [e He].
    { rewrite (table_lookup_miss _ _ _ Hmiss), classifier_lookup_find.
      destruct (find (Py.startswith "License") classifiers) as [c|] eqn:Hc.
      - unfold getitem. rewrite (Hcls c eq_refl). eauto.
      - eauto. }
    apply (translate_license_default _ _ _ _ e He Hd).
Qed.

Lemma translate_license_order_witness :
  translate_license (Some "'MIT License'") [] None (initial_state [])
  = (Return "MIT", initial_state [])
  ∧ translate_license None ["Topic :: Internet"; "License :: OSI Approved :: BSD License"]
      None (initial_state [])
    = (Return "BSD", initial_state [])
  ∧ translate_license (Some "Custom terms") ["Topic :: Internet"] (Some "CLOSED")
      (initial_state [])
    = (Return "CLOSED", initial_state []).
Proof.
  split; [|split].
  - apply (proj1 (translate_license_order (Some "'MIT License'") [] None
                    (initial_state [])) "'MIT License'" "MIT").
    + reflexivity.
    + discriminate.
    + vm_compute. reflexivity.
  - apply (proj1 (proj2 (translate_license_order None
                    ["Topic :: Internet"; "License :: OSI Approved :: BSD License"]
                    None (initial_state [])))
             "License :: OSI Approved :: BSD License" "BSD").
    + intros k Hk. discriminate Hk.
    + reflexivity.
    + vm_compute. reflexivity.
  - apply (proj2 (proj2 (translate_license_order (Some "Custom terms")
                    ["Topic :: Internet"] (Some "CLOSED") (initial_state [])))
             "CLOSED").
    + intros k Hk. cbv in Hk. injection Hk as <-. vm_compute. reflexivity.
    + intros c Hc. discriminate Hc.
    + reflexivity.
    + discriminate.
Defined.

(** ** Wildcard versions *)

Lemma fuzzy_found_agrees (v tv : list string) (j : nat) :
  (j + length (literal_prefix v) ≤ length tv)%nat →
  fuzzy_found j v tv
  = Ok (bool_decide (take (length (literal_prefix v)) (drop j tv) = literal_prefix v)).
Proof.
  revert j. induction v as [|seg v IH]; intros j Hlen; simpl in *.
  - reflexivity.
  - destruct (String.eqb seg "*") eqn:Hstar; simpl in *.
    + reflexivity.
    + destruct (tv !! j) as [t|] eqn:Ht.
      2:{ apply lookup_ge_None in Ht. lia. }
      rewrite (drop_S tv t j Ht). simpl.
      destruct (String.eqb seg t) eqn:Hseg; simpl.
      * apply String.eqb_eq in Hseg as ->.
        rewrite IH by lia.
        f_equal. apply bool_decide_ext. split; intros H; [congruence|].
        injection H as H. exact H.
      * apply String.eqb_neq in Hseg.
        rewrite bool_decide_eq_false_2; [reflexivity|congruence].
Qed.

Lemma fuzzy_loop_matching (v keys pv : list string) :
  (∀ i, i ∈ keys →
        (length (literal_prefix v) ≤ length (Py.split "." i))%nat) →
  fuzzy_loop v keys pv = Ok (pv ++ matching_keys (literal_prefix v) keys).
Proof.
  revert pv. induction keys as [|i keys IH]; intros pv Hlen; simpl.
  - rewrite app_nil_r. reflexivity.
  - rewrite fuzzy_found_agrees by (simpl; apply Hlen; left).
    simpl. rewrite drop_0. fold (agrees (literal_prefix v) (Py.split "." i)).
    rewrite IH by (intros k Hk; apply Hlen; right; exact Hk).
    destruct (agrees (literal_prefix v) (Py.split "." i)).
    + rewrite <- app_assoc. reflexivity.
    + reflexivity.
Qed.

(** A candidate with fewer segments than come before the first wildcard,
    and equal to the pattern on those it has, makes [tv[j]] raise; so does
    [pv[-1]] when no candidate matches. *)
Example fuzzy_version_short_candidate :
  fuzzy_version "1.2.*" ["1"] = Raise IndexError
  ∧ fuzzy_version "1.2.*" ["2"] = Raise IndexError
  ∧ fuzzy_version "1.2.*" ["2"; "1.2.7"] = Ok "1.2.7".
Proof. repeat split; reflexivity. Qed.

(** C8, as the specification states it, fails on both counts.  For the
    pattern ["1.*"] and the registry keys ["1.2"], ["1.1"] in that order,
    both keys match, ["1.2"] is the greater one, and the program chooses
    ["1.1"], the last one.  For the pattern ["1.*.3"] the key ["1.2.4"] is
    kept although its third segment is not ["3"]: nothing after the first
    wildcard is compared. *)
Lemma fuzzy_version_not_greatest :
  positional_match (Py.split "." "1.*") (Py.split "." "1.2") = true
  ∧ positional_match (Py.split "." "1.*") (Py.split "." "1.1") = true
  ∧ String.compare "1.1" "1.2" = Lt
  ∧ fuzzy_version "1.*" ["1.2"; "1.1"] = Ok "1.1"
  ∧ positional_match (Py.split "." "1.*.3") (Py.split "." "1.2.4") = false
  ∧ fuzzy_version "1.*.3" ["1.2.4"] = Ok "1.2.4".
Proof. repeat split; reflexivity. Qed.

(** C8 (amended): for a request whose version holds a ["*"], the engine
    fetches the package document of the registry, keeps, in the order of
    the document, exactly the keys of [releases] whose dot-segments equal
    the segments of the pattern at every position before the first
    wildcard segment (what follows the first wildcard is not compared),
    and selects the last key kept; this when every key has at least as
    many segments as come before the first wildcard. *)
Theorem fuzzy_version_last_match (W : World) (package_name version : string)
    (info : Info) (d : list (string * list RFile)) (st : state) :
  Py.contains "*" version = true →
  urlopen_json W (Fmt.url_package package_name) = Ok info →
  releases info = Some d →
  (∀ i, i ∈ map fst d →
        (length (literal_prefix (Py.split "." version))
         ≤ length (Py.split "." i))%nat) →
  fuzzy_version version (map fst d)
  = last_item (matching_keys (literal_prefix (Py.split "." version)) (map fst d))
  ∧ concrete_version W package_name (Some version) st
    = (_ ← print (LFuzzy (Py.split "." version));
       chosen ← lift (last_item (matching_keys
                        (literal_prefix (Py.split "." version)) (map fst d)));
       mret (Some chosen)) st.
Proof.
  intros Hstar Hurl Hrel Hlen.
  assert (fuzzy_version version (map fst d)
          = last_item (matching_keys (literal_prefix (Py.split "." version))
                                     (map fst d))) as Hfv.
  { unfold fuzzy_version. rewrite (fuzzy_loop_matching _ _ [] Hlen). reflexivity. }
  split; [exact Hfv|].
  unfold concrete_version.
  assert (Py.truthy (Some version) = true) as ->.
  { destruct version; [discriminate Hstar|reflexivity]. }
  rewrite Hstar. simpl. unfold mbind, M_bind, lift.
  rewrite Hurl. simpl. rewrite Hrel. simpl. rewrite Hfv. reflexivity.
Qed.

Lemma fuzzy_version_last_match_witness :
  fuzzy_version "1.*" ["1.0"; "2.0"; "1.1"] = Ok "1.1"
  ∧ fst (concrete_version Demo.world "lib" (Some "1.*") (initial_state []))
    = Return (Some "1.1").
Proof.
  destruct (fuzzy_version_last_match Demo.world "lib" "1.*" Demo.lib_index
              [("1.0", [Demo.sdist "https://files.example/lib-1.0.tar.gz"]);
               ("2.0", [Demo.sdist "https://files.example/lib-2.0.tar.gz"]);
               ("1.1", [Demo.sdist "https://files.example/lib-1.1.tar.gz"])]
              (initial_state [])) as [H1 H2].
  - reflexivity.
  - reflexivity.
  - reflexivity.
  - intros i Hi. simpl in Hi.
    repeat (apply elem_of_cons in Hi as [->|Hi]); [| | |inversion Hi];
      vm_compute; lia.
  - split; [exact H1|]. rewrite H2. reflexivity.
Defined.

(** ** Reasoning about stateful computations *)

Section Monad.

Context {A B : Type}.

Lemma bind_Return (m : M A) (f : A → M B) (st st1 : state) (a : A) :
  m st = (Return a, st1) → (x ← m; f x) st = f a st1.
Proof. intros H. unfold mbind, M_bind. rewrite H. reflexivity. Qed.

Lemma bind_Throw (m : M A) (f : A → M B) (st st1 : state) (e : exn) :
  m st = (Throw e, st1) → (x ← m; f x) st = (Throw e, st1).
Proof. intros H. unfold mbind, M_bind. rewrite H. reflexivity. Qed.

Lemma bind_inv (m : M A) (f : A → M B) (st st' : state) (r : outcome B) :
  (x ← m; f x) st = (r, st') →
  (∃ a st1, m st = (Return a, st1) ∧ f a st1 = (r, st'))
  ∨ (∃ e, m st = (Throw e, st') ∧ r = Throw e)
  ∨ (m st = (OutOfFuel, st') ∧ r = OutOfFuel).
Proof.
  unfold mbind, M_bind. destruct (m st) as [[a|e|] st1]; intros H.
  - left. eauto.
  - right. left. injection H as <- <-. eauto.
  - right. right. injection H as <- <-. eauto.
Qed.

Lemma preserves_bind (R : state → state → Prop) `{!Transitive R}
    (m : M A) (f : A → M B) :
  preserves R m → (∀ a, preserves R (f a)) → preserves R (x ← m; f x).
Proof.
  intros Hm Hf st r st' H.
  destruct (bind_inv _ _ _ _ _ H) as [(a & st1 & H1 & H2)|[(e & H1 & _)|[H1 _]]].
  - transitivity st1; [exact (Hm _ _ _ H1)|exact (Hf _ _ _ _ H2)].
  - exact (Hm _ _ _ H1).
  - exact (Hm _ _ _ H1).
Qed.

Lemma fuel_free_bind (m : M A) (f : A → M B) :
  fuel_free m → (∀ a, fuel_free (f a)) → fuel_free (x ← m; f x).
Proof.
  intros Hm Hf st st' H.
  destruct (bind_inv _ _ _ _ _ H) as [(a & st1 & H1 & H2)|[(e & _ & He)|[H1 _]]].
  - exact (Hf _ _ _ H2).
  - discriminate He.
  - exact (Hm _ _ H1).
Qed.

Lemma throw_free_bind (m : M A) (f : A → M B) :
  throw_free m → (∀ a, throw_free (f a)) → throw_free (x ← m; f x).
Proof.
  intros Hm Hf st e st' H.
  destruct (bind_inv _ _ _ _ _ H) as [(a & st1 & H1 & H2)|[(e' & H1 & _)|[_ He]]].
  - exact (Hf _ _ _ _ H2).
  - exact (Hm _ _ _ H1).
  - discriminate He.
Qed.

End Monad.

Section MonadOps.

Context {A : Type}.

Lemma preserves_ret (R : state → state → Prop) `{!Reflexive R} (a : A) :
  preserves R (mret a : M A).
Proof. intros st r st' [= <- <-]. reflexivity. Qed.

Lemma preserves_lift (R : state → state → Prop) `{!Reflexive R} (x : res A) :
  preserves R (lift x).
Proof. destruct x; intros st r st' [= <- <-]; reflexivity. Qed.

Lemma preserves_try_except (R : state → state → Prop) `{!Transitive R}
    (body : M A) (handler : exn → M A) :
  preserves R body → (∀ e, preserves R (handler e)) →
  preserves R (try_except body handler).
Proof.
  intros Hb Hh st r st'. unfold try_except.
  destruct (body st) as [[a|e|] st1] eqn:Hbody; intros H.
  - injection H as <- <-. exact (Hb _ _ _ Hbody).
  - transitivity st1; [exact (Hb _ _ _ Hbody)|exact (Hh _ _ _ _ H)].
  - injection H as <- <-. exact (Hb _ _ _ Hbody).
Qed.

Lemma fuel_free_ret (a : A) : fuel_free (mret a : M A).
Proof. intros st st'. discriminate. Qed.

Lemma fuel_free_lift (x : res A) : fuel_free (lift x).
Proof. destruct x; intros st st'; discriminate. Qed.

Lemma fuel_free_try_except (body : M A) (handler : exn → M A) :
  fuel_free body → (∀ e, fuel_free (handler e)) →
  fuel_free (try_except body handler).
Proof.
  intros Hb Hh st st'. unfold try_except.
  destruct (body st) as [[a|e|] st1] eqn:Hbody; intros H.
  - discriminate H.
  - exact (Hh _ _ _ H).
  - exact (Hb _ _ Hbody).
Qed.

Lemma throw_free_ret (a : A) : throw_free (mret a : M A).
Proof. intros st e st'. discriminate. Qed.

(** A [try] whose handler never raises never raises. *)
Lemma throw_free_try_except (body : M A) (handler : exn → M A) :
  (∀ e, throw_free (handler e)) → throw_free (try_except body handler).
Proof.
  intros Hh st e st'. unfold try_except.
  destruct (body st) as [[a|e'|] st1] eqn:Hbody; intros H.
  - discriminate H.
  - exact (Hh _ _ _ _ H).
  - discriminate H.
Qed.

End MonadOps.

Lemma preserves_weaken {A} (R R' : state → state → Prop) (m : M A) :
  (∀ st st', R st st' → R' st st') → preserves R m → preserves R' m.
Proof. intros HR Hm st r st' H. apply HR. exact (Hm _ _ _ H). Qed.

Lemma preserves_for_each {A B} (R : state → state → Prop) `{!PreOrder R}
    (f : A → M B) (l : list A) :
  (∀ x, x ∈ l → preserves R (f x)) → preserves R (for_each f l).
Proof.
  induction l as [|x l IH]; intros Hf; simpl.
  - apply preserves_ret, _.
  - apply preserves_bind; [apply _|apply Hf; left|]. intros _.
    apply IH. intros y Hy. apply Hf. right. exact Hy.
Qed.

Lemma fuel_free_for_each {A B} (f : A → M B) (l : list A) :
  (∀ x, x ∈ l → fuel_free (f x)) → fuel_free (for_each f l).
Proof.
  induction l as [|x l IH]; intros Hf; simpl.
  - apply fuel_free_ret.
  - apply fuel_free_bind; [apply Hf; left|]. intros _.
    apply IH. intros y Hy. apply Hf. right. exact Hy.
Qed.

Lemma bind_Return_inv {A B} (m : M A) (f : A → M B) (st st' : state) (b : B) :
  (x ← m; f x) st = (Return b, st') →
  ∃ a st1, m st = (Return a, st1) ∧ f a st1 = (Return b, st').
Proof.
  intros H.
  destruct (bind_inv _ _ _ _ _ H) as [?|[(e & _ & He)|[_ He]]];
    [assumption|discriminate He|discriminate He].
Qed.

Lemma lift_Return_inv {A} (x : res A) (st st' : state) (a : A) :
  lift x st = (Return a, st') → x = Ok a ∧ st' = st.
Proof. destruct x; intros [= <- <-]; auto. Qed.

Lemma pair_from_fst {A B} (x : A * B) (a : A) : fst x = a → x = (a, snd x).
Proof. intros <-. destruct x; reflexivity. Qed.

Ltac bind_return H :=
  let a := fresh "a" in
  let st1 := fresh "st" in
  let H1 := fresh "Hstep" in
  apply bind_Return_inv in H as (a & st1 & H1 & H).

(** The primitive operations. *)

Lemma print_printed (l : line) (st : state) : print l st = (Return tt, printed [l] st).
Proof. reflexivity. Qed.

Lemma printed_nil (st : state) : printed [] st = st.
Proof. destruct st. unfold printed. simpl. rewrite app_nil_r. reflexivity. Qed.

Lemma printed_app (l1 l2 : list line) (st : state) :
  printed l2 (printed l1 st) = printed (l1 ++ l2) st.
Proof. unfold printed. simpl. rewrite app_assoc. reflexivity. Qed.

Lemma print_fuel_free (l : line) : fuel_free (print l).
Proof. intros st st'. discriminate. Qed.

Lemma print_throw_free (l : line) : throw_free (print l).
Proof. intros st e st'. discriminate. Qed.

Lemma get_preserves (R : state → state → Prop) `{!Reflexive R} : preserves R get.
Proof. intros st r st' [= <- <-]. reflexivity. Qed.

Lemma get_fuel_free : fuel_free get.
Proof. intros st st'. discriminate. Qed.

Lemma input_fuel_free : fuel_free input.
Proof. intros st st'. unfold input. destruct (stdin st); discriminate. Qed.

Lemma setitem_fuel_free (k : option string) (v : string) :
  fuel_free (LICENSES_setitem k v).
Proof. intros st st'. discriminate. Qed.

(** ** Relations kept by a run *)

#[global] Instance same_lists_preorder : PreOrder same_lists.
Proof.
  split.
  - intros st. split; reflexivity.
  - intros a b c [H1 H2] [H3 H4]. split; congruence.
Qed.

#[global] Instance extended_preorder : PreOrder extended.
Proof.
  split.
  - intros st. exists []. split; rewrite app_nil_r; reflexivity.
  - intros a b c [n1 [H1 H2]] [n2 [H3 H4]]. exists (n1 ++ n2).
    split; rewrite app_assoc; congruence.
Qed.

#[global] Instance kept_preorder (k : option string) (m : string) :
  PreOrder (kept k m).
Proof. split; unfold kept; [intros st H; exact H|intros a b c H1 H2 H; auto]. Qed.

Lemma same_lists_extended (st st' : state) : same_lists st st' → extended st st'.
Proof. intros [H1 H2]. exists []. split; rewrite app_nil_r; assumption. Qed.

Lemma print_same_lists (l : line) : preserves same_lists (print l).
Proof. intros st r st' [= <- <-]. split; reflexivity. Qed.

Lemma input_same_lists : preserves same_lists input.
Proof.
  intros st r st'. unfold input. destruct (stdin st); intros [= <- <-];
    split; reflexivity.
Qed.

Lemma setitem_same_lists (k : option string) (v : string) :
  preserves same_lists (LICENSES_setitem k v).
Proof. intros st r st' [= <- <-]. split; reflexivity. Qed.

Lemma translate_license_same_lists (license : option string)
    (classifiers : list string) (default_license : option string) :
  preserves same_lists (translate_license license classifiers default_license).
Proof.
  unfold translate_license. apply preserves_try_except; [apply _| |].
  - apply preserves_bind; [apply _|apply get_preserves, _|].
    intros st. apply preserves_lift, _.
  - intros e. destruct (Py.truthy default_license).
    + apply preserves_ret, _.
    + apply preserves_bind; [apply _|apply print_same_lists|]. intros _.
      apply preserves_bind; [apply _|apply input_same_lists|]. intros m.
      apply preserves_bind; [apply _|apply setitem_same_lists|]. intros _.
      apply preserves_ret, _.
Qed.

#[global] Instance same_lists_frame : Frame same_lists.
Proof.
  split; [apply _|apply print_same_lists|apply translate_license_same_lists].
Qed.

#[global] Instance extended_growth : Growth extended.
Proof.
  split; [split; [apply _| |]|].
  - intros l. eapply preserves_weaken;
      [apply same_lists_extended|apply print_same_lists].
  - intros license classifiers d. eapply preserves_weaken;
      [apply same_lists_extended|apply translate_license_same_lists].
  - intros p st r st' [= <- <-]. exists [p]. split; reflexivity.
Qed.

(** A mapping learned for a declared license that is not empty and has no
    surrounding quote is kept by every later call of the normalizer: a
    call for the same declared license finds it, a call for another one
    writes another key. *)
Lemma kept_growth (l m : string) :
  l ≠ "" → Py.strip Py.dquote (Py.strip Py.squote l) = l →
  Growth (kept (Some l) m).
Proof.
  intros Hl Hstrip. split; [split; [apply _| |]|].
  - intros ln st r st' [= <- <-] H. exact H.
  - intros license classifiers d st r st' Hrun Hk.
    destruct (decide (license = Some l)) as [->|Hne].
    + rewrite (translate_license_hit (Some l) classifiers d st m) in Hrun.
      * injection Hrun as <- <-. exact Hk.
      * unfold table_lookup. rewrite (declared_lookup_hit _ l m Hl); [reflexivity|].
        rewrite Hstrip. exact Hk.
    + destruct (translate_license_frame _ _ _ _ _ _ _ _ Hrun Hk) as [H|[H _]];
        [exact H|contradiction].
  - intros p st r st' [= <- <-] H. exact H.
Qed.

Section FrameFacts.

Context (R : state → state → Prop) `{!Frame R}.
Context (W : World) (follow_extras : bool) (default_license : option string).

Lemma concrete_version_preserves (package_name : string) (version : option string) :
  preserves R (concrete_version W package_name version).
Proof.
  unfold concrete_version. destruct version as [v|]; [|apply preserves_ret, _].
  destruct (Py.truthy (Some v) && Py.contains "*" v); [|apply preserves_ret, _].
  apply preserves_bind; [apply _|apply preserves_lift, _|]. intros info.
  apply preserves_bind; [apply _|apply frame_print|]. intros _.
  apply preserves_bind; [apply _|apply preserves_lift, _|]. intros keys.
  apply preserves_bind; [apply _|apply preserves_lift, _|]. intros chosen.
  apply preserves_ret, _.
Qed.

Lemma gather_preserves (package_name : string) (version : option string) :
  preserves R (gather W follow_extras default_license package_name version).
Proof.
  unfold gather.
  apply preserves_bind; [apply _|apply concrete_version_preserves|]. intros asked.
  apply preserves_bind; [apply _|apply preserves_lift, _|]. intros info.
  apply preserves_bind; [apply _|apply frame_translate_license|]. intros l.
  apply preserves_bind; [apply _|apply preserves_lift, _|]. intros src_uri.
  apply preserves_bind; [apply _|apply preserves_lift, _|]. intros fi.
  apply preserves_bind; [apply _| |].
  { destruct (info_requires_dist info);
      [apply preserves_ret, _|apply preserves_lift, _]. }
  intros requires_dist.
  apply preserves_bind; [apply _|apply preserves_lift, _|]. intros deps.
  apply preserves_ret, _.
Qed.

Lemma check_loop_preserves (package_name : string) (version : option string)
    (l : list Package.t) :
  preserves R (check_loop package_name version l).
Proof.
  induction l as [|q l IH]; simpl; [apply preserves_ret, _|].
  destruct (String.eqb package_name (Package.name q)); [|exact IH].
  apply preserves_bind; [apply _|apply preserves_lift, _|]. intros r.
  destruct (negb (r =? 1)); [apply preserves_ret, _|].
  apply preserves_bind; [apply _|apply frame_print|]. intros _. exact IH.
Qed.

End FrameFacts.

Lemma translate_license_fuel_free (license : option string)
    (classifiers : list string) (default_license : option string) :
  fuel_free (translate_license license classifiers default_license).
Proof.
  unfold translate_license. apply fuel_free_try_except.
  - apply fuel_free_bind; [apply get_fuel_free|].
    intros st. apply fuel_free_lift.
  - intros e. destruct (Py.truthy default_license).
    + apply fuel_free_ret.
    + apply fuel_free_bind; [apply print_fuel_free|]. intros _.
      apply fuel_free_bind; [apply input_fuel_free|]. intros m.
      apply fuel_free_bind; [apply setitem_fuel_free|]. intros _.
      apply fuel_free_ret.
Qed.

Section FuelFacts.

Context (W : World) (follow_extras : bool) (default_license : option string).

Lemma concrete_version_fuel_free (package_name : string) (version : option string) :
  fuel_free (concrete_version W package_name version).
Proof.
  unfold concrete_version. destruct version as [v|]; [|apply fuel_free_ret].
  destruct (Py.truthy (Some v) && Py.contains "*" v); [|apply fuel_free_ret].
  apply fuel_free_bind; [apply fuel_free_lift|]. intros info.
  apply fuel_free_bind; [apply print_fuel_free|]. intros _.
  apply fuel_free_bind; [apply fuel_free_lift|]. intros keys.
  apply fuel_free_bind; [apply fuel_free_lift|]. intros chosen.
  apply fuel_free_ret.
Qed.

Lemma gather_fuel_free (package_name : string) (version : option string) :
  fuel_free (gather W follow_extras default_license package_name version).
Proof.
  unfold gather.
  apply fuel_free_bind; [apply concrete_version_fuel_free|]. intros asked.
  apply fuel_free_bind; [apply fuel_free_lift|]. intros info.
  apply fuel_free_bind; [apply translate_license_fuel_free|]. intros l.
  apply fuel_free_bind; [apply fuel_free_lift|]. intros src_uri.
  apply fuel_free_bind; [apply fuel_free_lift|]. intros fi.
  apply fuel_free_bind.
  { destruct (info_requires_dist info);
      [apply fuel_free_ret|apply fuel_free_lift]. }
  intros requires_dist.
  apply fuel_free_bind; [apply fuel_free_lift|]. intros deps.
  apply fuel_free_ret.
Qed.

End FuelFacts.

(** A gathered package bears the name asked for. *)
Lemma gather_name (W : World) (follow_extras : bool)
    (default_license : option string) (package_name : string)
    (version : option string) (st st' : state) (p : Package.t) :
  gather W follow_extras default_license package_name version st = (Return p, st') →
  Package.name p = package_name.
Proof.
  unfold gather. intros H. do 7 bind_return H.
  injection H as <- _. reflexivity.
Qed.

(** What the gathered package owes to the registry: the document asked
    for, the requirement strings, and the dependencies parsed from them. *)
Lemma gather_inv (W : World) (follow_extras : bool)
    (default_license : option string) (package_name : string)
    (version : option string) (st st' : state) (p : Package.t) :
  gather W follow_extras default_license package_name version st = (Return p, st') →
  ∃ asked st1 info requires_dist,
    concrete_version W package_name version st = (Return asked, st1)
    ∧ urlopen_json W (if Py.truthy version
                      then Fmt.url_version package_name (default "" asked)
                      else Fmt.url_package package_name) = Ok info
    ∧ Package.version p
      = Some (if Py.truthy asked then default "" asked else info_version info)
    ∧ match info_requires_dist info with
      | None =>
          let version :=
            if Py.truthy asked then default "" asked else info_version info in
          fetch_requirements_from_remote_package W
            (with_src_uri info version (Package.src_uri p)) version
      | Some l => Ok l
      end = Ok requires_dist
    ∧ get_package_dependencies W follow_extras requires_dist
      = Ok (Package.dependencies p).
Proof.
  unfold gather. intros H.
  apply bind_Return_inv in H as (asked & st1 & Hcv & H).
  apply bind_Return_inv in H as (info & st2 & Hurl & H).
  apply lift_Return_inv in Hurl as [Hurl ->].
  apply bind_Return_inv in H as (l & st3 & _ & H).
  apply bind_Return_inv in H as (src_uri & st4 & _ & H).
  apply bind_Return_inv in H as (fi & st5 & _ & H).
  apply bind_Return_inv in H as (rd & st6 & Hrd & H).
  apply bind_Return_inv in H as (deps & st7 & Hdeps & H).
  apply lift_Return_inv in Hdeps as [Hdeps ->].
  injection H as <- _.
  exists asked, st1, info, rd. repeat split; try assumption.
  destruct (info_requires_dist info).
  - injection Hrd as -> _. reflexivity.
  - apply lift_Return_inv in Hrd as [Hrd _]. exact Hrd.
Qed.

(** ** The skip check *)

(** The loop runs through the entries that do not bear the name and
    through the strictly older entries that bear it, printing a warning
    for each of the latter. *)
Lemma check_loop_older (package_name : string) (version : option string)
    (l rest : list Package.t) (st : state) :
  (∀ q, q ∈ same_name package_name l →
        compare_versions version (Package.version q) = Ok 1) →
  check_loop package_name version (l ++ rest) st
  = check_loop package_name version rest
      (printed (conflict_warnings package_name version l) st).
Proof.
  revert st. induction l as [|q l IH]; intros st Hold; simpl.
  - rewrite printed_nil. reflexivity.
  - unfold conflict_warnings, same_name in *. simpl in *.
    destruct (String.eqb package_name (Package.name q)) eqn:Hn.
    + rewrite (bind_Return _ _ st st 1).
      2:{ rewrite (Hold q) by left. reflexivity. }
      simpl. rewrite (bind_Return _ _ _ _ tt (print_printed _ st)).
      rewrite IH by (intros q' Hq'; apply Hold; right; exact Hq').
      simpl. rewrite printed_app. reflexivity.
    + apply IH. exact Hold.
Qed.

Lemma check_loop_hit (package_name : string) (version : option string)
    (q : Package.t) (rest : list Package.t) (st : state) (r : Z) :
  Package.name q = package_name →
  compare_versions version (Package.version q) = Ok r → r ≠ 1 →
  check_loop package_name version (q :: rest) st = (Return true, st).
Proof.
  intros <- Hc Hr. simpl. rewrite String.eqb_refl.
  rewrite (bind_Return _ _ st st r) by (rewrite Hc; reflexivity).
  apply Z.eqb_neq in Hr. rewrite Hr. reflexivity.
Qed.

Lemma check_loop_raise (package_name : string) (version : option string)
    (q : Package.t) (rest : list Package.t) (st : state) (e : exn) :
  Package.name q = package_name →
  compare_versions version (Package.version q) = Raise e →
  check_loop package_name version (q :: rest) st = (Throw e, st).
Proof.
  intros <- Hc. simpl. rewrite String.eqb_refl.
  apply bind_Throw. rewrite Hc. reflexivity.
Qed.

Lemma check_loop_fuel_free (package_name : string) (version : option string)
    (l : list Package.t) :
  fuel_free (check_loop package_name version l).
Proof.
  induction l as [|q l IH]; simpl; [apply fuel_free_ret|].
  destruct (String.eqb package_name (Package.name q)); [|exact IH].
  apply fuel_free_bind; [apply fuel_free_lift|]. intros r.
  destruct (negb (r =? 1)); [apply fuel_free_ret|].
  apply fuel_free_bind; [apply print_fuel_free|]. intros _. exact IH.
Qed.

(** ** The shape of [get_package_info] *)

Section EngineFacts.

Context (W : World) (follow_extras : bool) (default_license : option string).

Abbreviation gpi := (get_package_info W follow_extras default_license).
Abbreviation body := (request_body W follow_extras default_license).

(** A root request is not checked against the processed packages. *)
Lemma get_package_info_root (fuel : nat) (package : string)
    (version : option string) (indent : Z) (extra : option string) (st : state) :
  gpi (S fuel) package version PackagesNone indent extra st
  = body fuel package version indent extra (fresh_list st).
Proof. reflexivity. Qed.

Lemma get_package_info_checked (fuel : nat) (package : string)
    (version : option string) (indent : Z) (extra : option string) (st : state) :
  gpi (S fuel) package version PackagesShared indent extra st
  = match check_package_already_processed (package_name_of package) version
            (PROCESSED_PACKAGES st) (packages0 st) st with
    | (Return true, st1) => (Return (packages0 st1), st1)
    | (Return false, st1) => body fuel package version indent extra st1
    | (Throw e, st1) => (Throw e, st1)
    | (OutOfFuel, st1) => (OutOfFuel, st1)
    end.
Proof.
  simpl. unfold mbind at 1. unfold M_bind at 1.
  unfold mbind at 1. unfold M_bind at 1. simpl.
  fold (package_name_of package).
  destruct (check_package_already_processed _ _ _ _ st) as [[[|]|e|] st1];
    reflexivity.
Qed.

(** The body of a request never raises: its [try] catches what the
    gathering and the walk raise, and the handler only prints. *)
Lemma request_body_throw_free (fuel : nat) (package : string)
    (version : option string) (indent : Z) (extra : option string) :
  throw_free (body fuel package version indent extra).
Proof.
  unfold request_body.
  apply throw_free_bind; [apply print_throw_free|]. intros _.
  apply throw_free_bind.
  { apply throw_free_try_except. intros e. apply print_throw_free. }
  intros _. apply throw_free_bind.
  - intros st e st'. discriminate.
  - intros st. apply throw_free_ret.
Qed.

(** A failure of the gathering is printed with the package and the
    indentation of the request, and the request returns. *)
Lemma request_body_gather_fails (fuel : nat) (package : string)
    (version : option string) (indent : Z) (extra : option string)
    (st st2 : state) (e : exn) :
  gather W follow_extras default_license (package_name_of package) version
    (printed [LProgress (Fmt.indent_str indent) package (Fmt.extra_str extra)
                        (Fmt.version_str version)] st)
  = (Throw e, st2) →
  body fuel package version indent extra st
  = (Return (packages0 st2),
     printed [LError (Fmt.indent_str indent) (inl package) e] st2).
Proof.
  intros Hg. unfold request_body.
  rewrite (bind_Return _ _ _ _ tt (print_printed _ st)).
  erewrite bind_Return.
  2:{ unfold try_except. rewrite (bind_Throw _ _ _ _ _ Hg). apply print_printed. }
  reflexivity.
Qed.

(** After a successful gathering the package is appended and its
    dependencies are walked; what the walk raises is printed with the
    package and the indentation of the request. *)
Lemma request_body_gathered (fuel : nat) (package : string)
    (version : option string) (indent : Z) (extra : option string)
    (st st2 : state) (p : Package.t) :
  gather W follow_extras default_license (package_name_of package) version
    (printed [LProgress (Fmt.indent_str indent) package (Fmt.extra_str extra)
                        (Fmt.version_str version)] st)
  = (Return p, st2) →
  body fuel package version indent extra st
  = match walk W follow_extras default_license fuel indent
            (Package.dependencies p) (appended p st2) with
    | (Return _, st3) => (Return (packages0 st3), st3)
    | (Throw e, st3) =>
        (Return (packages0 st3),
         printed [LError (Fmt.indent_str indent) (inr p) e] st3)
    | (OutOfFuel, st3) => (OutOfFuel, st3)
    end.
Proof.
  intros Hg. unfold request_body.
  rewrite (bind_Return _ _ _ _ tt (print_printed _ st)).
  unfold mbind at 1. unfold M_bind at 1. unfold try_except at 1. cbv beta.
  rewrite (bind_Return _ _ _ _ _ Hg). unfold try_except.
  assert (∀ f : M unit, (_ ← append_package p; f) st2 = f (appended p st2))
    as -> by reflexivity.
  destruct (walk _ _ _ _ _ _ _) as [[[]|e|] st3]; reflexivity.
Qed.

(** A request raises only from its skip check, hence never when it is a
    root. *)
Lemma get_package_info_Throw (fuel : nat) (package : string)
    (version : option string) (packages : packages_arg) (indent : Z)
    (extra : option string) (st st' : state) (e : exn) :
  gpi fuel package version packages indent extra st = (Throw e, st') →
  packages = PackagesShared
  ∧ check_package_already_processed (package_name_of package) version
      (PROCESSED_PACKAGES st) (packages0 st) st = (Throw e, st').
Proof.
  destruct fuel as [|fuel]; [discriminate|]. destruct packages.
  - rewrite get_package_info_root. intros H.
    exfalso. eapply request_body_throw_free. exact H.
  - rewrite get_package_info_checked.
    destruct (check_package_already_processed _ _ _ _ st) as [[[|]|e'|] st1];
      intros H; try discriminate H.
    + exfalso. eapply request_body_throw_free. exact H.
    + injection H as <- <-. auto.
Qed.


(** What a request returns is the list object [packages[0]]. *)
Lemma request_body_Return (fuel : nat) (package : string)
    (version : option string) (indent : Z) (extra : option string)
    (st st' : state) (l : list Package.t) :
  body fuel package version indent extra st = (Return l, st') →
  l = packages0 st'.
Proof.
  destruct (gather W follow_extras default_license (package_name_of package)
              version
              (printed [LProgress (Fmt.indent_str indent) package
                                  (Fmt.extra_str extra) (Fmt.version_str version)]
                       st)) as [[p|e|] st2] eqn:Hg.
  - rewrite (request_body_gathered _ _ _ _ _ _ _ _ Hg).
    destruct (walk _ _ _ _ _ _ _) as [[[]|e|] st3]; intros [= <- <-]; reflexivity.
  - rewrite (request_body_gather_fails _ _ _ _ _ _ _ _ Hg).
    intros [= <- <-]. reflexivity.
  - exfalso. eapply gather_fuel_free. exact Hg.
Qed.

Lemma get_package_info_Return (fuel : nat) (package : string)
    (version : option string) (packages : packages_arg) (indent : Z)
    (extra : option string) (st st' : state) (l : list Package.t) :
  gpi fuel package version packages indent extra st = (Return l, st') →
  l = packages0 st'.
Proof.
  destruct fuel as [|fuel]; [discriminate|]. destruct packages.
  - rewrite get_package_info_root. apply request_body_Return.
  - rewrite get_package_info_checked.
    destruct (check_package_already_processed _ _ _ _ st) as [[[|]|e'|] st1];
      intros H; try discriminate H.
    + injection H as <- <-. reflexivity.
    + exact (request_body_Return _ _ _ _ _ _ _ _ H).
Qed.

(** ** Invariants of a run *)

Section Kept.

Context (R : state → state → Prop) `{!Growth R}.

Lemma request_body_preserves (fuel : nat) (package : string)
    (version : option string) (indent : Z) (extra : option string) :
  (∀ package version indent extra,
      preserves R (gpi fuel package version PackagesShared indent extra)) →
  preserves R (body fuel package version indent extra).
Proof.
  intros IH. unfold request_body.
  apply preserves_bind; [apply _|apply frame_print|].
  intros _. apply preserves_bind; [apply _| |].
  2:{ intros _. apply preserves_bind; [apply _|apply get_preserves, _|].
      intros st. apply preserves_ret, _. }
  apply preserves_try_except; [apply _| |intros e; apply frame_print].
  apply preserves_bind; [apply _|apply gather_preserves, _|].
  intros p. apply preserves_try_except; [apply _| |intros e; apply frame_print].
  apply preserves_bind; [apply _|apply growth_append|].
  intros _. unfold walk. apply preserves_for_each; [apply _|].
  intros d _. apply IH.
Qed.

(** A request that is not a root keeps every relation that printing, the
    license normalizer and the appending of a package keep. *)
Lemma get_package_info_preserves (fuel : nat) (package : string)
    (version : option string) (indent : Z) (extra : option string) :
  preserves R (gpi fuel package version PackagesShared indent extra).
Proof.
  revert package version indent extra.
  induction fuel as [|fuel IH]; intros package version indent extra st r st' H.
  - injection H as <- <-. reflexivity.
  - rewrite get_package_info_checked in H.
    destruct (check_package_already_processed _ _ _ _ st) as [o st1] eqn:Hc.
    apply (check_loop_preserves R) in Hc.
    destruct o as [[|]|e|].
    + injection H as <- <-. exact Hc.
    + transitivity st1; [exact Hc|].
      exact (request_body_preserves fuel _ _ _ _ IH _ _ _ H).
    + injection H as <- <-. exact Hc.
    + injection H as <- <-. exact Hc.
Qed.

Lemma walk_preserves (fuel : nat) (indent : Z) (deps : list Dependency.t) :
  preserves R (walk W follow_extras default_license fuel indent deps).
Proof.
  unfold walk. apply preserves_for_each; [apply _|].
  intros d _. apply get_package_info_preserves.
Qed.

(** A root request keeps the relation from the state in which it starts
    its new list. *)
Lemma get_package_info_root_preserves (fuel : nat) (package : string)
    (version : option string) (indent : Z) (extra : option string)
    (st st' : state) (r : outcome (list Package.t)) :
  gpi fuel package version PackagesNone indent extra st = (r, st') →
  R (fresh_list st) st' ∨ (fuel = O ∧ st' = st).
Proof.
  destruct fuel as [|fuel].
  - intros [= <- <-]. right. auto.
  - rewrite get_package_info_root. intros H. left.
    refine (request_body_preserves fuel _ _ _ _ _ _ _ _ H).
    intros. apply get_package_info_preserves.
Qed.

End Kept.

(** ** Termination *)

Lemma depth_bounded_mono (n m : nat) (package_name : string)
    (version : option string) :
  depth_bounded W follow_extras default_license n package_name version →
  (n ≤ m)%nat →
  depth_bounded W follow_extras default_license m package_name version.
Proof.
  intros H. revert m. induction H as [n package_name version _ IH].
  intros [|m] Hle; [lia|]. constructor. intros st p st' d Hg Hd.
  apply (IH st p st' d Hg Hd). lia.
Qed.

(** With fuel for the depth of its request tree a request does not run
    out of fuel. *)
Lemma get_package_info_fuel_free (fuel n : nat) (package : string)
    (version : option string) (packages : packages_arg) (indent : Z)
    (extra : option string) :
  depth_bounded W follow_extras default_license n (package_name_of package)
                version →
  (n ≤ fuel)%nat →
  fuel_free (gpi fuel package version packages indent extra).
Proof.
  revert n package version packages indent extra.
  induction fuel as [|fuel IH]; intros n package version packages indent extra Hd Hle.
  { inversion Hd; subst; lia. }
  inversion Hd as [n0 pn v Hdeps]; subst.
  assert (fuel_free (body fuel package version indent extra)) as Hbody.
  { intros st st' Hrun.
    destruct (gather W follow_extras default_license (package_name_of package)
                version
                (printed [LProgress (Fmt.indent_str indent) package
                                    (Fmt.extra_str extra) (Fmt.version_str version)]
                         st)) as [[p|e|] st2] eqn:Hg.
    - rewrite (request_body_gathered _ _ _ _ _ _ _ _ Hg) in Hrun.
      destruct (walk _ _ _ _ _ _ _) as [[[]|e|] st3] eqn:Hw; try discriminate Hrun.
      injection Hrun as <-. revert Hw. unfold walk.
      apply fuel_free_for_each. intros d Hin.
      apply (IH n0); [exact (Hdeps _ _ _ _ Hg Hin)|lia].
    - rewrite (request_body_gather_fails _ _ _ _ _ _ _ _ Hg) in Hrun.
      discriminate Hrun.
    - eapply gather_fuel_free. exact Hg. }
  intros st st'. destruct packages.
  - rewrite get_package_info_root. apply Hbody.
  - rewrite get_package_info_checked.
    destruct (check_package_already_processed _ _ _ _ st) as [[[|]|e'|] st1] eqn:Hc;
      try discriminate.
    + apply Hbody.
    + exfalso. eapply check_loop_fuel_free. exact Hc.
Qed.

(** A root request whose tree has bounded depth returns, and returns the
    list object [packages[0]]. *)
Lemma get_package_info_root_returns (fuel n : nat) (package : string)
    (version : option string) (indent : Z) (extra : option string) (st : state) :
  depth_bounded W follow_extras default_license n (package_name_of package)
                version →
  (n ≤ fuel)%nat →
  ∃ st', gpi fuel package version PackagesNone indent extra st
         = (Return (packages0 st'), st').
Proof.
  intros Hd Hle.
  destruct (gpi fuel package version PackagesNone indent extra st)
    as [[l|e|] st'] eqn:Hrun.
  - exists st'. rewrite (get_package_info_Return _ _ _ _ _ _ _ _ _ Hrun).
    reflexivity.
  - apply get_package_info_Throw in Hrun as [Hp _]. discriminate Hp.
  - exfalso. eapply get_package_info_fuel_free; eauto.
Qed.

(** ** Requests that append and requests that are skipped *)

(** A request that gathers its package appends it: the two lists grow by
    that package, followed by what the walk appends. *)
Lemma request_body_appends (fuel : nat) (package : string)
    (version : option string) (indent : Z) (extra : option string)
    (st st2 : state) (p : Package.t) :
  gather W follow_extras default_license (package_name_of package) version
    (printed [progress_line package version indent extra] st) = (Return p, st2) →
  ∃ r st' more,
    request_body W follow_extras default_license fuel package version indent
      extra st = (r, st')
    ∧ (∀ e, r ≠ Throw e)
    ∧ packages0 st' = packages0 st ++ p :: more
    ∧ PROCESSED_PACKAGES st' = PROCESSED_PACKAGES st ++ p :: more
    ∧ Package.name p = package_name_of package.
Proof.
  intros Hg. pose proof (gather_name _ _ _ _ _ _ _ _ Hg) as Hname.
  pose proof ((gather_preserves same_lists) _ _ _ _ _ _ _ _ Hg) as [HP Hp0]. simpl in HP, Hp0.
  unfold progress_line in Hg.
  rewrite (request_body_gathered _ _ _ _ _ _ _ _ Hg).
  destruct (walk W follow_extras default_license fuel indent
              (Package.dependencies p) (appended p st2)) as [o st3] eqn:Hw.
  apply (walk_preserves extended) in Hw as (more & HP3 & Hp3). simpl in HP3, Hp3.
  rewrite HP in HP3. rewrite Hp0 in Hp3. rewrite <- app_assoc in HP3, Hp3.
  destruct o as [[]|e|]; eexists _, _, more; (split; [reflexivity|]);
    (split; [intros e'; discriminate|]); auto.
Qed.

(** A request that is not a root is skipped when the first processed
    entry of its name is not older than the version asked for. *)
Lemma get_package_info_skips (fuel : nat) (package : string)
    (version : option string) (indent : Z) (extra : option string) (st : state)
    (l1 l2 : list Package.t) (q : Package.t) (c : Z) :
  PROCESSED_PACKAGES st ++ packages0 st = l1 ++ q :: l2 →
  same_name (package_name_of package) l1 = [] →
  Package.name q = package_name_of package →
  compare_versions version (Package.version q) = Ok c → c ≠ 1 →
  gpi (S fuel) package version PackagesShared indent extra st
  = (Return (packages0 st), st).
Proof.
  intros Hall Hl1 Hq Hc Hne. rewrite get_package_info_checked.
  unfold check_package_already_processed. rewrite Hall.
  rewrite check_loop_older by (rewrite Hl1; intros ? H; inversion H).
  assert (conflict_warnings (package_name_of package) version l1 = []) as ->
    by (unfold conflict_warnings; rewrite Hl1; reflexivity).
  rewrite printed_nil.
  rewrite (check_loop_hit _ _ _ _ _ c Hq Hc Hne). reflexivity.
Qed.

(** A mapping learned for a declared license that is not empty and has no
    surrounding quote stays in the table through every later request. *)
Lemma get_package_info_keeps_learned (l m : string) (fuel : nat)
    (package : string) (version : option string) (packages : packages_arg)
    (indent : Z) (extra : option string) (st st' : state)
    (r : outcome (list Package.t)) :
  l ≠ "" → Py.strip Py.dquote (Py.strip Py.squote l) = l →
  LICENSES st !! Some l = Some m →
  gpi fuel package version packages indent extra st = (r, st') →
  LICENSES st' !! Some l = Some m.
Proof.
  intros Hl Hstrip Hk Hrun. pose proof (kept_growth l m Hl Hstrip) as HG.
  destruct packages.
  - destruct (get_package_info_root_preserves (kept (Some l) m) _ _ _ _ _ _ _ _ Hrun)
      as [H|[_ ->]]; [|exact Hk].
    apply H. exact Hk.
  - exact (get_package_info_preserves (kept (Some l) m) _ _ _ _ _ _ _ _ Hrun Hk).
Qed.

End EngineFacts.

(** ** The small registry *)

Ltac demo_gather Hg :=
  let asked := fresh "asked" in
  let st1 := fresh "st" in
  let info := fresh "info" in
  let rd := fresh "rd" in
  let Hcv := fresh "Hcv" in
  let Hurl := fresh "Hurl" in
  let Hrd := fresh "Hrd" in
  let Hdeps := fresh "Hdeps" in
  apply gather_inv in Hg as (asked & st1 & info & rd & Hcv & Hurl & _ & Hrd & Hdeps);
  cbv in Hcv; injection Hcv as <- _;
  vm_compute in Hurl; try discriminate Hurl; injection Hurl as <-;
  vm_compute in Hrd; injection Hrd as <-;
  match type of Hdeps with
  | _ = Ok ?x => let dd := fresh "deps" in remember x as dd
  end;
  vm_compute in Hdeps; injection Hdeps as <-.

Lemma demo_depth_lib_1_0 :
  depth_bounded Demo.world false None 1 "lib" (Some "1.0").
Proof.
  constructor. intros st p st' d Hg Hd. demo_gather Hg. inversion Hd.
Qed.

Lemma demo_depth_broken : depth_bounded Demo.world false None 1 "broken" None.
Proof. constructor. intros st p st' d Hg Hd. demo_gather Hg. Qed.

Lemma demo_depth_util : depth_bounded Demo.world false None 2 "util" None.
Proof.
  constructor. intros st p st' d Hg Hd. demo_gather Hg.
  apply list_elem_of_singleton in Hd as ->.
  exact demo_depth_lib_1_0.
Qed.

Lemma demo_depth_lib_2_0 :
  depth_bounded Demo.world false None 3 "lib" (Some "2.0").
Proof.
  constructor. intros st p st' d Hg Hd. demo_gather Hg.
  apply list_elem_of_singleton in Hd as ->.
  exact demo_depth_util.
Qed.

Lemma demo_depth_app : depth_bounded Demo.world false None 4 "app" None.
Proof.
  constructor. intros st p st' d Hg Hd. demo_gather Hg.
  repeat (apply elem_of_cons in Hd as [->|Hd]); [| | | |inversion Hd].
  - apply (depth_bounded_mono _ _ _ 1); [exact demo_depth_lib_1_0|lia].
  - apply (depth_bounded_mono _ _ _ 1); [exact demo_depth_broken|lia].
  - exact demo_depth_lib_2_0.
  - apply (depth_bounded_mono _ _ _ 2); [exact demo_depth_util|lia].
Qed.

(** ** The properties of the resolution engine *)

(** C1, as the specification states it, fails: in the small registry [app]
    requires [lib==1.0] and later [lib==2.0].  The second request finds
    [lib] processed at the older ["1.0"], prints the warning (once for
    each of the two lists that hold the package) and is not dropped:
    [lib] is gathered again at ["2.0"] and appended, so the name [lib]
    appears twice in the result. *)
Lemma newer_request_is_resolved_again :
  ∃ st',
    Demo.run_app = (Return (packages0 st'), st')
    ∧ map (fun p => (Package.name p, Package.version p)) (packages0 st')
      = [("app", Some "1.0"); ("lib", Some "1.0"); ("lib", Some "2.0");
         ("util", Some "0.3")]
    ∧ stdout st'
      = [LProgress "" "app" "" "";
         LProgress "| " "lib" "" "==1.0";
         LProgress "| " "broken" "" "";
         LError "| " (inl "broken") (URLError "HTTP Error 404: Not Found");
         LWarning "lib" (Some "2.0") (Some "1.0");
         LWarning "lib" (Some "2.0") (Some "1.0");
         LProgress "| " "lib" "" "==2.0";
         LProgress "|-- " "util" "" ""].
Proof.
  destruct (get_package_info_root_returns Demo.world false None 5 4 "app" None
              0 None (initial_state []) demo_depth_app) as [st' Hrun]; [lia|].
  exists st'. split; [exact Hrun|].
  assert (st' = snd Demo.run_app) as ->
    by (unfold Demo.run_app; rewrite Hrun; reflexivity).
  split; vm_compute; reflexivity.
Qed.

(** C1 (amended): a request that names a package already among the
    processed packages is dropped when an entry of that name is reached
    whose version is not older than the version asked for, the entries of
    that name met before it being strictly older and each drawing a
    version-conflict warning.  When the version asked for is strictly
    newer than every processed entry of that name, a warning is printed
    for each of them and the request is not dropped: if the package is
    gathered it is appended, after the entries of the same name. *)
Theorem newer_version_is_not_dropped (W : World) (follow_extras : bool)
    (default_license : option string) (fuel : nat) (package : string)
    (version : option string) (indent : Z) (extra : option string) (st : state) :
  let package_name := package_name_of package in
  let all_packages := PROCESSED_PACKAGES st ++ packages0 st in
  (∀ l1 q l2 c,
      all_packages = l1 ++ q :: l2 →
      (∀ q', q' ∈ same_name package_name l1 →
             compare_versions version (Package.version q') = Ok 1) →
      Package.name q = package_name →
      compare_versions version (Package.version q) = Ok c → c ≠ 1 →
      get_package_info W follow_extras default_license (S fuel) package version
        PackagesShared indent extra st
      = (Return (packages0 st),
         printed (conflict_warnings package_name version l1) st))
  ∧ ((∀ q, q ∈ same_name package_name all_packages →
           compare_versions version (Package.version q) = Ok 1) →
     check_package_already_processed package_name version
       (PROCESSED_PACKAGES st) (packages0 st) st
     = (Return false,
        printed (conflict_warnings package_name version all_packages) st)
     ∧ ∀ p st2,
         gather W follow_extras default_license package_name version
           (printed (conflict_warnings package_name version all_packages
                     ++ [progress_line package version indent extra]) st)
         = (Return p, st2) →
         ∃ r st' more,
           get_package_info W follow_extras default_license (S fuel) package
             version PackagesShared indent extra st = (r, st')
           ∧ (∀ e, r ≠ Throw e)
           ∧ packages0 st' = packages0 st ++ p :: more
           ∧ PROCESSED_PACKAGES st' = PROCESSED_PACKAGES st ++ p :: more
           ∧ Package.name p = package_name).
Proof.
  intros package_name all_packages. split.
  - intros l1 q l2 c Hall Hold Hq Hc Hne.
    rewrite get_package_info_checked.
    unfold check_package_already_processed.
    fold all_packages. rewrite Hall.
    rewrite (check_loop_older _ _ _ _ _ Hold).
    rewrite (check_loop_hit _ _ _ _ _ c Hq Hc Hne). reflexivity.
  - intros Hold.
    assert (check_package_already_processed package_name version
              (PROCESSED_PACKAGES st) (packages0 st) st
            = (Return false,
               printed (conflict_warnings package_name version all_packages) st))
      as Hcheck.
    { unfold check_package_already_processed. fold all_packages.
      rewrite <- (app_nil_r all_packages) at 1.
      rewrite (check_loop_older _ _ _ _ _ Hold). reflexivity. }
    split; [exact Hcheck|].
    intros p st2 Hg. rewrite get_package_info_checked.
    fold package_name. rewrite Hcheck.
    rewrite <- printed_app in Hg.
    destruct (request_body_appends W follow_extras default_license fuel package
                version indent extra _ _ _ Hg)
      as (r & st' & more & Hrun & Hr & Hp0 & HP & Hn).
    exists r, st', more. repeat split; assumption.
Qed.

Lemma newer_version_is_not_dropped_witness :
  ∃ r st' more,
    get_package_info Demo.world false None 3 "lib" (Some "2.0") PackagesShared 2
      None (Demo.seeded ["lib==1.0"]) = (r, st')
    ∧ map Package.name (PROCESSED_PACKAGES st') = "lib" :: "lib" :: map Package.name more.
Proof.
  destruct (newer_version_is_not_dropped Demo.world false None 2 "lib"
              (Some "2.0") 2 None (Demo.seeded ["lib==1.0"])) as [_ H].
  destruct H as [_ H].
  - intros q Hq. vm_compute in Hq.
    apply list_elem_of_singleton in Hq as ->. vm_compute. reflexivity.
  - edestruct (H (Package.mk "lib" (Some "2.0") "A library" "https://lib.example"
                   "Bob" "bob@lib.example" "BSD" "LICENSE" "0cc175b9" "lib-2.0"
                   "https://files.example/lib-2.0.tar.gz" "d41d8cd9" "e3b0c442"
                   [Dependency.mk "util" None None] []))
      as (r & st' & more & Hrun & _ & _ & HP & _).
    + apply pair_from_fst. vm_compute. reflexivity.
    + exists r, st', more. split; [exact Hrun|].
      rewrite HP. vm_compute. reflexivity.
Defined.



Example existing_package_ex :
  map (fun q => (Package.name q, Package.version q))
      (PROCESSED_PACKAGES (Demo.seeded ["webob==1.8.7"; "six"]))
  = [("webob", Some "1.8.7"); ("six", None)].
Proof. vm_compute. reflexivity. Qed.

(** C9: the skip check does not always reach the entry that would make
    it skip.  With [lib] processed at ["1.0rc1"] and at ["1.0.1"], as
    [parse_existing_packages] leaves them for a file with these two
    lines, a request for [lib] at ["1.0.1"] that is not a root finds its
    name processed at a version that is not older ([compare_versions]
    returns [0] on the second entry), but the comparison with the first
    entry raises [TypeError]: the request is not skipped, it raises into
    the [try] of its parent. *)
Theorem skip_check_raises_before_the_match (W : World) (follow_extras : bool)
    (default_license : option string) (fuel : nat) :
  let st := Demo.seeded ["lib==1.0rc1"; "lib==1.0.1"] in
  map (fun q => (Package.name q, Package.version q))
      (PROCESSED_PACKAGES st ++ packages0 st)
  = [("lib", Some "1.0rc1"); ("lib", Some "1.0.1")]
  ∧ compare_versions (Some "1.0.1") (Some "1.0.1") = Ok 0
  ∧ compare_versions (Some "1.0.1") (Some "1.0rc1") = Raise TypeError
  ∧ get_package_info W follow_extras default_license (S fuel) "lib"
      (Some "1.0.1") PackagesShared 2 None st
    = (Throw TypeError, st).
Proof.
  intros st. split; [vm_compute; reflexivity|].
  split; [reflexivity|]. split; [reflexivity|].
  rewrite get_package_info_checked.
  assert (check_package_already_processed (package_name_of "lib")
            (Some "1.0.1") (PROCESSED_PACKAGES st) (packages0 st) st
          = (Throw TypeError, st)) as ->; [|reflexivity].
  unfold check_package_already_processed.
  assert (PROCESSED_PACKAGES st ++ packages0 st
          = [existing_package "lib==1.0rc1"; existing_package "lib==1.0.1"])
    as -> by (vm_compute; reflexivity).
  apply check_loop_raise; reflexivity.
Qed.

(** C10: a root request is not checked against the processed packages.
    Whatever they hold, the request prints its progress line and gathers
    its package; when the gathering succeeds the package is appended, as
    first element of the new result list and after the processed
    packages.  The same request made for a dependency, in a state where
    the first processed entry of that name is not older, is skipped. *)
Theorem root_request_is_not_checked (W : World) (follow_extras : bool)
    (default_license : option string) (fuel : nat) (package : string)
    (version : option string) (indent : Z) (extra : option string)
    (st st2 : state) (p : Package.t) :
  gather W follow_extras default_license (package_name_of package) version
    (printed [progress_line package version indent extra] (fresh_list st))
  = (Return p, st2) →
  get_package_info W follow_extras default_license (S fuel) package version
    PackagesNone indent extra st
  = request_body W follow_extras default_license fuel package version indent
      extra (fresh_list st)
  ∧ (∃ r st' more,
        get_package_info W follow_extras default_license (S fuel) package
          version PackagesNone indent extra st = (r, st')
        ∧ (∀ e, r ≠ Throw e)
        ∧ packages0 st' = p :: more
        ∧ PROCESSED_PACKAGES st' = PROCESSED_PACKAGES st ++ p :: more
        ∧ Package.name p = package_name_of package)
  ∧ (∀ l1 q l2 c,
        PROCESSED_PACKAGES st ++ packages0 st = l1 ++ q :: l2 →
        same_name (package_name_of package) l1 = [] →
        Package.name q = package_name_of package →
        compare_versions version (Package.version q) = Ok c → c ≠ 1 →
        get_package_info W follow_extras default_license (S fuel) package
          version PackagesShared indent extra st
        = (Return (packages0 st), st)).
Proof.
  intros Hg. split; [apply get_package_info_root|]. split.
  - rewrite get_package_info_root.
    destruct (request_body_appends W follow_extras default_license fuel package
                version indent extra _ _ _ Hg)
      as (r & st' & more & Hrun & Hr & Hp0 & HP & Hn).
    exists r, st', more. repeat split; assumption.
  - intros l1 q l2 c. apply get_package_info_skips.
Qed.

Lemma root_request_is_not_checked_witness :
  ∃ r st' more,
    get_package_info Demo.world false None 1 "lib" (Some "1.0") PackagesNone 0
      None (Demo.seeded ["lib==1.0"]) = (r, st')
    ∧ map Package.name (packages0 st') = "lib" :: map Package.name more
    ∧ map Package.name (PROCESSED_PACKAGES st')
      = "lib" :: "lib" :: map Package.name more
    ∧ get_package_info Demo.world false None 1 "lib" (Some "1.0") PackagesShared
        0 None (Demo.seeded ["lib==1.0"])
      = (Return [], Demo.seeded ["lib==1.0"]).
Proof.
  edestruct (root_request_is_not_checked Demo.world false None 0 "lib"
               (Some "1.0") 0 None (Demo.seeded ["lib==1.0"]))
    as (_ & (r & st' & more & Hrun & _ & Hp0 & HP & Hn) & Hskip).
  - apply pair_from_fst. vm_compute. reflexivity.
  - exists r, st', more. split; [exact Hrun|].
    split; [rewrite Hp0; reflexivity|].
    split; [rewrite HP; vm_compute; reflexivity|].
    apply (Hskip [] (existing_package "lib==1.0") [] 0).
    + vm_compute. reflexivity.
    + reflexivity.
    + reflexivity.
    + reflexivity.
    + discriminate.
Defined.

(** C7, as the specification states it, fails on the empty declared
    license: the normalizer never looks an empty declared license up, so
    the mapping learned for it is not found by the next call, which
    prompts again and stores the new answer under the same key.  After
    the second call the table no longer yields the mapping learned by
    the first. *)
Lemma empty_license_is_learned_again :
  fst asked_once = Return "MIT"
  ∧ LICENSES (snd asked_once) !! Some "" = Some "MIT"
  ∧ fst asked_twice = Return "CLOSED"
  ∧ LICENSES (snd asked_twice) !! Some "" = Some "CLOSED"
  ∧ LICENSES (snd asked_twice) !! Some "" ≠ Some "MIT"
  ∧ stdout (snd asked_twice)
    = [LLicenseFailed (Some ""); LPrompt; LLicenseFailed (Some ""); LPrompt].
Proof.
  assert (LICENSES (snd asked_twice) !! Some "" = Some "CLOSED") as H
    by (vm_compute; reflexivity).
  split; [vm_compute; reflexivity|]. split; [vm_compute; reflexivity|].
  split; [vm_compute; reflexivity|]. split; [exact H|].
  split; [rewrite H; discriminate|vm_compute; reflexivity].
Qed.

(** C7 (amended): when neither the declared license nor any classifier is
    in the table and no default license is configured, the normalizer
    prints the failure, prompts, stores the operator's answer in the table
    under the declared license as it was given, and returns it.  The table
    then maps that key to the answer, and any later call leaves it so
    unless it learns a new answer for the same declared license.  When the
    declared license is not empty and has no surrounding quote, a later
    call with the same declared license returns the learned mapping without
    prompting, and the table maps the key to the answer after every later
    request of the run. *)
Theorem translate_license_learns (license : option string)
    (classifiers : list string) (default_license : option string) (st : state)
    (m : string) (rest : list string) :
  declared_miss (LICENSES st) license →
  (∀ c, c ∈ classifiers → LICENSES st !! Some c = None) →
  Py.truthy default_license = false →
  stdin st = m :: rest →
  ∃ st',
    translate_license license classifiers default_license st = (Return m, st')
    ∧ LICENSES st' = <[license := m]> (LICENSES st)
    ∧ stdout st' = stdout st ++ [LLicenseFailed license; LPrompt]
    ∧ stdin st' = rest
    ∧ LICENSES st' !! license = Some m
    ∧ (∀ l classifiers' d st2 r st3,
         LICENSES st2 !! license = Some m →
         translate_license l classifiers' d st2 = (r, st3) →
         LICENSES st3 !! license = Some m
         ∨ (l = license ∧ ∃ m', r = Return m' ∧ LICENSES st3 !! license = Some m'
                          ∧ head (stdin st2) = Some m'))
    ∧ (∀ l classifiers' d st2,
         license = Some l → l ≠ "" →
         Py.strip Py.dquote (Py.strip Py.squote l) = l →
         LICENSES st2 !! license = Some m →
         translate_license license classifiers' d st2 = (Return m, st2))
    ∧ (∀ l W follow_extras d fuel package version packages indent extra st2 r st3,
         license = Some l → l ≠ "" →
         Py.strip Py.dquote (Py.strip Py.squote l) = l →
         LICENSES st2 !! license = Some m →
         get_package_info W follow_extras d fuel package version packages
           indent extra st2 = (r, st3) →
         LICENSES st3 !! license = Some m).
Proof.
  intros Hmiss Hcls Hd Hin.
  assert (∃ e, table_lookup (LICENSES st) license classifiers = Raise e)
    as [e He].
  { rewrite (table_lookup_miss _ _ _ Hmiss), classifier_lookup_find.
    destruct (find (Py.startswith "License") classifiers) as [c|] eqn:Hc.
    - apply find_some in Hc as [Hc _]. apply list_elem_of_In in Hc.
      unfold getitem. rewrite (Hcls c Hc). eauto.
    - eauto. }
  eexists. split.
  { apply (translate_license_prompts _ _ _ _ e m rest He Hd Hin). }
  simpl. repeat split.
  - apply lookup_insert_eq.
  - intros l classifiers' d st2 r st3 Hk Hrun.
    apply (translate_license_frame l classifiers' d st2 st3 r license m Hrun Hk).
  - intros l classifiers' d st2 -> Hl Hstrip Hk.
    apply translate_license_hit. unfold table_lookup.
    rewrite (declared_lookup_hit _ l m Hl); [reflexivity|].
    rewrite Hstrip. exact Hk.
  - intros l W fe d fuel package version packages indent extra st2 r st3
      -> Hl Hstrip Hk Hrun.
    exact (get_package_info_keeps_learned W fe d l m fuel package version
             packages indent extra st2 st3 r Hl Hstrip Hk Hrun).
Qed.

Lemma translate_license_learns_witness :
  ∃ st',
    translate_license (Some "Custom terms") ["Topic :: Internet"] None
      (initial_state ["CLOSED"]) = (Return "CLOSED", st')
    ∧ LICENSES st' !! Some "Custom terms" = Some "CLOSED"
    ∧ translate_license (Some "Custom terms") [] None st' = (Return "CLOSED", st').
Proof.
  destruct (translate_license_learns (Some "Custom terms") ["Topic :: Internet"]
              None (initial_state ["CLOSED"]) "CLOSED" [])
    as (st' & Hrun & _ & _ & _ & Hk & _ & Hagain & _).
  - intros k Hk. cbv in Hk. injection Hk as <-. vm_compute. reflexivity.
  - intros c Hc. apply list_elem_of_singleton in Hc as ->. vm_compute. reflexivity.
  - reflexivity.
  - reflexivity.
  - exists st'. split; [exact Hrun|]. split; [exact Hk|].
    apply (Hagain "Custom terms" [] None st' eq_refl).
    + discriminate.
    + reflexivity.
    + exact Hk.
Defined.

(** * Properties of recipe names, archives and build dependencies *)

(** ** Strings *)

Lemma app_cons (c : ascii) (s t : string) : String c s +:+ t = String c (s +:+ t).
Proof. reflexivity. Qed.

Lemma app_empty_l (s : string) : "" +:+ s = s.
Proof. reflexivity. Qed.

Lemma app_empty_r (s : string) : s +:+ "" = s.
Proof. induction s as [|c s IH]; [reflexivity|]. rewrite app_cons, IH. reflexivity. Qed.

Lemma app_assoc_str (s t u : string) : (s +:+ t) +:+ u = s +:+ t +:+ u.
Proof.
  induction s as [|c s IH]; [reflexivity|]. rewrite !app_cons, IH. reflexivity.
Qed.

Lemma length_app_str (s t : string) :
  String.length (s +:+ t) = (String.length s + String.length t)%nat.
Proof.
  induction s as [|c s IH]; [reflexivity|]. rewrite app_cons. simpl.
  rewrite IH. reflexivity.
Qed.

Lemma drop_app_length (s t : string) : Str.drop (String.length s) (s +:+ t) = t.
Proof. induction s as [|c s IH]; [reflexivity|]. rewrite app_cons. exact IH. Qed.

Lemma drop_split (n : nat) (s : string) : ∃ pre, s = pre +:+ Str.drop n s.
Proof.
  revert s. induction n as [|n IH]; intros s.
  - exists "". reflexivity.
  - destruct s as [|c s]; [exists ""; reflexivity|].
    destruct (IH s) as [pre Hpre]. exists (String c pre).
    rewrite app_cons. simpl. rewrite <- Hpre. reflexivity.
Qed.

(** [s.endswith(suffix)] holds exactly when [s] is some string followed
    by [suffix]. *)
Lemma endswith_iff (suffix s : string) :
  Str.endswith suffix s = true ↔ ∃ pre, s = pre +:+ suffix.
Proof.
  unfold Str.endswith. split.
  - intros H. apply andb_true_iff in H as [_ H]. apply String.eqb_eq in H.
    destruct (drop_split (String.length s - String.length suffix) s) as [pre Hp].
    exists pre. rewrite H in Hp. exact Hp.
  - intros [pre ->]. apply andb_true_iff. split.
    + apply Nat.leb_le. rewrite length_app_str. lia.
    + rewrite length_app_str.
      replace (String.length pre + String.length suffix - String.length suffix)%nat
        with (String.length pre) by lia.
      rewrite drop_app_length. apply String.eqb_refl.
Qed.

(** Two suffixes of one string: the shorter is a suffix of the longer. *)
Lemma suffixes_nest (p1 s1 p2 s2 : string) :
  p1 +:+ s1 = p2 +:+ s2 → (String.length s1 ≤ String.length s2)%nat →
  ∃ k, s2 = k +:+ s1.
Proof.
  revert p2. induction p1 as [|c p1 IH]; intros p2 H Hlen.
  - rewrite app_empty_l in H. subst s1. rewrite length_app_str in Hlen.
    destruct p2 as [|c p2]; [exists ""; reflexivity|simpl in Hlen; lia].
  - destruct p2 as [|c2 p2].
    + exists (String c p1). rewrite app_empty_l in H. symmetry. exact H.
    + rewrite !app_cons in H. injection H as _ H. exact (IH p2 H Hlen).
Qed.

Lemma endswith_nest (e1 e2 s : string) :
  Str.endswith e1 s = true → Str.endswith e2 s = true →
  Str.endswith e1 e2 = true ∨ Str.endswith e2 e1 = true.
Proof.
  intros [p1 H1]%endswith_iff [p2 H2]%endswith_iff. subst s.
  destruct (Nat.le_ge_cases (String.length e1) (String.length e2)) as [Hle|Hle].
  - left. apply endswith_iff. exact (suffixes_nest _ _ _ _ H2 Hle).
  - right. apply endswith_iff. symmetry in H2. exact (suffixes_nest _ _ _ _ H2 Hle).
Qed.

(** ** [package_to_bb_name] *)

Lemma bb_char_normal (c : ascii) :
  bb_char (bb_char c) = bb_char c ∧ Str.lower_char (bb_char c) = bb_char c
  ∧ bb_char c ≠ "_"%char ∧ bb_char c ≠ "."%char.
Proof.
  destruct c as [[] [] [] [] [] [] [] []]; vm_compute;
    repeat split; try reflexivity; discriminate.
Qed.

Lemma package_to_bb_name_cons (c : ascii) (s : string) :
  package_to_bb_name (String c s) = String (bb_char c) (package_to_bb_name s).
Proof. reflexivity. Qed.

(** X1: a recipe name is in normal form.  [package_to_bb_name] is
    idempotent, keeps the length, and its result holds no underscore, no
    dot and no upper-case letter. *)
Theorem package_to_bb_name_normal (package : string) :
  package_to_bb_name (package_to_bb_name package) = package_to_bb_name package
  ∧ String.length (package_to_bb_name package) = String.length package
  ∧ ¬ Str.has "_" (package_to_bb_name package)
  ∧ ¬ Str.has "." (package_to_bb_name package)
  ∧ Str.lower (package_to_bb_name package) = package_to_bb_name package.
Proof.
  induction package as [|c s (IH1 & IH2 & IH3 & IH4 & IH5)].
  - repeat split; try reflexivity; intros [].
  - rewrite package_to_bb_name_cons.
    destruct (bb_char_normal c) as (Hi & Hl & H_ & Hd).
    repeat split.
    + rewrite package_to_bb_name_cons, Hi, IH1. reflexivity.
    + simpl. rewrite IH2. reflexivity.
    + intros [H|H]; [exact (H_ H)|exact (IH3 H)].
    + intros [H|H]; [exact (Hd H)|exact (IH4 H)].
    + simpl. rewrite Hl, IH5. reflexivity.
Qed.

(** ** [get_file_extension] and [pkg_size] *)

Lemma first_extension_Ok (exts : list string) (uri e : string) :
  first_extension exts uri = Ok e → e ∈ exts ∧ Str.endswith e uri = true.
Proof.
  induction exts as [|x exts IH]; simpl; [discriminate|].
  destruct (Str.endswith x uri) eqn:Hx.
  - intros [= <-]. split; [left|exact Hx].
  - intros H. destruct (IH H) as [Hin He]. split; [right; exact Hin|exact He].
Qed.

Lemma first_extension_some (exts : list string) (uri e : string) :
  e ∈ exts → Str.endswith e uri = true → ∃ e', first_extension exts uri = Ok e'.
Proof.
  induction exts as [|x exts IH]; intros Hin He; [inversion Hin|]. simpl.
  destruct (Str.endswith x uri) eqn:Hx; [eauto|].
  apply elem_of_cons in Hin as [->|Hin]; [congruence|exact (IH Hin He)].
Qed.

Lemma first_extension_Raise (exts : list string) (uri : string) (x : exn) :
  first_extension exts uri = Raise x →
  x = Exception ("Extension not supported: " +:+ uri)
  ∧ ∀ e, e ∈ exts → Str.endswith e uri = false.
Proof.
  induction exts as [|y exts IH]; simpl.
  - intros [= <-]. split; [reflexivity|]. intros e H. inversion H.
  - destruct (Str.endswith y uri) eqn:Hy; [discriminate|].
    intros H. destruct (IH H) as [Hx Hall]. split; [exact Hx|].
    intros e [->|Hin]%elem_of_cons; [exact Hy|exact (Hall e Hin)].
Qed.

(** No extension of the list ends another one. *)
Lemma extensions_exclusive (e1 e2 : string) :
  e1 ∈ extensions → e2 ∈ extensions → Str.endswith e1 e2 = true → e1 = e2.
Proof.
  unfold extensions. intros H1 H2.
  repeat (apply elem_of_cons in H1 as [->|H1]); [| | | | |inversion H1];
    repeat (apply elem_of_cons in H2 as [->|H2]);
    try (inversion H2; fail); vm_compute; congruence.
Qed.

(** X2: the archive extension of a URI does not depend on the order of
    the list: [get_file_extension] returns [e] exactly when [e] is one of
    the five extensions and ends the URI (no URI ends with two of them),
    and it raises exactly when none of them ends the URI. *)
Theorem get_file_extension_iff (uri : string) :
  (∀ e, get_file_extension uri = Ok e
        ↔ e ∈ extensions ∧ Str.endswith e uri = true)
  ∧ (∀ x, get_file_extension uri = Raise x
          ↔ x = Exception ("Extension not supported: " +:+ uri)
            ∧ ∀ e, e ∈ extensions → Str.endswith e uri = false).
Proof.
  unfold get_file_extension. split.
  - intros e. split; [apply first_extension_Ok|].
    intros [Hin He].
    destruct (first_extension_some _ _ _ Hin He) as [e' He'].
    rewrite He'. f_equal.
    destruct (first_extension_Ok _ _ _ He') as [Hin' He''].
    destruct (endswith_nest e e' uri He He'') as [H|H].
    + symmetry. exact (extensions_exclusive _ _ Hin Hin' H).
    + exact (extensions_exclusive _ _ Hin' Hin H).
  - intros x. split; [apply first_extension_Raise|].
    intros [-> Hall].
    destruct (first_extension extensions uri) as [e|x] eqn:H.
    + destruct (first_extension_Ok _ _ _ H) as [Hin He].
      rewrite (Hall e Hin) in He. discriminate He.
    + destruct (first_extension_Raise _ _ _ H) as [-> _]. reflexivity.
Qed.

Ltac in_list := repeat first [apply list_elem_of_here|apply list_elem_of_further].

Ltac not_in_list H :=
  repeat (apply elem_of_cons in H as [H|H]; [discriminate H|]); inversion H.

Lemma ends_with_one_of_true (exts : list string) (u : string) :
  ends_with_one_of exts u = true ↔ ∃ e, e ∈ exts ∧ Str.endswith e u = true.
Proof.
  induction exts as [|x exts IH]; simpl.
  - split; [discriminate|]. intros (e & H & _). inversion H.
  - rewrite orb_true_iff, IH. split.
    + intros [H|(e & Hin & He)]; [exists x; split; [left|exact H]|].
      exists e. split; [right; exact Hin|exact He].
    + intros (e & [->|Hin]%elem_of_cons & He); [left; exact He|].
      right. exists e. auto.
Qed.

(** X3: [pkg_size] ranks a file by what [get_file_extension] makes of its
    URL: the nominal size for a tar archive, ten times the size for a zip
    archive, ten thousand times the size for a URL that
    [get_file_extension] rejects.  For a size that is not negative the
    rank is between the size and ten thousand times the size. *)
Theorem pkg_size_by_extension (pkg : RFile) :
  (∀ e, get_file_extension (url pkg) = Ok e → e ≠ "zip" → pkg_size pkg = size pkg)
  ∧ (get_file_extension (url pkg) = Ok "zip" → pkg_size pkg = size pkg * 10)
  ∧ (∀ x, get_file_extension (url pkg) = Raise x →
          pkg_size pkg = size pkg * 10000)
  ∧ (0 ≤ size pkg → size pkg ≤ pkg_size pkg ≤ size pkg * 10000).
Proof.
  destruct (get_file_extension_iff (url pkg)) as [HOk HRaise].
  assert (∀ e, e ∈ extensions → e ≠ "zip" →
               e ∈ ["tar"; "tar.gz"; "tar.bz2"; "tar.xz"]) as Htar.
  { unfold extensions. intros e He Hz.
    repeat (apply elem_of_cons in He as [->|He]); [| | | | |inversion He];
      try congruence; in_list. }
  assert (∀ e, e ∈ ["tar"; "tar.gz"; "tar.bz2"; "tar.xz"] → e ∈ extensions)
    as Hext.
  { unfold extensions. intros e He.
    repeat (apply elem_of_cons in He as [->|He]); [| | | |inversion He]; in_list. }
  assert (ends_with_one_of ["tar"; "tar.gz"; "tar.bz2"; "tar.xz"] (url pkg) = true
          → Str.endswith "zip" (url pkg) = true → False) as Hexcl.
  { intros (e & Hin & He)%ends_with_one_of_true Hz.
    assert ("zip" ∈ extensions) as Hzin by (unfold extensions; in_list).
    destruct (endswith_nest e "zip" (url pkg) He Hz) as [H|H].
    - apply (extensions_exclusive _ _ (Hext e Hin) Hzin) in H. subst e.
      not_in_list Hin.
    - apply (extensions_exclusive _ _ Hzin (Hext e Hin)) in H. subst e.
      not_in_list Hin. }
  unfold pkg_size. repeat split.
  - intros e [Hin He]%HOk Hz.
    assert (ends_with_one_of ["tar"; "tar.gz"; "tar.bz2"; "tar.xz"] (url pkg)
            = true) as ->; [|reflexivity].
    apply ends_with_one_of_true. exists e. split; [exact (Htar e Hin Hz)|exact He].
  - intros [_ Hz]%HOk.
    destruct (ends_with_one_of _ (url pkg)) eqn:Ht.
    + exfalso. exact (Hexcl eq_refl Hz).
    + rewrite Hz. reflexivity.
  - intros x [_ Hall]%HRaise.
    destruct (ends_with_one_of _ (url pkg)) eqn:Ht.
    + apply ends_with_one_of_true in Ht as (e & Hin & He).
      rewrite (Hall e (Hext e Hin)) in He. discriminate He.
    + rewrite (Hall "zip") by (unfold extensions; in_list). reflexivity.
  - destruct (ends_with_one_of _ (url pkg)); [lia|].
    destruct (Str.endswith "zip" (url pkg)); lia.
  - destruct (ends_with_one_of _ (url pkg)); [lia|].
    destruct (Str.endswith "zip" (url pkg)); lia.
Qed.

Lemma pkg_size_by_extension_witness :
  1000 ≤ pkg_size (mkRFile "https://files.example/app-1.0.tar.gz" "sdist" 1000)
       ≤ 1000 * 10000.
Proof.
  apply (proj2 (proj2 (proj2 (pkg_size_by_extension
           (mkRFile "https://files.example/app-1.0.tar.gz" "sdist" 1000))))).
  simpl. lia.
Defined.

Lemma get_file_extension_iff_witness :
  get_file_extension "https://files.example/app-1.0.tar.gz" = Ok "tar.gz".
Proof.
  apply (proj1 (get_file_extension_iff "https://files.example/app-1.0.tar.gz")).
  split; [unfold extensions; in_list|reflexivity].
Defined.

(** ** [package_to_bb_build_depends] *)

Lemma hd_split_before (sep : ascii) (s : string) :
  hd "" (Py.split sep s) = before (fun d => Ascii.eqb d sep) s.
Proof.
  induction s as [|c s IH]; simpl; [reflexivity|].
  destruct (Ascii.eqb c sep); [reflexivity|].
  destruct (Py.split sep s) as [|p ps]; simpl in *; rewrite <- IH; reflexivity.
Qed.

Lemma before_before (P Q : ascii → bool) (s : string) :
  before Q (before P s) = before (fun c => P c || Q c) s.
Proof.
  induction s as [|c s IH]; simpl; [reflexivity|].
  destruct (P c); simpl; [reflexivity|].
  destruct (Q c); [reflexivity|]. rewrite IH. reflexivity.
Qed.

Lemma before_ext (P Q : ascii → bool) (s : string) :
  (∀ c, P c = Q c) → before P s = before Q s.
Proof.
  intros H. induction s as [|c s IH]; simpl; [reflexivity|].
  rewrite H, IH. reflexivity.
Qed.

Lemma requirement_name_before (package_name : string) :
  requirement_name package_name = strip_space (before is_specifier package_name).
Proof.
  unfold requirement_name. rewrite !hd_split_before, !before_before.
  f_equal. apply before_ext. intros c. unfold is_specifier.
  rewrite !orb_assoc. reflexivity.
Qed.

Lemma before_app_stop (P : ascii → bool) (name rest : string) (c : ascii) :
  none_of P name = true → P c = true →
  before P (name +:+ String c rest) = name.
Proof.
  intros Hn Hc. induction name as [|d name IH].
  - rewrite app_empty_l. simpl. rewrite Hc. reflexivity.
  - rewrite app_cons. simpl in *. apply andb_true_iff in Hn as [Hd Hn].
    apply negb_true_iff in Hd. rewrite Hd, (IH Hn). reflexivity.
Qed.

Lemma before_none (P : ascii → bool) (name : string) :
  none_of P name = true → before P name = name.
Proof.
  induction name as [|d name IH]; simpl; [reflexivity|].
  intros [Hd Hn]%andb_true_iff. apply negb_true_iff in Hd.
  rewrite Hd, (IH Hn). reflexivity.
Qed.

(** X4: a build dependency is named after what precedes the first of the
    characters [<], [>], [~] and [=], with the whitespace around it
    removed: the four [split] calls amount to one scan.  Hence a version
    specifier that follows the name is dropped. *)
Theorem build_depends_drops_specifier (package_name : string) :
  package_to_bb_build_depends package_name
  = "${PYTHON_PN}-"
    +:+ package_to_bb_name (strip_space (before is_specifier package_name))
    +:+ "-native"
  ∧ ∀ name rest c,
      package_name = name +:+ String c rest →
      none_of is_specifier name = true → is_specifier c = true →
      package_to_bb_build_depends package_name
      = package_to_bb_build_depends name.
Proof.
  split.
  - unfold package_to_bb_build_depends. rewrite requirement_name_before.
    reflexivity.
  - intros name rest c -> Hn Hc. unfold package_to_bb_build_depends.
    rewrite !requirement_name_before.
    rewrite (before_app_stop _ _ _ _ Hn Hc), (before_none _ _ Hn). reflexivity.
Qed.

Lemma build_depends_drops_specifier_witness :
  package_to_bb_build_depends "setuptools_scm >= 3.4"
  = package_to_bb_build_depends "setuptools_scm ".
Proof.
  apply (proj2 (build_depends_drops_specifier "setuptools_scm >= 3.4")
           "setuptools_scm " "= 3.4" ">"%char).
  - reflexivity.
  - reflexivity.
  - reflexivity.
Defined.

(** * Properties of dependencies and of the skip check *)

(** ** [get_package_dependencies] *)

Lemma filter_followed_true (ds : list Dependency.t) :
  List.filter (followed true) ds = ds.
Proof.
  induction ds as [|d ds IH]; simpl; [reflexivity|].
  unfold followed at 1. rewrite andb_false_r. simpl. rewrite IH. reflexivity.
Qed.

Lemma get_package_dependencies_filter (W : World) (follow_extras : bool)
    (requires_dist : list string) :
  get_package_dependencies W follow_extras requires_dist
  = (ds ← parse_all W requires_dist; Ok (List.filter (followed follow_extras) ds)).
Proof.
  induction requires_dist as [|dep rest IH]; simpl; [reflexivity|].
  destruct (parse_requires_dist W dep) as [d|e]; simpl; [|reflexivity].
  rewrite IH. destruct (parse_all W rest) as [ds|e]; simpl; [|reflexivity].
  unfold followed.
  destruct (Py.truthy (Dependency.extra d) && negb follow_extras); reflexivity.
Qed.

(** X5: the loop of [get_package_dependencies] parses every specifier and
    then keeps, in order, the dependencies that have no extra or, when
    extras are followed, all of them; it raises what the first specifier
    that does not parse raises, also when that specifier would have been
    left out.  Without extras followed no dependency returned carries an
    extra. *)
Theorem get_package_dependencies_gates_extras (W : World) (follow_extras : bool)
    (requires_dist : list string) :
  get_package_dependencies W follow_extras requires_dist
  = (ds ← parse_all W requires_dist; Ok (List.filter (followed follow_extras) ds))
  ∧ get_package_dependencies W true requires_dist = parse_all W requires_dist
  ∧ (∀ deps d,
       get_package_dependencies W false requires_dist = Ok deps → d ∈ deps →
       Py.truthy (Dependency.extra d) = false)
  ∧ (∀ e, get_package_dependencies W follow_extras requires_dist = Raise e
          ↔ parse_all W requires_dist = Raise e).
Proof.
  split; [apply get_package_dependencies_filter|]. split; [|split].
  - rewrite get_package_dependencies_filter.
    destruct (parse_all W requires_dist) as [ds|e]; simpl; [|reflexivity].
    rewrite filter_followed_true. reflexivity.
  - intros deps d. rewrite get_package_dependencies_filter.
    destruct (parse_all W requires_dist) as [ds|e]; simpl; [|discriminate].
    intros [= <-] Hd. apply list_elem_of_In, List.filter_In in Hd as [_ Hd].
    unfold followed in Hd. rewrite andb_true_r in Hd.
    apply negb_true_iff in Hd. exact Hd.
  - intros e. rewrite get_package_dependencies_filter.
    destruct (parse_all W requires_dist) as [ds|e']; simpl;
      split; intros H; try discriminate H; exact H.
Qed.

Lemma get_package_dependencies_gates_extras_witness :
  Py.truthy (Dependency.extra (Dependency.mk "lib" (Some "1.0") None)) = false.
Proof.
  apply (proj1 (proj2 (proj2 (get_package_dependencies_gates_extras Demo.world
           false ["lib==1.0"; "pytest ; extra == 'dev'"])))
           [Dependency.mk "lib" (Some "1.0") None]).
  - reflexivity.
  - in_list.
Defined.

(** ** [check_package_already_processed] *)

Lemma compare_versions_falsy (version found : option string) :
  Py.truthy version = false → compare_versions version found = Ok (-1).
Proof. intros H. unfold compare_versions. rewrite H. reflexivity. Qed.

Lemma check_loop_unpinned (package_name : string) (version : option string)
    (l : list Package.t) (st : state) :
  Py.truthy version = false →
  (∃ q, q ∈ l ∧ Package.name q = package_name) →
  check_loop package_name version l st = (Return true, st).
Proof.
  intros Hv. induction l as [|q l IH]; intros (q' & Hin & Hn).
  - inversion Hin.
  - simpl. destruct (String.eqb package_name (Package.name q)) eqn:He.
    + rewrite (compare_versions_falsy _ _ Hv). reflexivity.
    + apply IH. apply elem_of_cons in Hin as [->|Hin]; [|eauto].
      subst package_name. rewrite String.eqb_refl in He. discriminate He.
Qed.

(** X6: a request without a version for a name that is among the
    processed packages is always skipped, silently and whatever versions
    the entries of that name hold (none is compared, so none of them can
    make the check raise).  Such is the request for a dependency whose
    specifier has no version, or whose first relation is neither [==] nor
    [<=]: [decide_version] leaves it without a version. *)
Theorem unpinned_request_is_skipped (W : World) (follow_extras : bool)
    (default_license : option string) (fuel : nat) (package : string)
    (version : option string) (indent : Z) (extra : option string) (st : state) :
  Py.truthy version = false →
  (∃ q, q ∈ PROCESSED_PACKAGES st ++ packages0 st
        ∧ Package.name q = package_name_of package) →
  check_package_already_processed (package_name_of package) version
    (PROCESSED_PACKAGES st) (packages0 st) st = (Return true, st)
  ∧ get_package_info W follow_extras default_license (S fuel) package version
      PackagesShared indent extra st = (Return (packages0 st), st)
  ∧ ∀ relation v rest,
      relation ≠ "==" → relation ≠ "<=" →
      get_package_info W follow_extras default_license (S fuel) package
        (decide_version ((relation, v) :: rest)) PackagesShared indent extra st
      = (Return (packages0 st), st).
Proof.
  intros Hv Hq.
  assert (∀ version', Py.truthy version' = false →
            get_package_info W follow_extras default_license (S fuel) package
              version' PackagesShared indent extra st
            = (Return (packages0 st), st)) as Hskip.
  { intros version' Hv'. rewrite get_package_info_checked.
    unfold check_package_already_processed.
    rewrite (check_loop_unpinned _ _ _ _ Hv' Hq). reflexivity. }
  split; [apply (check_loop_unpinned _ _ _ _ Hv Hq)|].
  split; [exact (Hskip version Hv)|].
  intros relation v rest H1 H2. apply Hskip. simpl.
  apply String.eqb_neq in H1, H2. rewrite H1, H2.
  destruct (String.eqb relation ">="); reflexivity.
Qed.

Lemma unpinned_request_is_skipped_witness :
  get_package_info Demo.world false None 1 "six" None PackagesShared 2 None
    (Demo.seeded ["six"])
  = (Return [], Demo.seeded ["six"]).
Proof.
  destruct (unpinned_request_is_skipped Demo.world false None 0 "six" None 2
              None (Demo.seeded ["six"])) as (_ & H & _).
  - reflexivity.
  - exists (existing_package "six"). split; [vm_compute; in_list|reflexivity].
  - exact H.
Defined.

Lemma check_loop_outcome (package_name : string) (version : option string)
    (l : list Package.t) (st st' : state) (r : outcome bool) :
  check_loop package_name version l st = (r, st') →
  ∃ l1 l2,
    l = l1 ++ l2
    ∧ st' = printed (conflict_warnings package_name version l1) st
    ∧ (∀ q, q ∈ same_name package_name l1 →
            compare_versions version (Package.version q) = Ok 1)
    ∧ match r with
      | Return false => l2 = []
      | Return true =>
          ∃ q l2' c, l2 = q :: l2' ∧ Package.name q = package_name
                     ∧ compare_versions version (Package.version q) = Ok c
                     ∧ c ≠ 1
      | Throw e =>
          ∃ q l2', l2 = q :: l2' ∧ Package.name q = package_name
                   ∧ compare_versions version (Package.version q) = Raise e
      | OutOfFuel => False
      end.
Proof.
  revert st. induction l as [|q l IH]; intros st H.
  - injection H as <- <-. exists [], []. rewrite printed_nil.
    repeat split; try reflexivity. intros q H. inversion H.
  - simpl in H. destruct (String.eqb package_name (Package.name q)) eqn:Hn.
    + apply String.eqb_eq in Hn. subst package_name.
      destruct (compare_versions version (Package.version q)) as [c|e] eqn:Hc.
      * simpl in H. unfold mbind, M_bind in H. simpl in H.
        destruct (negb (c =? 1)) eqn:Hc1.
        -- injection H as <- <-. exists [], (q :: l). rewrite printed_nil.
           repeat split; [intros ? H; inversion H|].
           exists q, l, c. repeat split; auto.
           apply negb_true_iff, Z.eqb_neq in Hc1. exact Hc1.
        -- apply negb_false_iff, Z.eqb_eq in Hc1. subst c.
           destruct (IH _ H) as (l1 & l2 & Hl & Hst & Hold & Hr).
           exists (q :: l1), l2. split; [rewrite Hl; reflexivity|]. split.
           { rewrite Hst. unfold printed, conflict_warnings, same_name. simpl.
             rewrite String.eqb_refl. simpl.
             rewrite <- app_assoc. reflexivity. }
           split; [|exact Hr].
           intros q' Hq'. unfold same_name in Hq'. simpl in Hq'.
           rewrite String.eqb_refl in Hq'.
           apply elem_of_cons in Hq' as [->|Hq']; [exact Hc|exact (Hold q' Hq')].
      * injection H as <- <-. exists [], (q :: l). rewrite printed_nil.
        repeat split; [intros ? H; inversion H|].
        exists q, l. repeat split; auto.
    + destruct (IH _ H) as (l1 & l2 & Hl & Hst & Hold & Hr).
      exists (q :: l1), l2. split; [rewrite Hl; reflexivity|]. split.
      { rewrite Hst. unfold conflict_warnings, same_name. simpl. rewrite Hn.
        reflexivity. }
      split; [|exact Hr].
      intros q' Hq'. unfold same_name in Hq'. simpl in Hq'. rewrite Hn in Hq'.
      exact (Hold q' Hq').
Qed.

(** X7: the skip check only reads the processed packages and prints
    conflict warnings.  Whatever its outcome, it went through a prefix of
    the entries, printed one warning for each entry of the prefix that
    bears the name, each of them strictly older than the version asked
    for, and changed nothing else; it returns [False] at the end of the
    entries, [True] at an entry of the name that is not older, and raises
    at an entry of the name on which [compare_versions] raises. *)
Theorem check_only_warns (package_name : string) (version : option string)
    (processed packages : list Package.t) (st st' : state) (r : outcome bool) :
  check_package_already_processed package_name version processed packages st
  = (r, st') →
  ∃ l1 l2,
    processed ++ packages = l1 ++ l2
    ∧ st' = printed (conflict_warnings package_name version l1) st
    ∧ (∀ q, q ∈ same_name package_name l1 →
            compare_versions version (Package.version q) = Ok 1)
    ∧ match r with
      | Return false => l2 = []
      | Return true =>
          ∃ q l2' c, l2 = q :: l2' ∧ Package.name q = package_name
                     ∧ compare_versions version (Package.version q) = Ok c
                     ∧ c ≠ 1
      | Throw e =>
          ∃ q l2', l2 = q :: l2' ∧ Package.name q = package_name
                   ∧ compare_versions version (Package.version q) = Raise e
      | OutOfFuel => False
      end.
Proof. apply check_loop_outcome. Qed.

Lemma check_only_warns_witness :
  ∃ l1 l2,
    [existing_package "lib==1.0"; existing_package "lib==3.0"] = l1 ++ l2
    ∧ stdout (snd (check_package_already_processed "lib" (Some "2.0")
                     [existing_package "lib==1.0"; existing_package "lib==3.0"]
                     [] (initial_state [])))
      = [LWarning "lib" (Some "2.0") (Some "1.0")].
Proof.
  destruct (check_only_warns "lib" (Some "2.0")
              [existing_package "lib==1.0"; existing_package "lib==3.0"] []
              (initial_state [])
              (snd (check_package_already_processed "lib" (Some "2.0")
                      [existing_package "lib==1.0"; existing_package "lib==3.0"]
                      [] (initial_state [])))
              (Return true))
    as (l1 & l2 & Hl & _ & _ & _).
  - apply pair_from_fst. vm_compute. reflexivity.
  - exists l1, l2. split; [exact Hl|]. vm_compute. reflexivity.
Defined.

(** ** Relations kept by the requests of a run *)

Lemma preserves_bind_returned {A B} (R : state → state → Prop) `{!Transitive R}
    (m : M A) (f : A → M B) :
  preserves R m →
  (∀ a, (∃ st st1, m st = (Return a, st1)) → preserves R (f a)) →
  preserves R (x ← m; f x).
Proof.
  intros Hm Hf st r st' H.
  destruct (bind_inv _ _ _ _ _ H) as [(a & st1 & H1 & H2)|[(e & H1 & _)|[H1 _]]].
  - transitivity st1; [exact (Hm _ _ _ H1)|].
    exact (Hf a (ex_intro _ st (ex_intro _ st1 H1)) _ _ _ H2).
  - exact (Hm _ _ _ H1).
  - exact (Hm _ _ _ H1).
Qed.

Section RunInvariant.

Context (W : World) (follow_extras : bool) (default_license : option string).
Context (R : state → state → Prop) `{!PreOrder R}.
Hypothesis R_print : ∀ l, asks l = false → preserves R (print l).
Hypothesis R_translate :
  ∀ license classifiers,
    preserves R (translate_license license classifiers default_license).
Hypothesis R_append :
  ∀ p, gathered W follow_extras default_license p →
       preserves R (append_package p).

Lemma gather_keeps (package_name : string) (version : option string) :
  preserves R (gather W follow_extras default_license package_name version).
Proof.
  unfold gather. apply preserves_bind; [apply _| |].
  { unfold concrete_version. destruct version as [v|]; [|apply preserves_ret, _].
    destruct (Py.truthy (Some v) && Py.contains "*" v); [|apply preserves_ret, _].
    apply preserves_bind; [apply _|apply preserves_lift, _|]. intros info.
    apply preserves_bind; [apply _|apply R_print; reflexivity|]. intros _.
    apply preserves_bind; [apply _|apply preserves_lift, _|]. intros keys.
    apply preserves_bind; [apply _|apply preserves_lift, _|]. intros chosen.
    apply preserves_ret, _. }
  intros asked.
  apply preserves_bind; [apply _|apply preserves_lift, _|]. intros info.
  apply preserves_bind; [apply _|apply R_translate|]. intros l.
  apply preserves_bind; [apply _|apply preserves_lift, _|]. intros src_uri.
  apply preserves_bind; [apply _|apply preserves_lift, _|]. intros fi.
  apply preserves_bind; [apply _| |].
  { destruct (info_requires_dist info);
      [apply preserves_ret, _|apply preserves_lift, _]. }
  intros requires_dist.
  apply preserves_bind; [apply _|apply preserves_lift, _|]. intros deps.
  apply preserves_ret, _.
Qed.

Lemma check_loop_keeps (package_name : string) (version : option string)
    (l : list Package.t) :
  preserves R (check_loop package_name version l).
Proof.
  induction l as [|q l IH]; simpl; [apply preserves_ret, _|].
  destruct (String.eqb package_name (Package.name q)); [|exact IH].
  apply preserves_bind; [apply _|apply preserves_lift, _|]. intros r.
  destruct (negb (r =? 1)); [apply preserves_ret, _|].
  apply preserves_bind; [apply _|apply R_print; reflexivity|]. intros _. exact IH.
Qed.

Lemma request_body_keeps (fuel : nat) (package : string)
    (version : option string) (indent : Z) (extra : option string) :
  (∀ package version indent extra,
      preserves R (get_package_info W follow_extras default_license fuel package
                     version PackagesShared indent extra)) →
  preserves R (request_body W follow_extras default_license fuel package version
                 indent extra).
Proof.
  intros IH. unfold request_body.
  apply preserves_bind; [apply _|apply R_print; reflexivity|].
  intros _. apply preserves_bind; [apply _| |].
  2:{ intros _. apply preserves_bind; [apply _|apply get_preserves, _|].
      intros st. apply preserves_ret, _. }
  apply preserves_try_except; [apply _| |intros e; apply R_print; reflexivity].
  apply preserves_bind_returned; [apply _|apply gather_keeps|].
  intros p (st & st1 & Hg).
  apply preserves_try_except; [apply _| |intros e; apply R_print; reflexivity].
  apply preserves_bind; [apply _| |].
  { apply R_append. exists (package_name_of package), version, st, st1. exact Hg. }
  intros _. unfold walk. apply preserves_for_each; [apply _|].
  intros d _. apply IH.
Qed.

Lemma get_package_info_keeps (fuel : nat) (package : string)
    (version : option string) (indent : Z) (extra : option string) :
  preserves R (get_package_info W follow_extras default_license fuel package
                 version PackagesShared indent extra).
Proof.
  revert package version indent extra.
  induction fuel as [|fuel IH]; intros package version indent extra st r st' H.
  - injection H as <- <-. reflexivity.
  - rewrite get_package_info_checked in H.
    destruct (check_package_already_processed _ _ _ _ st) as [o st1] eqn:Hc.
    apply check_loop_keeps in Hc.
    destruct o as [[|]|e|].
    + injection H as <- <-. exact Hc.
    + transitivity st1; [exact Hc|].
      exact (request_body_keeps fuel _ _ _ _ IH _ _ _ H).
    + injection H as <- <-. exact Hc.
    + injection H as <- <-. exact Hc.
Qed.

Lemma get_package_info_root_keeps (fuel : nat) (package : string)
    (version : option string) (indent : Z) (extra : option string)
    (st st' : state) (r : outcome (list Package.t)) :
  get_package_info W follow_extras default_license (S fuel) package version
    PackagesNone indent extra st = (r, st') →
  R (fresh_list st) st'.
Proof.
  rewrite get_package_info_root. intros H.
  refine (request_body_keeps fuel _ _ _ _ _ _ _ _ H).
  intros. apply get_package_info_keeps.
Qed.

End RunInvariant.

(** ** What a run appends *)

#[global] Instance extended_with_preorder (P : Package.t → Prop) :
  PreOrder (extended_with P).
Proof.
  split.
  - intros st. exists []. split; [|constructor].
    split; rewrite app_nil_r; reflexivity.
  - intros a b c (n1 & [H1 H2] & F1) (n2 & [H3 H4] & F2). exists (n1 ++ n2).
    split; [split; rewrite app_assoc; congruence|].
    apply Forall_app. auto.
Qed.

Lemma same_lists_extended_with (P : Package.t → Prop) (st st' : state) :
  same_lists st st' → extended_with P st st'.
Proof.
  intros [H1 H2]. exists []. split; [|constructor].
  split; rewrite app_nil_r; assumption.
Qed.

(** What every gathered package is like. *)
Lemma gathered_package (W : World) (follow_extras : bool)
    (default_license : option string) (p : Package.t) :
  gathered W follow_extras default_license p →
  is_Some (Package.version p)
  ∧ (follow_extras = false →
     ∀ d, d ∈ Package.dependencies p → Py.truthy (Dependency.extra d) = false).
Proof.
  intros (name & version & st & st' & Hg).
  apply gather_inv in Hg as (asked & st1 & info & rd & _ & _ & Hv & _ & Hdeps).
  split; [rewrite Hv; eauto|].
  intros -> d Hd. rewrite get_package_dependencies_filter in Hdeps.
  destruct (parse_all W rd) as [ds|e]; simpl in Hdeps; [|discriminate Hdeps].
  injection Hdeps as Hdeps. rewrite <- Hdeps in Hd.
  apply list_elem_of_In, List.filter_In in Hd as [_ Hd].
  unfold followed in Hd. rewrite andb_true_r in Hd.
  apply negb_true_iff in Hd. exact Hd.
Qed.

Lemma get_package_info_extended_with (W : World) (follow_extras : bool)
    (default_license : option string) (fuel : nat) (package : string)
    (version : option string) (packages : packages_arg) (indent : Z)
    (extra : option string) (st st' : state) (r : outcome (list Package.t)) :
  get_package_info W follow_extras default_license (S fuel) package version
    packages indent extra st = (r, st') →
  extended_with (gathered W follow_extras default_license)
    (match packages with PackagesNone => fresh_list st | PackagesShared => st end)
    st'.
Proof.
  assert (∀ l, asks l = false →
               preserves (extended_with (gathered W follow_extras default_license))
                         (print l)) as Hprint.
  { intros l _. eapply preserves_weaken;
      [apply same_lists_extended_with|apply print_same_lists]. }
  assert (∀ license classifiers,
            preserves (extended_with (gathered W follow_extras default_license))
              (translate_license license classifiers default_license)) as Htl.
  { intros. eapply preserves_weaken;
      [apply same_lists_extended_with|apply translate_license_same_lists]. }
  assert (∀ p, gathered W follow_extras default_license p →
            preserves (extended_with (gathered W follow_extras default_license))
              (append_package p)) as Happ.
  { intros p Hp st0 r0 st1 [= <- <-]. exists [p].
    split; [split; reflexivity|]. constructor; [exact Hp|constructor]. }
  destruct packages.
  - apply (get_package_info_root_keeps W follow_extras default_license _
             Hprint Htl Happ).
  - apply (get_package_info_keeps W follow_extras default_license _
             Hprint Htl Happ).
Qed.

(** X8: a request only appends, and the same packages to
    [PROCESSED_PACKAGES] and to the list object [packages[0]]; neither
    list loses or reorders an entry.  The list a request returns is
    [packages[0]]; for a root request it is exactly what the request added
    to [PROCESSED_PACKAGES]. *)
Theorem request_only_appends (W : World) (follow_extras : bool)
    (default_license : option string) (fuel : nat) (package : string)
    (version : option string) (packages : packages_arg) (indent : Z)
    (extra : option string) (st st' : state) (r : outcome (list Package.t)) :
  get_package_info W follow_extras default_license (S fuel) package version
    packages indent extra st = (r, st') →
  ∃ new,
    PROCESSED_PACKAGES st' = PROCESSED_PACKAGES st ++ new
    ∧ packages0 st'
      = match packages with
        | PackagesNone => new
        | PackagesShared => packages0 st ++ new
        end
    ∧ ∀ l, r = Return l →
           l = packages0 st'
           ∧ (packages = PackagesNone →
              PROCESSED_PACKAGES st' = PROCESSED_PACKAGES st ++ l).
Proof.
  intros H.
  destruct (get_package_info_extended_with _ _ _ _ _ _ _ _ _ _ _ _ H)
    as (new & [HP Hp0] & _).
  exists new. split; [destruct packages; exact HP|].
  split; [destruct packages; exact Hp0|].
  intros l ->. pose proof (get_package_info_Return _ _ _ _ _ _ _ _ _ _ _ _ H) as ->.
  split; [reflexivity|]. intros ->. rewrite Hp0. exact HP.
Qed.

Lemma request_only_appends_witness :
  ∃ new,
    PROCESSED_PACKAGES (snd Demo.run_app) = [] ++ new
    ∧ packages0 (snd Demo.run_app) = new
    ∧ map Package.name new = ["app"; "lib"; "lib"; "util"].
Proof.
  destruct (request_only_appends Demo.world false None 4 "app" None PackagesNone
              0 None (initial_state []) (snd Demo.run_app) (fst Demo.run_app))
    as (new & HP & Hp0 & _).
  - unfold Demo.run_app. apply surjective_pairing.
  - exists new. split; [exact HP|]. split; [exact Hp0|].
    rewrite <- Hp0. vm_compute. reflexivity.
Defined.

(** X9: every package a request appends has a version (only packages read
    by [parse_existing_packages] have none), and, when extras are not
    followed, records no dependency that carries an extra. *)
Theorem appended_packages_are_gated (W : World) (follow_extras : bool)
    (default_license : option string) (fuel : nat) (package : string)
    (version : option string) (packages : packages_arg) (indent : Z)
    (extra : option string) (st st' : state) (r : outcome (list Package.t)) :
  get_package_info W follow_extras default_license (S fuel) package version
    packages indent extra st = (r, st') →
  ∃ new,
    PROCESSED_PACKAGES st' = PROCESSED_PACKAGES st ++ new
    ∧ ∀ p, p ∈ new →
           is_Some (Package.version p)
           ∧ (follow_extras = false →
              ∀ d, d ∈ Package.dependencies p →
                   Py.truthy (Dependency.extra d) = false).
Proof.
  intros H.
  destruct (get_package_info_extended_with _ _ _ _ _ _ _ _ _ _ _ _ H)
    as (new & [HP Hp0] & Hall).
  exists new. split; [destruct packages; exact HP|].
  intros p Hp. rewrite Forall_forall in Hall.
  apply gathered_package with W default_license. exact (Hall p Hp).
Qed.

Lemma appended_packages_are_gated_witness :
  ∃ new,
    PROCESSED_PACKAGES (snd Demo.run_app) = [] ++ new
    ∧ ∀ p, p ∈ new → is_Some (Package.version p).
Proof.
  destruct (appended_packages_are_gated Demo.world false None 4 "app" None
              PackagesNone 0 None (initial_state []) (snd Demo.run_app)
              (fst Demo.run_app))
    as (new & HP & Hall).
  - unfold Demo.run_app. apply surjective_pairing.
  - exists new. split; [exact HP|]. intros p Hp. exact (proj1 (Hall p Hp)).
Defined.

(** ** Runs with a default license *)

#[global] Instance unattended_preorder : PreOrder unattended.
Proof.
  split.
  - intros st. split; [split; reflexivity|]. exists []. rewrite app_nil_r. auto.
  - intros a b c [[H1 H2] (o1 & Ho1 & F1)] [[H3 H4] (o2 & Ho2 & F2)].
    split; [split; congruence|]. exists (o1 ++ o2).
    split; [rewrite Ho2, Ho1, app_assoc; reflexivity|].
    rewrite forallb_app, F1, F2. reflexivity.
Qed.

Lemma translate_license_with_default (license : option string)
    (classifiers : list string) (d : option string) (st st' : state)
    (r : outcome string) :
  Py.truthy d = true →
  translate_license license classifiers d st = (r, st') →
  st' = st ∧ ∃ v, r = Return v.
Proof.
  intros Hd. unfold translate_license, try_except, mbind, M_bind, get, lift.
  destruct (table_lookup (LICENSES st) license classifiers) as [v|e]; simpl.
  - intros [= <- <-]. eauto.
  - rewrite Hd. intros [= <- <-]. eauto.
Qed.

(** X10: with a default license configured a run is unattended.  No
    request reads standard input or changes the license table, and none
    prints the failure line or the prompt of the license normalizer; the
    normalizer itself then always returns and leaves the state as it is. *)
Theorem default_license_runs_unattended (W : World) (follow_extras : bool)
    (default_license : option string) (fuel : nat) (package : string)
    (version : option string) (packages : packages_arg) (indent : Z)
    (extra : option string) (st st' : state) (r : outcome (list Package.t)) :
  Py.truthy default_license = true →
  get_package_info W follow_extras default_license fuel package version
    packages indent extra st = (r, st') →
  stdin st' = stdin st ∧ LICENSES st' = LICENSES st
  ∧ (∃ out, stdout st' = stdout st ++ out
            ∧ forallb (fun l => negb (asks l)) out = true)
  ∧ ∀ license classifiers st0,
      ∃ v, translate_license license classifiers default_license st0
           = (Return v, st0).
Proof.
  intros Hd Hrun.
  assert (∀ l, asks l = false → preserves unattended (print l)) as Hprint.
  { intros l Hl st0 r0 st1 [= <- <-]. split; [split; reflexivity|].
    exists [l]. split; [reflexivity|]. simpl. rewrite Hl. reflexivity. }
  assert (∀ license classifiers,
            preserves unattended
              (translate_license license classifiers default_license)) as Htl.
  { intros license classifiers st0 r0 st1 H.
    destruct (translate_license_with_default _ _ _ _ _ _ Hd H) as [-> _].
    reflexivity. }
  assert (∀ p, gathered W follow_extras default_license p →
               preserves unattended (append_package p)) as Happ.
  { intros p _ st0 r0 st1 [= <- <-]. split; [split; reflexivity|].
    exists []. rewrite app_nil_r. auto. }
  assert (unattended st st') as [[H1 H2] H3].
  { destruct fuel as [|fuel]; [injection Hrun as <- <-; reflexivity|].
    destruct packages.
    - exact (get_package_info_root_keeps W follow_extras default_license _
               Hprint Htl Happ _ _ _ _ _ _ _ _ Hrun).
    - exact (get_package_info_keeps W follow_extras default_license _
               Hprint Htl Happ _ _ _ _ _ _ _ _ Hrun). }
  repeat split; try assumption.
  intros license classifiers st0.
  destruct (translate_license license classifiers default_license st0)
    as [r0 st1] eqn:H.
  destruct (translate_license_with_default _ _ _ _ _ _ Hd H) as [-> [v ->]].
  eauto.
Qed.

Lemma default_license_runs_unattended_witness :
  stdin (snd (get_package_info Demo.world false (Some "CLOSED") 5 "app" None
                PackagesNone 0 None (initial_state ["MIT"])))
  = ["MIT"].
Proof.
  apply (default_license_runs_unattended Demo.world false (Some "CLOSED") 5 "app"
           None PackagesNone 0 None (initial_state ["MIT"])
           (snd (get_package_info Demo.world false (Some "CLOSED") 5 "app" None
                   PackagesNone 0 None (initial_state ["MIT"])))
           (fst (get_package_info Demo.world false (Some "CLOSED") 5 "app" None
                   PackagesNone 0 None (initial_state ["MIT"])))).
  - reflexivity.
  - apply surjective_pairing.
Defined.

(** * Properties of the choice of archives *)

(** ** [sorted] *)

Lemma insert_by_head {A} (key : A → Z) (x : A) (l : list A) :
  ∃ h t, insert_by key x l = h :: t
         ∧ (h = x ∧ (∀ y, head l = Some y → key x ≤ key y)
            ∨ (head l = Some h ∧ key h < key x)).
Proof.
  destruct l as [|y l]; simpl.
  - exists x, []. split; [reflexivity|]. left. split; [reflexivity|].
    intros y H. discriminate H.
  - destruct (key x <=? key y) eqn:Hle.
    + exists x, (y :: l). split; [reflexivity|]. left. split; [reflexivity|].
      intros z [= <-]. apply Z.leb_le. exact Hle.
    + exists y, (insert_by key x l). split; [reflexivity|]. right.
      split; [reflexivity|]. apply Z.leb_gt. exact Hle.
Qed.

(** The first element of a sorted list is the first of the elements of
    least key. *)
Lemma sorted_by_head {A} (key : A → Z) (l : list A) (h : A) (t : list A) :
  sorted_by key l = h :: t →
  ∃ l1 l2, l = l1 ++ h :: l2
           ∧ (∀ y, y ∈ l1 → key h < key y)
           ∧ (∀ y, y ∈ l2 → key h ≤ key y).
Proof.
  revert h t. induction l as [|x l IH]; intros h t H; [discriminate H|].
  simpl in H.
  destruct (sorted_by key l) as [|h' t'] eqn:Hs.
  - destruct l as [|x' l']; [|simpl in Hs;
      destruct (insert_by_head key x' (sorted_by key l')) as (? & ? & E & _);
      rewrite E in Hs; discriminate Hs].
    simpl in H. injection H as <- <-. exists [], [].
    split; [reflexivity|]. split; intros y Hy; inversion Hy.
  - destruct (IH h' t' eq_refl) as (l1 & l2 & -> & H1 & H2).
    simpl in H. destruct (key x <=? key h') eqn:Hle.
    + injection H as <- <-. apply Z.leb_le in Hle.
      exists [], (l1 ++ h' :: l2). split; [reflexivity|].
      split; [intros y Hy; inversion Hy|].
      intros y [Hy|[->|Hy]%elem_of_cons]%elem_of_app.
      * specialize (H1 y Hy). lia.
      * exact Hle.
      * specialize (H2 y Hy). lia.
    + injection H as <- <-. apply Z.leb_gt in Hle.
      exists (x :: l1), l2. split; [reflexivity|]. split; [|exact H2].
      intros y [->|Hy]%elem_of_cons; [exact Hle|exact (H1 y Hy)].
Qed.

Lemma sorted_by_nil {A} (key : A → Z) (l : list A) : sorted_by key l = [] → l = [].
Proof.
  destruct l as [|x l]; [reflexivity|]. simpl.
  destruct (insert_by_head key x (sorted_by key l)) as (h & t & E & _).
  rewrite E. discriminate.
Qed.

(** X11: when the document has the releases of the version,
    [fetch_requirements_from_remote_package] fetches the file of least
    [pkg_size], the first listed among those of least rank; it raises
    [KeyError] when the version has no release and [IndexError] when the
    release has no file. *)
Theorem remote_package_is_smallest (info : Info) (version : string)
    (d : list (string * list RFile)) :
  releases info = Some d →
  (∀ pkg_url filename parse,
     remote_package info version = Remote pkg_url filename parse →
     ∃ l1 f l2,
       assoc version d = Some (l1 ++ f :: l2)
       ∧ url f = pkg_url
       ∧ filename = url_filename pkg_url
       ∧ (∀ g, g ∈ l1 → pkg_size f < pkg_size g)
       ∧ (∀ g, g ∈ l2 → pkg_size f ≤ pkg_size g))
  ∧ (remote_package info version = RemoteRaises KeyError
     ↔ assoc version d = None)
  ∧ (remote_package info version = RemoteRaises IndexError
     ↔ assoc version d = Some []).
Proof.
  intros Hd. unfold remote_package. rewrite Hd.
  destruct (assoc version d) as [files|] eqn:Ha.
  2:{ repeat split; try discriminate; auto. }
  destruct (sorted_by pkg_size files) as [|f t] eqn:Hs.
  - apply sorted_by_nil in Hs. subst files.
    repeat split; try discriminate; auto.
  - pose proof (sorted_by_head _ _ _ _ Hs) as (l1 & l2 & -> & H1 & H2).
    repeat split; try discriminate.
    + intros pkg_url filename parse H.
      destruct (parser_for (url_filename (url f))) eqn:Hp; [|discriminate H].
      injection H as <- <- <-. exists l1, f, l2. auto.
    + destruct (parser_for (url_filename (url f))); discriminate.
    + destruct (parser_for (url_filename (url f))); discriminate.
    + intros [= E]. destruct l1; discriminate E.
Qed.

Lemma remote_package_is_smallest_witness :
  ∃ l1 f l2,
    assoc "1.0" [("1.0", [Demo.wheel "https://files.example/app-1.0-py3-none-any.whl";
                          Demo.sdist "https://files.example/app-1.0.tar.gz"])]
    = Some (l1 ++ f :: l2)
    ∧ url f = "https://files.example/app-1.0.tar.gz".
Proof.
  destruct (proj1 (remote_package_is_smallest Demo.app "1.0" _ eq_refl)
              "https://files.example/app-1.0.tar.gz" "app-1.0.tar.gz" SDist)
    as (l1 & f & l2 & H1 & H2 & _).
  - reflexivity.
  - exists l1, f, l2. split; [exact H1|exact H2].
Defined.

(** * Properties of the recipe files *)

Lemma prefix_app (s t : string) : String.prefix s (s +:+ t) = true.
Proof.
  induction s as [|c s IH]; simpl; [destruct t; reflexivity|].
  destruct (ascii_dec c c); [exact IH|congruence].
Qed.

Lemma prefix_split (p s : string) :
  String.prefix p s = true → ∃ rest, s = p +:+ rest.
Proof.
  revert s. induction p as [|c p IH]; intros s H.
  - exists s. reflexivity.
  - destruct s as [|d s]; simpl in H; [discriminate H|].
    destruct (ascii_dec c d) as [->|]; [|discriminate H].
    destruct (IH s H) as [rest ->]. exists rest. reflexivity.
Qed.

Lemma contains_app (c : ascii) (s t : string) :
  Py.contains c (s +:+ t) = Py.contains c s || Py.contains c t.
Proof.
  induction s as [|d s IH]; simpl; [reflexivity|].
  rewrite IH, orb_assoc. reflexivity.
Qed.

Lemma contains_none_of (c : ascii) (s : string) :
  Py.contains c s = false → none_of (fun d => Ascii.eqb d c) s = true.
Proof.
  induction s as [|d s IH]; simpl; [reflexivity|].
  intros [-> H]%orb_false_iff. rewrite (IH H). reflexivity.
Qed.

Lemma none_of_app (P : ascii → bool) (s t : string) :
  none_of P (s +:+ t) = none_of P s && none_of P t.
Proof.
  induction s as [|d s IH]; simpl; [reflexivity|].
  rewrite IH, andb_assoc. reflexivity.
Qed.

Lemma split_none (c : ascii) (s : string) :
  Py.contains c s = false → Py.split c s = [s].
Proof.
  induction s as [|d s IH]; simpl; [reflexivity|].
  intros [-> H]%orb_false_iff. rewrite (IH H). reflexivity.
Qed.

Lemma split_app_sep (c : ascii) (a b : string) :
  Py.contains c a = false →
  Py.split c (a +:+ String c b) = a :: Py.split c b.
Proof.
  induction a as [|d a IH]; simpl.
  - intros _. rewrite Ascii.eqb_refl. reflexivity.
  - intros [-> H]%orb_false_iff. rewrite (IH H). reflexivity.
Qed.

Lemma split_length (c : ascii) (s : string) :
  (1 <? length (Py.split c s))%nat = Py.contains c s.
Proof.
  induction s as [|d s IH]; simpl; [reflexivity|].
  destruct (Ascii.eqb d c); simpl.
  - destruct (Py.split c s) eqn:E; [|reflexivity].
    destruct s; simpl in E; [discriminate E|].
    destruct (Ascii.eqb a c); [discriminate E|].
    destruct (Py.split c s); discriminate E.
  - rewrite <- IH. destruct (Py.split c s); reflexivity.
Qed.

Lemma split_skip_cons (sep : string) (k : nat) (s : string) :
  ∃ p ps, split_skip sep k s = p :: ps.
Proof.
  revert k. induction s as [|c s IH]; intros k; [simpl; eauto|].
  cbn [split_skip]. destruct k as [|k]; [|apply IH].
  destruct (String.prefix sep (String c s)); [eauto|].
  destruct (IH 0%nat) as (p & ps & ->). eauto.
Qed.

Lemma split_skip_pass (sep x t : string) :
  split_skip sep (String.length x) (x +:+ t) = split_skip sep 0 t.
Proof. induction x as [|c x IH]; [reflexivity|exact IH]. Qed.

Lemma split_on_sep (sep t : string) :
  sep ≠ "" → split_on sep (sep +:+ t) = "" :: split_on sep t.
Proof.
  intros Hne. destruct sep as [|c sep]; [congruence|].
  unfold split_on. rewrite app_cons. cbn [split_skip].
  rewrite <- app_cons, prefix_app. f_equal.
  replace (String.length (String c sep) - 1)%nat with (String.length sep) by (simpl; lia).
  apply split_skip_pass.
Qed.

Lemma split_on_none (sep s : string) :
  occurs sep s = false → split_on sep s = [s].
Proof.
  unfold split_on. induction s as [|c s IH]; [reflexivity|].
  cbn [occurs split_skip]. intros [-> H]%orb_false_iff.
  rewrite (IH H). reflexivity.
Qed.

Lemma prefix_bb (c : ascii) (v t : string) :
  String.prefix ".bb" (String c v) = false →
  String.prefix ".bb" (String c (v +:+ ".bb" +:+ t)) = false.
Proof.
  intros H.
  destruct (String.prefix ".bb" (String c (v +:+ ".bb" +:+ t))) eqn:E;
    [|reflexivity].
  apply prefix_split in E as [rest E].
  destruct v as [|d [|e v]]; simpl in E; try discriminate E.
  injection E as -> -> -> _. change (String.prefix ".bb" (".bb" +:+ v) = false) in H. rewrite prefix_app in H. discriminate H.
Qed.

Lemma hd_split_on_bb (v t : string) :
  occurs ".bb" v = false → hd "" (split_on ".bb" (v +:+ ".bb" +:+ t)) = v.
Proof.
  unfold split_on. induction v as [|c v IH].
  - intros _. rewrite app_empty_l.
    change (hd "" (split_on ".bb" (".bb" +:+ t)) = "").
    rewrite split_on_sep by discriminate. reflexivity.
  - cbn [occurs]. intros [Hp H]%orb_false_iff.
    rewrite app_cons. cbn [split_skip]. rewrite (prefix_bb _ _ _ Hp).
    specialize (IH H).
    destruct (split_skip ".bb" 0 (v +:+ ".bb" +:+ t)); simpl in *;
      rewrite IH; reflexivity.
Qed.

Lemma before_app_none (P : ascii → bool) (a b : string) :
  none_of P a = true → before P (a +:+ b) = a +:+ before P b.
Proof.
  induction a as [|d a IH]; simpl; [reflexivity|].
  intros [Hd Ha]%andb_true_iff. apply negb_true_iff in Hd.
  rewrite Hd, (IH Ha). reflexivity.
Qed.

Lemma package_to_bb_name_no_underscore (name : string) :
  Py.contains "_" (package_to_bb_name name) = false.
Proof.
  induction name as [|c s IH]; [reflexivity|].
  rewrite package_to_bb_name_cons. simpl. rewrite IH, orb_false_r.
  apply Ascii.eqb_neq. apply (bb_char_normal c).
Qed.

Lemma scan_recipe (python N v : string) :
  Py.contains "_" python = false →
  Py.contains "_" N = false →
  occurs (python +:+ "-") N = false →
  Py.contains "_" v = false →
  occurs ".bb" v = false →
  scan_file python (python +:+ "-" +:+ N +:+ "_" +:+ v +:+ ".bb")
  = Ok (if Py.contains "." v
        then Listed (N +:+ "==" +:+ v +:+ String Fmt.newline "")
        else CouldNotParse).
Proof.
  intros Hpy HN Hocc Hv Hbb. unfold scan_file.
  set (file := python +:+ "-" +:+ N +:+ "_" +:+ v +:+ ".bb").
  assert (Py.startswith (python +:+ "-") file = true) as ->.
  { unfold Py.startswith, file. rewrite <- app_assoc_str. apply prefix_app. }
  assert (Str.endswith ".bb" file = true) as ->.
  { apply endswith_iff. exists (python +:+ "-" +:+ N +:+ "_" +:+ v).
    unfold file. rewrite !app_assoc_str. reflexivity. }
  assert (Py.contains "-" file = true) as ->.
  { unfold file. rewrite contains_app. apply orb_true_r. }
  assert (Py.contains "_" file = true) as ->.
  { unfold file. rewrite !contains_app. simpl. rewrite !orb_true_r. reflexivity. }
  assert (Py.split "_" file = [(python +:+ "-") +:+ N; v +:+ ".bb"]) as ->.
  { replace file with (((python +:+ "-") +:+ N) +:+ String "_" (v +:+ ".bb"))
      by (unfold file; rewrite !app_assoc_str; reflexivity).
    rewrite split_app_sep.
    - rewrite split_none; [reflexivity|].
      rewrite contains_app, Hv. reflexivity.
    - rewrite !contains_app, Hpy, HN. reflexivity. }
  simpl hd. rewrite split_on_sep by (destruct python; discriminate).
  rewrite (split_on_none _ _ Hocc). simpl lookup. cbv iota beta.
  replace (v +:+ ".bb") with (v +:+ ".bb" +:+ "") by reflexivity.
  rewrite (hd_split_on_bb _ _ Hbb), split_length. simpl.
  destruct (Py.contains "." v); reflexivity.
Qed.

Lemma rstrip_newline (s : string) :
  none_of is_space s = true →
  rstrip_set is_space (s +:+ String Fmt.newline "") = s.
Proof.
  induction s as [|d s IH]; [reflexivity|].
  simpl none_of. intros [Hd Hs]%andb_true_iff. apply negb_true_iff in Hd.
  rewrite app_cons. simpl rstrip_set. rewrite (IH Hs), Hd.
  destruct s; reflexivity.
Qed.

Lemma strip_space_line (s : string) :
  none_of is_space s = true → strip_space (s +:+ String Fmt.newline "") = s.
Proof.
  intros H. unfold strip_space. destruct s as [|d s]; [reflexivity|].
  rewrite app_cons. simpl lstrip_set. simpl in H.
  apply andb_true_iff in H as [Hd Hs]. pose proof Hd as Hd'.
  apply negb_true_iff in Hd'. rewrite Hd'. rewrite <- app_cons.
  apply rstrip_newline. simpl. rewrite Hd, Hs. reflexivity.
Qed.

Lemma split_eqeq_cons (d : ascii) (s : string) :
  d ≠ "="%char →
  split_eqeq (String d s)
  = match split_eqeq s with
    | [] => [String d ""]
    | p :: ps => String d p :: ps
    end.
Proof.
  intros Hd. destruct d as [[] [] [] [] [] [] [] []]; try reflexivity.
  congruence.
Qed.

Lemma split_eqeq_none (s : string) :
  Py.contains "=" s = false → split_eqeq s = [s].
Proof.
  induction s as [|d s IH]; [reflexivity|]. simpl Py.contains.
  intros [Hd Hs]%orb_false_iff. apply Ascii.eqb_neq in Hd.
  rewrite (split_eqeq_cons _ _ Hd), (IH Hs). reflexivity.
Qed.

Lemma split_eqeq_app (a b : string) :
  Py.contains "=" a = false →
  split_eqeq (a +:+ "==" +:+ b) = a :: split_eqeq b.
Proof.
  induction a as [|d a IH]; [reflexivity|]. simpl Py.contains.
  intros [Hd Ha]%orb_false_iff. apply Ascii.eqb_neq in Hd.
  rewrite app_cons, (split_eqeq_cons _ _ Hd), (IH Ha). reflexivity.
Qed.

Lemma existing_package_line (name version : string) :
  none_of is_space name = true → none_of is_space version = true →
  Py.contains "=" name = false → Py.contains "=" version = false →
  existing_package (name +:+ "==" +:+ version +:+ String Fmt.newline "")
  = Package.mk name (Some version) "" "" "" "" "" "" "" "" "" "" "" [] [].
Proof.
  intros Hn Hv Hen Hev. unfold existing_package.
  replace (name +:+ "==" +:+ version +:+ String Fmt.newline "")
    with ((name +:+ "==" +:+ version) +:+ String Fmt.newline "")
    by (rewrite !app_assoc_str; reflexivity).
  rewrite strip_space_line.
  2:{ rewrite !none_of_app, Hn, Hv. reflexivity. }
  rewrite (split_eqeq_app _ _ Hen), (split_eqeq_none _ Hev). reflexivity.
Qed.

Lemma existing_package_bare (name : string) :
  none_of is_space name = true → Py.contains "=" name = false →
  existing_package (name +:+ String Fmt.newline "")
  = Package.mk name None "" "" "" "" "" "" "" "" "" "" "" [] [].
Proof.
  intros Hn He. unfold existing_package.
  rewrite (strip_space_line _ Hn), (split_eqeq_none _ He). reflexivity.
Qed.

Lemma parse_existing_packages_state (lines : list string) (st : state) :
  parse_existing_packages lines st
  = (Return tt,
     mkState (LICENSES st) (PROCESSED_PACKAGES st ++ map existing_package lines)
             (packages0 st) (stdin st) (stdout st)).
Proof.
  revert st. induction lines as [|l lines IH]; intros st.
  - destruct st. simpl. rewrite app_nil_r. reflexivity.
  - unfold parse_existing_packages in *. cbn [for_each].
    unfold mbind at 1. unfold M_bind at 1. rewrite IH. simpl.
    rewrite <- app_assoc. reflexivity.
Qed.

Lemma compare_parts_same (l : list part) : compare_parts (combine l l) = Ok 0.
Proof.
  induction l as [|x l IH]; [reflexivity|]. simpl.
  rewrite (proj2 (part_eq_true x x) eq_refl). exact IH.
Qed.

Lemma compare_versions_same (v : string) :
  v ≠ "" → compare_versions (Some v) (Some v) = Ok 0.
Proof.
  intros Hv. unfold compare_versions.
  destruct v as [|c v]; [congruence|]. simpl negb. cbv iota.
  apply compare_parts_same.
Qed.

Lemma check_loop_others (package_name : string) (version : option string)
    (l1 l2 : list Package.t) (st : state) :
  same_name package_name l1 = [] →
  check_loop package_name version (l1 ++ l2) st
  = check_loop package_name version l2 st.
Proof.
  induction l1 as [|q l1 IH]; [reflexivity|]. unfold same_name. simpl.
  destruct (String.eqb package_name (Package.name q)); [discriminate|].
  exact IH.
Qed.

(** X12: a recipe file written by [generate_recipe] is read back by
    [generate_oe_pypi_recipes] under its recipe name and its version,
    provided the version has a dot; without a dot the file is reported
    and not listed.  The version must hold neither an underscore nor
    [.bb], and the recipe name must not hold the prefix again. *)
Theorem recipe_file_is_listed (python : string) (package : Package.t)
    (v : string) :
  let name := package_to_bb_name (Package.name package) in
  Package.version package = Some v →
  Py.contains "_" python = false →
  occurs (python +:+ "-") name = false →
  Py.contains "_" v = false →
  occurs ".bb" v = false →
  scan_file python (recipe_basename python package)
  = Ok (if Py.contains "." v
        then Listed (name +:+ "==" +:+ v +:+ String Fmt.newline "")
        else CouldNotParse).
Proof.
  intros name Hv Hpy Hocc Hu Hbb. unfold recipe_basename.
  rewrite Hv. simpl str_of. fold name.
  exact (scan_recipe python name v Hpy
           (package_to_bb_name_no_underscore _) Hocc Hu Hbb).
Qed.

Lemma recipe_file_is_listed_witness :
  scan_file "python3" (recipe_basename "python3" flask_login)
  = Ok (Listed ("flask-login==0.6.3" +:+ String Fmt.newline "")).
Proof.
  apply (recipe_file_is_listed "python3" flask_login "0.6.3"); reflexivity.
Defined.

(** X13: the scan of a layer never raises when the interpreter name has
    no underscore, as is the case of the two names the command line
    admits: the two indexings of [generate_oe_pypi_recipes] are then
    within range for every file name. *)
Theorem scan_file_never_raises (python_arg file : string) :
  Py.contains "_" python_arg = false → ∃ r, scan_file python_arg file = Ok r.
Proof.
  intros Hpy. unfold scan_file.
  destruct (Py.startswith (python_arg +:+ "-") file) eqn:Hs; simpl; [|eauto].
  destruct (Str.endswith ".bb" file); simpl; [|eauto].
  destruct (Py.contains "-" file); simpl; [|eauto].
  destruct (Py.contains "_" file) eqn:Hu; simpl; [|eauto].
  apply prefix_split in Hs as [rest ->].
  rewrite hd_split_before, before_app_none.
  2:{ apply contains_none_of. rewrite contains_app, Hpy. reflexivity. }
  rewrite split_on_sep by (destruct python_arg; discriminate).
  destruct (split_skip_cons (python_arg +:+ "-") 0
              (before (fun d => Ascii.eqb d "_") rest)) as (p & ps & E).
  unfold split_on at 1. rewrite E. simpl lookup. cbv iota beta.
  rewrite <- split_length in Hu.
  destruct (Py.split "_" ((python_arg +:+ "-") +:+ rest)) as [|a [|b l]];
    try discriminate Hu.
  simpl lookup. cbv iota beta.
  destruct (1 <? length (Py.split "." _))%nat; eauto.
Qed.

Lemma scan_file_never_raises_witness :
  ∃ r, scan_file "python3" "python3-python3-x_1.bb" = Ok r.
Proof. apply scan_file_never_raises. reflexivity. Defined.

(** X14: the lines that [generate_oe_pypi_recipes] writes are read back
    by [parse_existing_packages] as they were meant: a line made of a
    name, [==], a version and the end of line gives the package of that
    name and version, and a line with a name only gives the package
    without a version, when the name and the version hold no whitespace
    and no [=]. *)
Theorem existing_line_round_trip (name version : string) :
  none_of is_space name = true → none_of is_space version = true →
  Py.contains "=" name = false → Py.contains "=" version = false →
  existing_package (name +:+ "==" +:+ version +:+ String Fmt.newline "")
  = Package.mk name (Some version) "" "" "" "" "" "" "" "" "" "" "" [] []
  ∧ existing_package (name +:+ String Fmt.newline "")
    = Package.mk name None "" "" "" "" "" "" "" "" "" "" "" [] [].
Proof.
  intros Hn Hv Hen Hev. split.
  - exact (existing_package_line _ _ Hn Hv Hen Hev).
  - exact (existing_package_bare _ Hn Hen).
Qed.

Lemma existing_line_round_trip_witness :
  existing_package ("webob==1.8.7" +:+ String Fmt.newline "")
  = Package.mk "webob" (Some "1.8.7") "" "" "" "" "" "" "" "" "" "" "" [] [].
Proof.
  apply (existing_line_round_trip "webob" "1.8.7"); reflexivity.
Defined.

(** X15: a recipe written by [generate_recipe], listed by
    [generate_oe_pypi_recipes] and read by [parse_existing_packages],
    makes [get_package_info] skip the request for that version of the
    package, when the request is made under the recipe name (the name in
    lower case with hyphens for underscores and dots), with or without
    extras in brackets, and no package read before bears that name. *)
Theorem listed_recipe_is_skipped (W : World) (follow_extras : bool)
    (default_license : option string) (fuel : nat) (python : string)
    (package : Package.t) (v : string) (lines : list string)
    (request : string) (indent : Z) (extra : option string) (st : state) :
  let name := package_to_bb_name (Package.name package) in
  Package.version package = Some v →
  Py.contains "_" python = false →
  occurs (python +:+ "-") name = false →
  Py.contains "." v = true →
  Py.contains "_" v = false →
  occurs ".bb" v = false →
  Py.contains "=" name = false →
  Py.contains "=" v = false →
  none_of is_space name = true →
  none_of is_space v = true →
  same_name name (PROCESSED_PACKAGES st) = [] →
  package_name_of request = name →
  ∃ line,
    scan_file python (recipe_basename python package) = Ok (Listed line)
    ∧ let st' := snd (parse_existing_packages (line :: lines) st) in
      get_package_info W follow_extras default_license (S fuel) request
        (Some v) PackagesShared indent extra st'
      = (Return (packages0 st'), st').
Proof.
  intros name Hv Hpy Hocc Hdot Hu Hbb Hen Hev Hsn Hsv Hst Hreq.
  exists (name +:+ "==" +:+ v +:+ String Fmt.newline "").
  split.
  - unfold recipe_basename. rewrite Hv. simpl str_of. fold name.
    rewrite (scan_recipe python name v Hpy
               (package_to_bb_name_no_underscore _) Hocc Hu Hbb), Hdot.
    reflexivity.
  - intros st'. rewrite get_package_info_checked, Hreq.
    unfold check_package_already_processed, st'.
    rewrite parse_existing_packages_state. simpl.
    rewrite <- !app_assoc, (check_loop_others _ _ _ _ _ Hst).
    rewrite (existing_package_line _ _ Hsn Hsv Hen Hev). simpl.
    rewrite String.eqb_refl, compare_versions_same; [reflexivity|].
    intros ->. discriminate Hdot.
Qed.

Lemma listed_recipe_is_skipped_witness :
  ∃ line,
    scan_file "python3" "python3-flask-login_0.6.3.bb" = Ok (Listed line)
    ∧ let st' := snd (parse_existing_packages [line] (initial_state [])) in
      get_package_info Demo.world false None 1 "flask-login[docs]"
        (Some "0.6.3") PackagesShared 0 None st'
      = (Return (packages0 st'), st').
Proof.
  apply (listed_recipe_is_skipped Demo.world false None 0 "python3"
           flask_login "0.6.3" [] "flask-login[docs]" 0 None (initial_state []));
    reflexivity.
Defined.

(** * The order of versions *)

Lemma ascii_compare_refl (a : ascii) : Ascii.compare a a = Eq.
Proof. unfold Ascii.compare. apply N.compare_refl. Qed.

Lemma ascii_compare_lt_trans (a b c : ascii) :
  Ascii.compare a b = Lt → Ascii.compare b c = Lt → Ascii.compare a c = Lt.
Proof.
  unfold Ascii.compare. rewrite !N.compare_lt_iff. apply N.lt_trans.
Qed.

Lemma string_compare_lt_trans (s t u : string) :
  String.compare s t = Lt → String.compare t u = Lt → String.compare s u = Lt.
Proof.
  revert t u. induction s as [|a s IH]; intros [|b t] [|c u]; simpl;
    try discriminate; try reflexivity.
  destruct (Ascii.compare a b) eqn:Hab; try discriminate;
    destruct (Ascii.compare b c) eqn:Hbc; try discriminate; intros H1 H2.
  - apply Ascii.compare_eq_iff in Hab. apply Ascii.compare_eq_iff in Hbc.
    subst b c.
    rewrite ascii_compare_refl. exact (IH _ _ H1 H2).
  - apply Ascii.compare_eq_iff in Hab. subst b. rewrite Hbc. reflexivity.
  - apply Ascii.compare_eq_iff in Hbc. subst c. rewrite Hab. reflexivity.
  - rewrite (ascii_compare_lt_trans _ _ _ Hab Hbc). reflexivity.
Qed.

Lemma sign_lt (c : comparison) : sign c = -1 ↔ c = Lt.
Proof. destruct c; simpl; split; intros H; try reflexivity; discriminate H. Qed.

Lemma order_pair_lt_trans (x y z : part) :
  order_pair x y = Ok (-1) → order_pair y z = Ok (-1) →
  order_pair x z = Ok (-1) ∧ x ≠ z.
Proof.
  destruct x as [a|s], y as [b|t], z as [c|u]; simpl; try discriminate;
    intros [= H1%sign_lt] [= H2%sign_lt].
  - change (a < b) in H1. change (b < c) in H2.
    assert (a < c) as H by lia. split; [|intros [= ->]; lia].
    change ((a ?= c) = Lt) in H. rewrite H. reflexivity.
  - pose proof (string_compare_lt_trans _ _ _ H1 H2) as H. rewrite H.
    split; [reflexivity|]. intros [= ->].
    pose proof (String.compare_antisym u u) as Ha. rewrite H in Ha.
    discriminate Ha.
Qed.

Lemma overlap_compare_lt_trans (p q r : list part) :
  overlap_compare p q = Ok (-1) → overlap_compare q r = Ok (-1) →
  overlap_compare p r = Ok (-1).
Proof.
  revert q r. induction p as [|x p IH]; intros [|y q] [|z r]; simpl;
    try discriminate.
  destruct (decide (x = y)) as [->|Hxy].
  - destruct (decide (y = z)) as [->|Hyz]; intros H1 H2;
      [exact (IH _ _ H1 H2)|exact H2].
  - destruct (decide (y = z)) as [->|Hyz]; intros H1 H2.
    + rewrite decide_False by exact Hxy. exact H1.
    + destruct (order_pair_lt_trans _ _ _ H1 H2) as [H Hne].
      rewrite decide_False by exact Hne. exact H.
Qed.

Lemma string_compare_empty (s : string) : String.compare s "" ≠ Lt.
Proof. destruct s; discriminate. Qed.

Lemma split_parts_cons (s : string) : ∃ p ps, split_parts s = p :: ps.
Proof.
  induction s as [|c s (p & ps & IH)]; simpl; [eauto|].
  destruct (is_sep c); [eauto|]. rewrite IH. eauto.
Qed.

(** No version that is not empty is below the empty version. *)
Lemma compare_versions_empty_r (a : string) :
  a ≠ "" → compare_versions (Some a) (Some "") ≠ Ok (-1).
Proof.
  intros Ha. rewrite (compare_versions_overlap a "" Ha).
  destruct (split_parts_cons a) as (p & ps & ->). simpl.
  change (to_part "") with (PStr "").
  destruct (decide (to_part p = PStr "")) as [_|_].
  - intros H. destruct (map to_part ps); discriminate H.
  - destruct (to_part p) as [n|s]; simpl; intros H; [discriminate H|].
    injection H as H. apply sign_lt in H. exact (string_compare_empty s H).
Qed.

(** The answer [0] of the comparator is not transitive: a version
    compares equal to each of its extensions. *)
Lemma compare_versions_zero_not_transitive :
  compare_versions (Some "1.0") (Some "1") = Ok 0
  ∧ compare_versions (Some "1") (Some "1.5") = Ok 0
  ∧ compare_versions (Some "1.0") (Some "1.5") = Ok (-1).
Proof. repeat split; reflexivity. Qed.

(** X16: the answer [-1] of [compare_versions] is transitive, for all
    version strings, the empty one included: when the first version is
    below the second and the second below the third, the comparison of
    the first with the third returns [-1] and does not raise. *)
Theorem compare_versions_lt_trans (a b c : string) :
  compare_versions (Some a) (Some b) = Ok (-1) →
  compare_versions (Some b) (Some c) = Ok (-1) →
  compare_versions (Some a) (Some c) = Ok (-1).
Proof.
  intros H1 H2.
  destruct (decide (a = "")) as [->|Ha]; [reflexivity|].
  destruct (decide (b = "")) as [->|Hb].
  - destruct (compare_versions_empty_r a Ha H1).
  - rewrite compare_versions_overlap in * by assumption.
    exact (overlap_compare_lt_trans _ _ _ H1 H2).
Qed.

Lemma compare_versions_lt_trans_witness :
  compare_versions (Some "1.9") (Some "2.0-rc1") = Ok (-1).
Proof.
  apply (compare_versions_lt_trans "1.9" "1.10.2" "2.0-rc1"); reflexivity.
Defined.

(** * Properties of the recipes *)

Lemma extras_loop_firsts (package : Package.t) (extras todo : list Dependency.t)
    (processed : list (option string)) :
  ∃ firsts,
    extras_loop package extras todo processed
    = map (extra_package package extras) firsts
    ∧ firsts `sublist_of` todo
    ∧ NoDup (map Dependency.extra firsts)
    ∧ (∀ t, t ∈ map Dependency.extra firsts
            ↔ t ∈ map Dependency.extra todo ∧ t ∉ processed)
    ∧ ∀ f, f ∈ firsts →
           ∃ l1 l2, todo = l1 ++ f :: l2
                    ∧ ∀ g, g ∈ l1 → Dependency.extra g ≠ Dependency.extra f.
Proof.
  revert processed. induction todo as [|e todo IH]; intros processed.
  - exists []. split; [reflexivity|]. split; [constructor|].
    split; [constructor|]. split; [|intros f H; inversion H]. intros t.
    split; [intros H; inversion H|intros [H _]; inversion H].
  - simpl. destruct (bool_decide_reflect (Dependency.extra e ∈ processed))
      as [Hin|Hout].
    + destruct (IH processed) as (firsts & E & Hs & Hn & Hm & Hf).
      exists firsts. split; [exact E|]. split; [constructor; exact Hs|].
      split; [exact Hn|]. split.
      * intros t. rewrite Hm, elem_of_cons. split.
        -- intros [H1 H2]. auto.
        -- intros [[->|H1] H2]; [contradiction|auto].
      * intros f Hin'. destruct (Hf f Hin') as (l1 & l2 & -> & Hl1).
        exists (e :: l1), l2. split; [reflexivity|].
        intros g [->|Hg]%elem_of_cons; [|exact (Hl1 g Hg)].
        intros Heq. rewrite Heq in Hin.
        assert (Dependency.extra f ∈ map Dependency.extra firsts) as Ht
          by (apply list_elem_of_fmap; eauto).
        apply Hm in Ht as [_ Ht]. exact (Ht Hin).
    + destruct (IH (processed ++ [Dependency.extra e]))
        as (firsts & E & Hs & Hn & Hm & Hf).
      exists (e :: firsts). split; [simpl; rewrite E; reflexivity|].
      split; [constructor; exact Hs|]. split; [|split].
      * simpl. constructor; [|exact Hn]. rewrite Hm, elem_of_app.
        intros [_ H]. apply H. right. left.
      * intros t. simpl. rewrite !elem_of_cons, Hm, elem_of_app.
        rewrite list_elem_of_singleton. split.
        -- intros [->|[H1 H2]]; [auto|]. split; [auto|]. intros H. auto.
        -- intros [[->|H1] H2]; [auto|].
           destruct (decide (t = Dependency.extra e)) as [->|Hne]; [auto|].
           right. split; [exact H1|]. intros [H|H]; auto.
      * intros f [->|Hin]%elem_of_cons.
        -- exists [], todo. split; [reflexivity|]. intros g H. inversion H.
        -- destruct (Hf f Hin) as (l1 & l2 & -> & Hl1).
           exists (e :: l1), l2. split; [reflexivity|].
           intros g [->|Hg]%elem_of_cons; [|exact (Hl1 g Hg)].
           intros Heq.
           assert (Dependency.extra f ∈ map Dependency.extra firsts) as Ht
             by (apply list_elem_of_fmap; eauto).
           apply Hm in Ht as [_ Ht]. apply Ht. apply elem_of_app. right.
           rewrite Heq. left.
Qed.

Lemma filter_elem {A} (f : A → bool) (l : list A) (x : A) :
  x ∈ List.filter f l ↔ x ∈ l ∧ f x = true.
Proof. rewrite !list_elem_of_In. apply filter_In. Qed.

(** X17: with the recipes of extras asked for, [generate_recipes] hands
    one package to [generate_recipe] for each distinct extra of a
    package, in the order in which the extras first occur among its
    dependencies (each package is built from the first dependency that
    bears the extra), and under distinct names.  Every dependency that bears
    an extra is, without its extra, a dependency of the package of that
    extra, and such a package depends on nothing else than the package
    itself and the dependencies that bear its extra. *)
Theorem extras_get_one_recipe_each (package : Package.t) :
  let extras := extras_of package in
  let stripped e :=
    Dependency.mk (Dependency.name e) (Dependency.version e) None in
  ∃ firsts,
    extras_loop package extras extras []
    = map (extra_package package extras) firsts
    ∧ firsts `sublist_of` extras
    ∧ NoDup (map Dependency.extra firsts)
    ∧ (∀ f, f ∈ firsts →
            ∃ l1 l2, extras = l1 ++ f :: l2
                     ∧ ∀ g, g ∈ l1 → Dependency.extra g ≠ Dependency.extra f)
    ∧ NoDup (map Package.name (extras_loop package extras extras []))
    ∧ (∀ e, e ∈ Package.dependencies package →
            Py.truthy (Dependency.extra e) = true →
            ∃ f, f ∈ firsts ∧ Dependency.extra f = Dependency.extra e
                 ∧ stripped e
                   ∈ Package.dependencies (extra_package package extras f))
    ∧ (∀ f d, f ∈ firsts →
              d ∈ Package.dependencies (extra_package package extras f) →
              d = Dependency.mk (Package.name package)
                    (Package.version package) None
              ∨ ∃ e, e ∈ Package.dependencies package
                     ∧ Dependency.extra e = Dependency.extra f
                     ∧ d = stripped e).
Proof.
  intros extras stripped.
  destruct (extras_loop_firsts package extras extras [])
    as (firsts & E & Hs & Hn & Hm & Hfirst).
  exists firsts. split; [exact E|]. split; [exact Hs|]. split; [exact Hn|].
  split; [exact Hfirst|]. clear Hfirst. split; [|split].
  - rewrite E, <- list_fmap_compose.
    assert (∀ f, f ∈ firsts → ∃ s, Dependency.extra f = Some s) as Hsome.
    { intros f Hf. assert (f ∈ extras) as Hfe by (eapply elem_of_sublist; eauto).
      apply filter_elem in Hfe as [_ Ht].
      destruct (Dependency.extra f) as [s|]; [eauto|discriminate Ht]. }
    clear E Hs Hm. induction firsts as [|f firsts IH]; [constructor|].
    simpl. apply NoDup_cons in Hn as [Hf Hn]. constructor.
    + intros (g & Hg & Hin)%list_elem_of_fmap. apply Hf.
      apply list_elem_of_fmap. exists g. split; [|exact Hin].
      simpl in Hg. apply (inj (String.append _)) in Hg.
      apply (inj (String.append _)) in Hg.
      destruct (Hsome f ltac:(left)) as [s Es].
      destruct (Hsome g ltac:(right; exact Hin)) as [s' Es'].
      rewrite Es, Es' in *. simpl in Hg. congruence.
    + apply IH; [exact Hn|]. intros g Hg. apply Hsome. right. exact Hg.
  - intros e He Ht.
    assert (e ∈ extras) as Hee by (apply filter_elem; auto).
    assert (Dependency.extra e ∈ map Dependency.extra firsts) as Hin.
    { apply Hm. split; [|intros H; inversion H].
      apply list_elem_of_fmap. eauto. }
    apply list_elem_of_fmap in Hin as (f & Ef & Hf).
    exists f. split; [exact Hf|]. split; [congruence|].
    simpl. right. apply list_elem_of_fmap. exists e. split; [reflexivity|].
    apply filter_elem. split; [exact Hee|]. apply bool_decide_eq_true. exact Ef.
  - intros f d Hf. simpl.
    intros [->|(e & -> & [He Hb]%filter_elem)%list_elem_of_fmap]%elem_of_cons;
      [left; reflexivity|].
    right. exists e. apply filter_elem in He as [He _].
    apply bool_decide_eq_true in Hb. auto.
Qed.

Lemma endswith_dot_tar_gz (uri : string) :
  Str.endswith ".tar.gz" uri = true → Str.endswith "tar.gz" uri = true.
Proof.
  intros [pre ->]%endswith_iff. apply endswith_iff. exists (pre +:+ ".").
  rewrite app_assoc_str. reflexivity.
Qed.

Lemma package_ext_Raise (src_uri : string) (x : exn) :
  package_ext src_uri = Raise x ↔ get_file_extension src_uri = Raise x.
Proof.
  unfold package_ext. destruct (Str.endswith ".tar.gz" src_uri) eqn:Hgz; simpl.
  - split; [discriminate|]. intros H.
    destruct (first_extension_some extensions src_uri "tar.gz") as [e He].
    + unfold extensions. in_list.
    + exact (endswith_dot_tar_gz _ Hgz).
    + unfold get_file_extension in H. congruence.
  - destruct (get_file_extension src_uri); simpl; split; congruence.
Qed.

Lemma write_all_extras (python : string) (qs : list Package.t)
    (calls : list (Package.t * bool)) :
  write_all python (map (fun q => (q, true)) qs ++ calls)
  = (map (extra_recipe python) qs ++ fst (write_all python calls),
     snd (write_all python calls)).
Proof.
  induction qs as [|q qs IH]; simpl.
  - destruct (write_all python calls); reflexivity.
  - rewrite IH. reflexivity.
Qed.

Lemma generate_recipes_cons (p : Package.t) (rest : list Package.t)
    (python : string) (follow_extras : bool) :
  generate_recipes (p :: rest) python follow_extras
  = match package_ext (Package.src_uri p) with
    | Raise e => ([], Some e)
    | Ok ext =>
        (mkRecipe (recipe_basename python p) false ext (depends_names python p)
         :: map (extra_recipe python)
                (if follow_extras
                 then extras_loop p (extras_of p) (extras_of p) []
                 else [])
         ++ fst (generate_recipes rest python follow_extras),
         snd (generate_recipes rest python follow_extras))
    end.
Proof.
  unfold generate_recipes, recipe_calls. simpl.
  destruct (package_ext (Package.src_uri p)) as [ext|e]; simpl; [|reflexivity].
  fold (recipe_calls rest follow_extras).
  destruct follow_extras.
  - rewrite write_all_extras. reflexivity.
  - simpl. reflexivity.
Qed.

(** X18: [generate_recipes] raises exactly when the source archive of
    one of the packages has no supported extension, with the exception
    of [get_file_extension] for the first such package; the recipes of
    the packages before it, and of their extras, have then been written,
    and nothing for it nor for the packages after it.  When no package
    is such, every recipe is written: the guard on [.tar.gz] never hides
    a failure and the recipe of an extra cannot fail. *)
Theorem generate_recipes_stops_at_first_failure (packages : list Package.t)
    (python : string) (follow_extras : bool) :
  let supported p := ∃ e, get_file_extension (Package.src_uri p) = Ok e in
  let names l :=
    map (fun c => recipe_basename python (fst c)) (recipe_calls l follow_extras) in
  match snd (generate_recipes packages python follow_extras) with
  | None =>
      (∀ p, p ∈ packages → supported p)
      ∧ map basename (fst (generate_recipes packages python follow_extras))
        = names packages
  | Some x =>
      ∃ l1 p l2,
        packages = l1 ++ p :: l2
        ∧ (∀ q, q ∈ l1 → supported q)
        ∧ get_file_extension (Package.src_uri p) = Raise x
        ∧ map basename (fst (generate_recipes packages python follow_extras))
          = names l1
  end.
Proof.
  intros supported names. induction packages as [|p rest IH].
  - simpl. split; [intros p H; inversion H|reflexivity].
  - rewrite generate_recipes_cons.
    destruct (package_ext (Package.src_uri p)) as [ext|e] eqn:Hext; simpl.
    + assert (supported p) as Hp.
      { unfold supported. destruct (get_file_extension (Package.src_uri p))
          as [e|x] eqn:He; [eauto|].
        apply package_ext_Raise in He. congruence. }
      assert (∀ l, names (p :: l)
                   = recipe_basename python p
                     :: map basename
                          (map (extra_recipe python)
                             (if follow_extras
                              then extras_loop p (extras_of p) (extras_of p) []
                              else []))
                     ++ names l) as Hnames.
      { intros l. unfold names, recipe_calls. simpl. f_equal.
        rewrite map_app. f_equal.
        destruct follow_extras; [|reflexivity].
        rewrite <- !list_fmap_compose. reflexivity. }
      destruct (snd (generate_recipes rest python follow_extras)) as [x|].
      * destruct IH as (l1 & q & l2 & -> & Hl1 & Hq & E).
        exists (p :: l1), q, l2. split; [reflexivity|].
        split; [intros r [->|Hr]%elem_of_cons; auto|].
        split; [exact Hq|]. rewrite Hnames, map_app, E. reflexivity.
      * destruct IH as [Hall E]. split.
        -- intros r [->|Hr]%elem_of_cons; auto.
        -- rewrite Hnames, map_app, E. reflexivity.
    + exists [], p, rest. split; [reflexivity|].
      split; [intros q H; inversion H|].
      split; [apply package_ext_Raise; exact Hext|reflexivity].
Qed.

(** * Properties of the choice of the source archive *)

Lemma find_first {A} (P : A → bool) (l : list A) :
  match find P l with
  | Some x => ∃ l1 l2, l = l1 ++ x :: l2 ∧ P x = true
                       ∧ ∀ y, y ∈ l1 → P y = false
  | None => ∀ y, y ∈ l → P y = false
  end.
Proof.
  induction l as [|a l IH]; simpl; [intros y H; inversion H|].
  destruct (P a) eqn:Ha.
  - exists [], l. split; [reflexivity|]. split; [exact Ha|].
    intros y H. inversion H.
  - destruct (find P l) as [x|].
    + destruct IH as (l1 & l2 & -> & Hx & Hl1). exists (a :: l1), l2.
      split; [reflexivity|]. split; [exact Hx|].
      intros y [->|Hy]%elem_of_cons; auto.
    + intros y [->|Hy]%elem_of_cons; auto.
Qed.

Lemma next_sdist_first (files : list RFile) :
  match next_sdist files with
  | Ok f => ∃ l1 l2, files = l1 ++ f :: l2 ∧ packagetype f = "sdist"
                     ∧ ∀ g, g ∈ l1 → packagetype g ≠ "sdist"
  | Raise x => x = StopIteration ∧ ∀ g, g ∈ files → packagetype g ≠ "sdist"
  end.
Proof.
  unfold next_sdist. pose proof (find_first is_sdist files) as H.
  destruct (find is_sdist files) as [f|].
  - destruct H as (l1 & l2 & -> & Hf & Hl1). exists l1, l2.
    split; [reflexivity|]. split; [apply String.eqb_eq; exact Hf|].
    intros g Hg. apply String.eqb_neq. exact (Hl1 g Hg).
  - split; [reflexivity|]. intros g Hg. apply String.eqb_neq. exact (H g Hg).
Qed.

(** X19: the source archive.  When [get_package_info] looks among files
    (those of the release, or those of [urls] for a document that lists
    neither the version nor [info.url]), the archive is the first file
    of type [sdist], in the order of the document, whatever comes
    before it, a wheel for instance; without such a file the request
    fails with ["No sdist package can be found."], and [StopIteration]
    never gets out.  For a version that is not listed, [info.url] is
    taken as it is, and only a document that has none of the three
    raises [KeyError]. *)
Theorem select_src_uri_first_sdist (info : Info) (version : string) :
  match select_src_uri info version with
  | Ok u =>
      (∃ files l1 f l2,
         candidate_files info version files
         ∧ files = l1 ++ f :: l2 ∧ url f = u ∧ packagetype f = "sdist"
         ∧ ∀ g, g ∈ l1 → packagetype g ≠ "sdist")
      ∨ (releases info ≫= assoc version = None ∧ info_url info = Some u)
  | Raise x =>
      (x = Exception "No sdist package can be found."
       ∧ ∃ files, candidate_files info version files
                  ∧ ∀ g, g ∈ files → packagetype g ≠ "sdist")
      ∨ (x = KeyError ∧ releases info ≫= assoc version = None
         ∧ info_url info = None ∧ urls info = None)
  end.
Proof.
  unfold select_src_uri, candidate_files.
  destruct (releases info ≫= assoc version) as [files|] eqn:Hr.
  - pose proof (next_sdist_first files) as H.
    destruct (next_sdist files) as [f|x].
    + destruct H as (l1 & l2 & -> & Hf & Hl1). left.
      exists (l1 ++ f :: l2), l1, f, l2. auto.
    + destruct H as [_ H]. left. split; [reflexivity|]. exists files. auto.
  - destruct (info_url info) as [u|] eqn:Hu; [right; auto|].
    destruct (urls info) as [files|] eqn:Hf; [|right; auto].
    pose proof (next_sdist_first files) as H.
    destruct (next_sdist files) as [f|x].
    + destruct H as (l1 & l2 & -> & Hf' & Hl1). left.
      exists (l1 ++ f :: l2), l1, f, l2. auto 10.
    + destruct H as [_ H]. left. split; [reflexivity|]. exists files. auto.
Qed.

(** * Properties of the requirements file *)

Lemma lstrip_set_pad (pad s : string) :
  all_space pad = true →
  lstrip_set is_space (pad +:+ s) = lstrip_set is_space s.
Proof.
  induction pad as [|c pad IH]; [reflexivity|]. unfold all_space. simpl.
  intros [Hc Hp]%andb_true_iff. rewrite negb_involutive in Hc.
  rewrite Hc. exact (IH Hp).
Qed.

Lemma rstrip_set_all (pad : string) :
  all_space pad = true → rstrip_set is_space pad = "".
Proof.
  induction pad as [|c pad IH]; [reflexivity|]. unfold all_space. simpl.
  intros [Hc Hp]%andb_true_iff. rewrite negb_involutive in Hc.
  rewrite (IH Hp), Hc. reflexivity.
Qed.

Lemma rstrip_set_pad (s pad : string) :
  all_space pad = true →
  rstrip_set is_space (s +:+ pad) = rstrip_set is_space s.
Proof.
  intros Hp. induction s as [|c s IH].
  - rewrite app_empty_l. exact (rstrip_set_all _ Hp).
  - rewrite app_cons. simpl. rewrite IH. reflexivity.
Qed.

Lemma rstrip_set_none (s : string) :
  none_of is_space s = true → rstrip_set is_space s = s.
Proof.
  induction s as [|c s IH]; [reflexivity|]. simpl.
  intros [Hc Hs]%andb_true_iff. apply negb_true_iff in Hc.
  rewrite (IH Hs), Hc. destruct s; reflexivity.
Qed.

Lemma rstrip_set_app (a b : string) :
  b ≠ "" → none_of is_space b = true →
  rstrip_set is_space (a +:+ b) = a +:+ b.
Proof.
  intros Hb Hn. induction a as [|c a IH].
  - rewrite app_empty_l. exact (rstrip_set_none _ Hn).
  - rewrite app_cons. simpl. rewrite IH.
    destruct (a +:+ b) eqn:E; [|reflexivity].
    destruct a; [rewrite app_empty_l in E; contradiction|discriminate E].
Qed.

Lemma lstrip_set_none (a b : string) :
  a ≠ "" → none_of is_space a = true →
  lstrip_set is_space (a +:+ b) = a +:+ b.
Proof.
  intros Ha Hn. destruct a as [|c a]; [contradiction|].
  simpl in *. apply andb_true_iff in Hn as [Hc _].
  apply negb_true_iff in Hc. rewrite Hc. reflexivity.
Qed.

Lemma strip_space_padded (pad1 s pad2 : string) :
  all_space pad1 = true → all_space pad2 = true →
  s ≠ "" → none_of is_space s = true →
  strip_space (pad1 +:+ s +:+ pad2) = s.
Proof.
  intros H1 H2 Hs Hn. unfold strip_space.
  rewrite (lstrip_set_pad _ _ H1), (lstrip_set_none _ _ Hs Hn).
  rewrite (rstrip_set_pad _ _ H2). exact (rstrip_set_none _ Hn).
Qed.

Lemma all_space_no_equals (pad : string) :
  all_space pad = true → Py.contains "=" pad = false.
Proof.
  induction pad as [|c pad IH]; [reflexivity|]. unfold all_space. simpl.
  intros [Hc Hp]%andb_true_iff. rewrite negb_involutive in Hc.
  rewrite (IH Hp), orb_false_r.
  destruct (Ascii.eqb_spec c "="); [subst c; discriminate Hc|reflexivity].
Qed.

Lemma prefix_cons (a b : ascii) (s t : string) :
  String.prefix (String a s) (String b t)
  = if Ascii.eqb a b then String.prefix s t else false.
Proof.
  cbn [String.prefix]. destruct (ascii_dec a b) as [->|Hne].
  - rewrite Ascii.eqb_refl. reflexivity.
  - apply Ascii.eqb_neq in Hne. rewrite Hne. reflexivity.
Qed.

Lemma prefix_e_pad (pad rest : string) :
  all_space pad = true → String.prefix "e" (pad +:+ "==" +:+ rest) = false.
Proof.
  destruct pad as [|c pad]; [reflexivity|]. unfold all_space.
  cbn [none_of]. intros [Hc _]%andb_true_iff. rewrite negb_involutive in Hc.
  rewrite app_cons, prefix_cons.
  destruct (Ascii.eqb_spec "e" c) as [<-|]; [discriminate Hc|reflexivity].
Qed.

Lemma startswith_dash_e (name rest : string) :
  name ≠ "" → Py.startswith "-e" name = false →
  String.prefix "e" rest = false →
  Py.startswith "-e" (name +:+ rest) = false.
Proof.
  unfold Py.startswith. intros Hn H Hr.
  destruct name as [|c [|d name]]; [contradiction| |].
  - rewrite app_cons, app_empty_l, prefix_cons, Hr.
    destruct (Ascii.eqb "-" c); reflexivity.
  - rewrite !app_cons, !prefix_cons. rewrite !prefix_cons in H.
    destruct (Ascii.eqb "-" c); [|reflexivity].
    destruct (Ascii.eqb "e" d); [|reflexivity].
    destruct name; discriminate H.
Qed.

Lemma startswith_dot (name rest : string) :
  name ≠ "" → Py.startswith "." name = false →
  Py.startswith "." (name +:+ rest) = false.
Proof.
  unfold Py.startswith. intros Hn H.
  destruct name as [|c name]; [contradiction|].
  rewrite app_cons, prefix_cons. rewrite prefix_cons in H.
  destruct (Ascii.eqb "." c); [|reflexivity]. destruct name; discriminate H.
Qed.

Section PaddedLine.

Variables pad1 name pad2 pad3 version pad4 : string.

Hypothesis pad1_space : all_space pad1 = true.
Hypothesis pad2_space : all_space pad2 = true.
Hypothesis pad3_space : all_space pad3 = true.
Hypothesis pad4_space : all_space pad4 = true.
Hypothesis name_full : name ≠ "".
Hypothesis version_full : version ≠ "".
Hypothesis name_plain : none_of is_space name = true.
Hypothesis version_plain : none_of is_space version = true.
Hypothesis name_no_equals : Py.contains "=" name = false.
Hypothesis version_no_equals : Py.contains "=" version = false.

Lemma strip_space_padded_line :
  strip_space (pad1 +:+ name +:+ pad2 +:+ "==" +:+ pad3 +:+ version +:+ pad4)
  = name +:+ pad2 +:+ "==" +:+ pad3 +:+ version.
Proof.
  unfold strip_space.
  rewrite (lstrip_set_pad _ _ pad1_space), (lstrip_set_none _ _ name_full name_plain).
  replace (name +:+ pad2 +:+ "==" +:+ pad3 +:+ version +:+ pad4)
    with ((name +:+ pad2 +:+ "==" +:+ pad3 +:+ version) +:+ pad4)
    by (rewrite !app_assoc_str; reflexivity).
  rewrite (rstrip_set_pad _ _ pad4_space).
  replace (name +:+ pad2 +:+ "==" +:+ pad3 +:+ version)
    with ((name +:+ pad2 +:+ "==" +:+ pad3) +:+ version)
    by (rewrite !app_assoc_str; reflexivity).
  apply rstrip_set_app; assumption.
Qed.

Lemma split_eqeq_padded :
  split_eqeq (name +:+ pad2 +:+ "==" +:+ pad3 +:+ version)
  = [name +:+ pad2; pad3 +:+ version].
Proof.
  replace (name +:+ pad2 +:+ "==" +:+ pad3 +:+ version)
    with ((name +:+ pad2) +:+ "==" +:+ (pad3 +:+ version))
    by (rewrite !app_assoc_str; reflexivity).
  rewrite split_eqeq_app, split_eqeq_none; [reflexivity| |].
  - rewrite contains_app, (all_space_no_equals _ pad3_space). exact version_no_equals.
  - rewrite contains_app, (all_space_no_equals _ pad2_space), name_no_equals.
    reflexivity.
Qed.

End PaddedLine.

(** X20: a line of the requirements file made of a name, [==] and a
    version is requested as that name at that version, whatever
    whitespace surrounds the line, the name or the version; the same
    line in the file of existing packages gives a package whose name
    keeps the whitespace that follows it and whose version keeps the
    whitespace that precedes it. *)
Theorem requirement_line_strips_parts (pad1 name pad2 pad3 version pad4 : string) :
  let line := pad1 +:+ name +:+ pad2 +:+ "==" +:+ pad3 +:+ version +:+ pad4 in
  all_space pad1 = true → all_space pad2 = true →
  all_space pad3 = true → all_space pad4 = true →
  name ≠ "" → version ≠ "" →
  none_of is_space name = true → none_of is_space version = true →
  Py.contains "=" name = false → Py.contains "=" version = false →
  Py.startswith "-e" name = false → Py.startswith "." name = false →
  requirement_line line = Requested name (Some version)
  ∧ Package.name (existing_package line) = name +:+ pad2
  ∧ Package.version (existing_package line) = Some (pad3 +:+ version).
Proof.
  intros line H1 H2 H3 H4 Hn Hv Hnp Hvp Hne Hve He Hd.
  pose proof (strip_space_padded_line pad1 name pad2 pad3 version pad4
                H1 H4 Hn Hv Hnp Hvp) as Hstrip.
  pose proof (split_eqeq_padded name pad2 pad3 version H2 H3 Hne Hve) as Hsplit.
  split; [|split].
  - unfold requirement_line. fold line. unfold line. rewrite Hstrip, Hsplit.
    assert (String.eqb (name +:+ pad2 +:+ "==" +:+ pad3 +:+ version) "" = false)
      as -> by (destruct name; [contradiction|reflexivity]).
    rewrite (startswith_dash_e name _ Hn He (prefix_e_pad pad2 _ H2)).
    rewrite (startswith_dot name _ Hn Hd). simpl.
    pose proof (strip_space_padded "" name pad2 eq_refl H2 Hn Hnp) as E1.
    pose proof (strip_space_padded pad3 version "" H3 eq_refl Hv Hvp) as E2.
    rewrite app_empty_r in E2. rewrite app_empty_l in E1.
    rewrite E1, E2. reflexivity.
  - unfold existing_package. fold line. unfold line.
    rewrite Hstrip, Hsplit. reflexivity.
  - unfold existing_package. fold line. unfold line.
    rewrite Hstrip, Hsplit. reflexivity.
Qed.

Lemma requirement_line_strips_parts_witness :
  requirement_line "  requests == 2.31.0 " = Requested "requests" (Some "2.31.0")
  ∧ Package.name (existing_package "  requests == 2.31.0 ") = "requests "
  ∧ Package.version (existing_package "  requests == 2.31.0 ") = Some " 2.31.0".
Proof.
  apply (requirement_line_strips_parts "  " "requests" " " " " "2.31.0" " ");
    try reflexivity; discriminate.
Defined.

(** * The document after the choice of the archive *)

(** For a version that is not listed, the document handed on has the
    URL of the archive chosen; for a listed version it is the document
    as fetched. *)
Lemma with_src_uri_url (info : Info) (version u : string) :
  select_src_uri info version = Ok u →
  (releases info ≫= assoc version = None →
   info_url (with_src_uri info version u) = Some u)
  ∧ (is_Some (releases info ≫= assoc version) →
     with_src_uri info version u = info).
Proof.
  unfold select_src_uri, with_src_uri. intros H. split.
  - intros Hr. rewrite Hr in *.
    destruct (info_url info) as [u'|] eqn:Hu; [congruence|reflexivity].
  - intros [files Hr]. rewrite Hr. reflexivity.
Qed.
